(** * briefliee: the recording pipeline of the voice-memo application

    A shallow embedding of the three hooks of the mobile client
    ([useSpeechToText], [useAudioRecording], [useSummary]), of the begin
    handler of the recorder screen and of the two routes of the recordings
    server, with the properties of the specification proved over them.

    The hooks are asynchronous JavaScript: every one of them is a sequence of
    awaited calls to the platform (fetch, timers, the microphone, the
    database).  A hook is embedded as a state-passing computation over an
    explicit world that holds the hook's React state, the scripted answers of
    the platform and a log of what the hook asked of it.  An awaited promise
    that rejects is a [Throw]; a promise that is not settled is [Pending]. *)

From Stdlib Require Import ZArith QArith List String Ascii Bool Lia.
From Stdlib Require Import DecimalString DecimalZ Permutation Sorted.
Import ListNotations.
Open Scope list_scope.
Open Scope string_scope.

(* ================================================================== *)
(** * JavaScript values as the hooks meet them                         *)
(* ================================================================== *)

Module Js.

(** What [JSON.parse] (behind [Response.json()] and [express.json()]) hands
    to the code.  The hooks never compute with a number: they test it for
    truthiness and splice it into text, so numbers are carried as integers.
    An object keeps one binding per key, the first of the list. *)
#[local] Set Warnings "-register-all".
Inductive json : Type :=
| JNull
| JBool (b : bool)
| JNum (n : Z)
| JStr (s : string)
| JArr (items : list json)
| JObj (fields : list (string * json)).

(** A JavaScript value read out of parsed JSON: [None] is [undefined]. *)
Definition value : Type := option json.
Definition undefined : value := None.
Definition null : value := Some JNull.

(** What a [throw] or a rejected promise carries: an [Error] object (with its
    [name] and [message]) or any other value. *)
Inductive thrown : Type :=
| ErrorObj (name message : string)
| NonError (v : value).

(** [new Error(msg)] *)
Definition Error (msg : string) : thrown := ErrorObj "Error" msg.

(** [err instanceof Error ? err.message : fallback] *)
Definition message_or (fallback : string) (e : thrown) : string :=
  match e with
  | ErrorObj _ m => m
  | NonError _ => fallback
  end.

(** ToBoolean, as [!x] and [x || y] apply it. *)
Definition truthy (v : value) : bool :=
  match v with
  | None => false
  | Some JNull => false
  | Some (JBool b) => b
  | Some (JNum n) => negb (n =? 0)%Z
  | Some (JStr s) => negb (s =? "")
  | Some (JArr _) => true
  | Some (JObj _) => true
  end.

(** [a || b] *)
Definition or_else (a b : value) : value := if truthy a then a else b.

Fixpoint assoc (k : string) (fields : list (string * json)) : value :=
  match fields with
  | [] => None
  | (k', v) :: rest => if k =? k' then Some v else assoc k rest
  end.

(** Decimal text of an integer, [String(n)] for the integers a response
    carries (identifiers, HTTP statuses). *)
Definition decimal (n : Z) : string := NilZero.string_of_int (Z.to_int n).

(** ToString, as [+] with a string and a template literal apply it.
    [Array.prototype.toString] joins the elements with commas and prints
    [null] as the empty text. *)
Fixpoint to_string (j : json) : string :=
  match j with
  | JNull => "null"
  | JBool true => "true"
  | JBool false => "false"
  | JNum n => decimal n
  | JStr s => s
  | JArr items =>
      (fix join (l : list json) : string :=
         match l with
         | [] => ""
         | x :: rest =>
             let here := match x with JNull => "" | _ => to_string x end in
             match rest with
             | [] => here
             | _ :: _ => here ++ "," ++ join rest
             end
         end) items
  | JObj _ => "[object Object]"
  end.

Definition show (v : value) : string :=
  match v with
  | None => "undefined"
  | Some j => to_string j
  end.

(** The engine's message for a property read off [null] or [undefined]
    (V8's wording; other engines word it differently, and nothing below
    depends on the wording). *)
Definition cannot_read (base : value) (k : string) : thrown :=
  ErrorObj "TypeError"
    ("Cannot read properties of " ++ show base ++ " (reading '" ++ k ++ "')").

(** [base.k] for the keys the code reads ([status], [text], [error], [id],
    [upload_url], [choices], [message], [content], [transcription],
    [summary]): none of them is a property of a prototype, so a primitive or
    an array answers [undefined]; [null] and [undefined] throw. *)
Definition get (base : value) (k : string) : thrown + value :=
  match base with
  | None | Some JNull => inl (cannot_read base k)
  | Some (JObj fields) => inr (assoc k fields)
  | Some _ => inr undefined
  end.

(** [base?.k] *)
Definition get_opt (base : value) (k : string) : value :=
  match base with
  | Some (JObj fields) => assoc k fields
  | _ => undefined
  end.

Definition first_char (s : string) : value :=
  match s with
  | EmptyString => undefined
  | String c _ => Some (JStr (String c EmptyString))
  end.

(** [base[0]] *)
Definition get_first (base : value) : thrown + value :=
  match base with
  | None | Some JNull => inl (cannot_read base "0")
  | Some (JArr items) => inr (hd_error items)
  | Some (JStr s) => inr (first_char s)
  | Some (JObj fields) => inr (assoc "0" fields)
  | Some _ => inr undefined
  end.

(** [x === "lit"] *)
Definition is_string (lit : string) (v : value) : bool :=
  match v with
  | Some (JStr s) => s =? lit
  | _ => false
  end.

(** ** Awaited computations *)

(** How an awaited computation ends: with a value, with a thrown value (a
    rejected promise), or not at all. *)
Inductive outcome (A : Type) : Type :=
| Ret (a : A)
| Throw (e : thrown)
| Pending.
Arguments Ret {A} a.
Arguments Throw {A} e.
Arguments Pending {A}.

(** A computation over a world [W]; the world it leaves is kept on every
    outcome, because a [catch] sees the state updates made before the throw. *)
Definition M (W A : Type) : Type := W -> outcome A * W.

Definition ret {W A} (a : A) : M W A := fun w => (Ret a, w).
Definition throw {W A} (e : thrown) : M W A := fun w => (Throw e, w).
Definition pending {W A} : M W A := fun w => (Pending, w).

Definition bind {W A B} (m : M W A) (k : A -> M W B) : M W B :=
  fun w =>
    match m w with
    | (Ret a, w') => k a w'
    | (Throw e, w') => (Throw e, w')
    | (Pending, w') => (Pending, w')
    end.

(** [try { m } catch (err) { handler err }] *)
Definition try_catch {W A} (m : M W A) (handler : thrown -> M W A) : M W A :=
  fun w =>
    match m w with
    | (Throw e, w') => handler e w'
    | r => r
    end.

Definition modify {W} (f : W -> W) : M W unit := fun w => (Ret tt, f w).
Definition gets {W A} (f : W -> A) : M W A := fun w => (Ret (f w), w).

(** A synchronous step that may throw. *)
Definition lift {W A} (r : thrown + A) : M W A :=
  match r with
  | inl e => throw e
  | inr a => ret a
  end.

End Js.

Import Js.

Notation "x <- m ;; k" := (bind m (fun x => k))
  (at level 61, m at next level, right associativity).
Notation "m ;;; k" := (bind m (fun _ => k))
  (at level 61, right associativity).

(* ================================================================== *)
(** * The network: [fetch] against scripted answers                    *)
(* ================================================================== *)

Module Net.

(** What a [Response] offers the hooks: [ok], [status], the body as text
    ([text()], and [blob()] for the raw bytes) and the body as parsed JSON
    ([json()], which rejects when the body is not JSON). *)
Record response : Type := {
  ok : bool;
  status : Z;
  body : string;
  parsed : option json
}.

Inductive fetch_result : Type :=
| Responds (r : response)
| Rejects (e : thrown).

(** An OpenRouter chat message, [interface Message]. *)
Record Message : Type := { role : string; content : string }.

(** The object [generateSummary] serialises as its request body. *)
Record chat_request : Type := {
  model : string;
  messages : list Message;
  max_tokens : Z;
  temperature : Q
}.

Inductive payload : Type :=
| NoBody
| Raw (bytes : string)
| Json (j : json)
| Chat (c : chat_request).

Record request : Type := {
  url : string;
  method : string;
  headers : list (string * string);
  sent : payload
}.

(** What the hook asked of the platform, in order. *)
Inductive event : Type :=
| Fetched (r : request)
| Waited (ms : Z).

(** The scripted platform: the answers of the fetches still to come (the
    head answers the next one), the answer of every fetch after the script
    ran out, and the events so far, newest first. *)
Record net : Type := {
  answers : list fetch_result;
  afterwards : fetch_result;
  events : list event
}.

Definition next_answer (n : net) : fetch_result :=
  match answers n with
  | [] => afterwards n
  | a :: _ => a
  end.

(** The answer to the fetch made after [i] others, counted from now. *)
Definition answer_at (i : nat) (n : net) : fetch_result :=
  nth i (answers n) (afterwards n).

Definition fetch_net (r : request) (n : net) : fetch_result * net :=
  (next_answer n,
   {| answers := tl (answers n);
      afterwards := afterwards n;
      events := Fetched r :: events n |}).

Definition wait_net (ms : Z) (n : net) : net :=
  {| answers := answers n;
     afterwards := afterwards n;
     events := Waited ms :: events n |}.

(** [JSON.stringify] of an object literal: a property whose value is
    [undefined] is left out. *)
Fixpoint stringify_fields (l : list (string * value)) : list (string * json) :=
  match l with
  | [] => []
  | (k, Some j) :: rest => (k, j) :: stringify_fields rest
  | (_, None) :: rest => stringify_fields rest
  end.

(** [await resp.json()] *)
Definition json_of (r : response) : thrown + json :=
  match parsed r with
  | Some j => inr j
  | None => inl (ErrorObj "SyntaxError" "Unexpected token in JSON")
  end.

(** The history of a network, oldest event first. *)
Definition history (n : net) : list event := rev (events n).

Definition waits (l : list event) : list Z :=
  flat_map (fun e => match e with Waited ms => [ms] | Fetched _ => [] end) l.

Definition requests (l : list event) : list request :=
  flat_map (fun e => match e with Fetched r => [r] | Waited _ => [] end) l.

End Net.

Import Net.

(* ================================================================== *)
(** * hooks/useSpeechToText.ts                                         *)
(* ================================================================== *)

Module SpeechToText.

(** The hook's React state ([isTranscribing], [error]) and the network it
    talks to. *)
Record world : Type := {
  isTranscribing : bool;
  error : option string;
  wire : net
}.

Definition setIsTranscribing (b : bool) : M world unit :=
  modify (fun w => {| isTranscribing := b; error := error w; wire := wire w |}).

Definition setError (e : option string) : M world unit :=
  modify (fun w =>
    {| isTranscribing := isTranscribing w; error := e; wire := wire w |}).

(** [await fetch(...)]: the next scripted answer; a rejection is thrown. *)
Definition fetch (r : request) : M world response :=
  fun w =>
    let (a, n) := fetch_net r (wire w) in
    let w' := {| isTranscribing := isTranscribing w; error := error w; wire := n |} in
    match a with
    | Responds resp => (Ret resp, w')
    | Rejects e => (Throw e, w')
    end.

(** [await new Promise((r) => setTimeout(r, ms))] *)
Definition sleep (ms : Z) : M world unit :=
  modify (fun w =>
    {| isTranscribing := isTranscribing w; error := error w;
       wire := wait_net ms (wire w) |}).

Definition upload_endpoint : string := "https://api.assemblyai.com/v2/upload".
Definition transcript_endpoint : string := "https://api.assemblyai.com/v2/transcript".
Definition poll_interval : Z := 3000.

(** The job is over when its status is ["completed"] or ["error"]: the
    negation of the [while] condition. *)
Definition terminal (st : value) : bool :=
  is_string "completed" st || is_string "error" st.

Section Client.

(** The service credential, sent as the [Authorization] header. *)
Variable api_key : string.

Definition blob_request (audioUri : string) : request :=
  {| url := audioUri; method := "GET"; headers := []; sent := NoBody |}.

Definition upload_request (fileBlob : string) : request :=
  {| url := upload_endpoint; method := "POST";
     headers := [("Authorization", api_key); ("Transfer-Encoding", "chunked")];
     sent := Raw fileBlob |}.

Definition submit_request (audioUrl : value) : request :=
  {| url := transcript_endpoint; method := "POST";
     headers := [("Authorization", api_key); ("Content-Type", "application/json")];
     sent := Json (JObj (stringify_fields [("audio_url", audioUrl)])) |}.

Definition poll_request (id : value) : request :=
  {| url := transcript_endpoint ++ "/" ++ show id; method := "GET";
     headers := [("Authorization", api_key)]; sent := NoBody |}.

(** The polling loop
    [while (transcriptData.status !== "completed" && transcriptData.status !== "error")]
    with its body.  The loop of the source has no bound; [fuel] bounds the
    iterations of the model, and a loop that has not seen a terminal status
    when the fuel is spent is [Pending]. *)
Fixpoint poll (fuel : nat) (data transcriptData : json) : M world json :=
  st <- lift (get (Some transcriptData) "status") ;;
  if terminal st then ret transcriptData
  else
    match fuel with
    | O => pending
    | S fuel' =>
        sleep poll_interval ;;;
        id <- lift (get (Some data) "id") ;;
        pollRes <- fetch (poll_request id) ;;
        next <- lift (json_of pollRes) ;;
        poll fuel' data next
    end.

(** The [try] block of [transcribe].  The two branches of
    [Platform.OS === "web"] are the same two statements (fetch the recorded
    file, take its blob), so the block does not depend on the platform. *)
Definition transcribe_try (fuel : nat) (audioUri : string) : M world value :=
  setIsTranscribing true ;;;
  setError None ;;;
  resp <- fetch (blob_request audioUri) ;;
  let fileBlob := body resp in
  uploadRes <- fetch (upload_request fileBlob) ;;
  if negb (ok uploadRes) then
    let errText := body uploadRes in
    throw (Error ("Upload failed: " ++ errText))
  else
    uploadData <- lift (json_of uploadRes) ;;
    audioUrl <- lift (get (Some uploadData) "upload_url") ;;
    response <- fetch (submit_request audioUrl) ;;
    if negb (ok response) then
      throw (Error ("Transcription failed: " ++ decimal (status response)))
    else
      data <- lift (json_of response) ;;
      transcriptData <- poll fuel data data ;;
      st <- lift (get (Some transcriptData) "status") ;;
      if is_string "error" st then
        err <- lift (get (Some transcriptData) "error") ;;
        throw (Error ("Transcription failed: " ++ show err))
      else
        setIsTranscribing false ;;;
        lift (get (Some transcriptData) "text").

(** The [catch] block of [transcribe]. *)
Definition transcribe_catch (err : thrown) : M world value :=
  setError (Some (message_or "Transcription failed" err)) ;;;
  setIsTranscribing false ;;;
  ret null.

Definition transcribe (fuel : nat) (audioUri : string) : M world value :=
  try_catch (transcribe_try fuel audioUri) transcribe_catch.

End Client.

(** *** Scripts *)

(** A successful answer whose body is the JSON value [j]. *)
Definition answer (j : json) : response :=
  {| ok := true; status := 200; body := ""; parsed := Some j |}.

(** A hook at rest, facing the scripted answers [l]; every fetch after the
    script answers [last]. *)
Definition facing (l : list fetch_result) (last : fetch_result) : world :=
  {| isTranscribing := false; error := None;
     wire := {| answers := l; afterwards := last; events := [] |} |}.

(** The job body [{id, status, text?, error?}] of the service. *)
Definition job (id st : string) (more : list (string * json)) : json :=
  JObj (("id", JStr id) :: ("status", JStr st) :: more).

(** The script of the specification: the job is accepted as [queued], the
    first poll reports [processing], the second [completed] with the text
    ["hello world"]. *)
Definition hello_script : list fetch_result :=
  [ Responds {| ok := true; status := 200; body := "RIFF"; parsed := None |};
    Responds (answer (JObj [("upload_url", JStr "https://cdn/u1")]));
    Responds (answer (job "j1" "queued" []));
    Responds (answer (job "j1" "processing" []));
    Responds (answer (job "j1" "completed" [("text", JStr "hello world")])) ].

Definition still_processing : fetch_result :=
  Responds (answer (job "j1" "processing" [])).

(** What the hook reads off the upload answer: the [upload_url] of an
    accepted upload. *)
Definition uploaded (r : response) : option value :=
  if ok r then
    match parsed r with
    | Some d => match get (Some d) "upload_url" with inr u => Some u | inl _ => None end
    | None => None
    end
  else None.

(** The job body of an accepted submission. *)
Definition submitted (r : response) : option json :=
  if ok r then parsed r else None.

(** A job body that keeps the loop going: its [status] reads, and is neither
    ["completed"] nor ["error"]. *)
Definition waiting (td : json) : bool :=
  match get (Some td) "status" with
  | inr st => negb (terminal st)
  | inl _ => false
  end.

Definition waiting_answer (r : response) : bool :=
  match parsed r with
  | Some td => waiting td
  | None => false
  end.

(** The [status] of a job body, [undefined] when it cannot be read. *)
Definition status_of (td : json) : value :=
  match get (Some td) "status" with
  | inr st => st
  | inl _ => undefined
  end.

(** One poll cycle, in the order of the events: the wait, then the request. *)
Definition cycle (api_key : string) (id : value) : list event :=
  [Waited poll_interval; Fetched (poll_request api_key id)].

Definition cycles (api_key : string) (id : value) (n : nat) : list event :=
  List.concat (repeat (cycle api_key id) n).

(** The failures of the specification, as the [Error]s the hook throws. *)
Definition UploadFailed (serverBody : string) : thrown :=
  Error ("Upload failed: " ++ serverBody).
Definition TranscriptionFailed (serverMessage : string) : thrown :=
  Error ("Transcription failed: " ++ serverMessage).

(** The world [w] with its network replaced. *)
Definition on_wire (w : world) (n : net) : world :=
  {| isTranscribing := isTranscribing w; error := error w; wire := n |}.

(** The world the [try] block has reached when the loop ends after [n]
    cycles: the three requests of the protocol, then the cycles. *)
Definition after_polls (api_key uri fileBlob : string) (audioUrl id : value)
    (n : nat) (rest : list fetch_result) (w : world) : world :=
  {| isTranscribing := true; error := None;
     wire := {| answers := rest; afterwards := afterwards (wire w);
                events := (rev (cycles api_key id n)
                           ++ Fetched (submit_request api_key audioUrl)
                           :: Fetched (upload_request api_key fileBlob)
                           :: Fetched (blob_request uri)
                           :: events (wire w))%list |} |}.

(** [setIsTranscribing(false)] on the way out, and with
    [setError(msg)] before it. *)
Definition done (w : world) : world :=
  {| isTranscribing := false; error := error w; wire := wire w |}.

Definition failed (msg : string) (w : world) : world :=
  {| isTranscribing := false; error := Some msg; wire := wire w |}.

(** The polls made so far: one wait each. *)
Definition made (w : world) : nat := List.length (waits (events (wire w))).

(** The script of the failing job: accepted as [queued], then reported in
    [error] with the message ["bad audio"]. *)
Definition bad_audio_script : list fetch_result :=
  [ Responds {| ok := true; status := 200; body := "RIFF"; parsed := None |};
    Responds (answer (JObj [("upload_url", JStr "https://cdn/u1")]));
    Responds (answer (job "j1" "queued" []));
    Responds (answer (job "j1" "error" [("error", JStr "bad audio")])) ].

(** A refused upload: status 401 with the body the server sent. *)
Definition refused_upload : list fetch_result :=
  [ Responds {| ok := true; status := 200; body := "RIFF"; parsed := None |};
    Responds {| ok := false; status := 401; body := "Invalid API key";
                parsed := None |} ].

End SpeechToText.

(* ================================================================== *)
(** * hooks/useSummary.ts                                              *)
(* ================================================================== *)

Module Summary.

Record world : Type := {
  isGeneratingSummary : bool;
  error : option string;
  wire : net
}.

Definition setIsGeneratingSummary (b : bool) : M world unit :=
  modify (fun w => {| isGeneratingSummary := b; error := error w; wire := wire w |}).

Definition setError (e : option string) : M world unit :=
  modify (fun w =>
    {| isGeneratingSummary := isGeneratingSummary w; error := e; wire := wire w |}).

Definition fetch (r : request) : M world response :=
  fun w =>
    let (a, n) := fetch_net r (wire w) in
    let w' :=
      {| isGeneratingSummary := isGeneratingSummary w; error := error w; wire := n |} in
    match a with
    | Responds resp => (Ret resp, w')
    | Rejects e => (Throw e, w')
    end.

Definition chat_endpoint : string := "https://openrouter.ai/api/v1/chat/completions".

Definition system_instruction : string :=
  "You are a helpful assistant that creates concise, clear summaries. Summarize the following text in 2-3 sentences, capturing the main points and key information.".

Definition newline : string := String (ascii_of_nat 10) EmptyString.

(** The template literal of the user message: the prefix line, an empty
    line, the text. *)
Definition user_prompt (text : string) : string :=
  "Please summarize this text:" ++ newline ++ newline ++ text.

Definition chat_messages (text : string) : list Message :=
  [ {| role := "system"; content := system_instruction |};
    {| role := "user"; content := user_prompt text |} ].

Definition no_summary : string := "No summary generated".
Definition failed_summary : string := "Failed to generate summary. Please try again.".

(** [data.choices[0]?.message?.content] *)
Definition first_completion (data : json) : thrown + value :=
  match get (Some data) "choices" with
  | inl e => inl e
  | inr choices =>
      match get_first choices with
      | inl e => inl e
      | inr choice => inr (get_opt (get_opt choice "message") "content")
      end
  end.

Section Client.

(** The OpenRouter key, sent as a bearer token (a literal in one revision of
    the hook, [process.env.OPEN_ROUTER_API_KEY] in the other). *)
Variable api_key : string.

Definition chat_body (text : string) : chat_request :=
  {| model := "openai/chatgpt-4o-latest";
     messages := chat_messages text;
     max_tokens := 150;
     temperature := 3 # 10 |}.

Definition summary_request (text : string) : request :=
  {| url := chat_endpoint; method := "POST";
     headers := [("Content-Type", "application/json");
                 ("Authorization", "Bearer " ++ api_key)];
     sent := Chat (chat_body text) |}.

(** The [try] block of [generateSummary]. *)
Definition generateSummary_try (text : string) : M world value :=
  setIsGeneratingSummary true ;;;
  setError None ;;;
  response <- fetch (summary_request text) ;;
  if negb (ok response) then
    throw (Error ("Summary generation failed: " ++ decimal (status response)))
  else
    data <- lift (json_of response) ;;
    setIsGeneratingSummary false ;;;
    completion <- lift (first_completion data) ;;
    ret (or_else completion (Some (JStr no_summary))).

(** The [catch] block of [generateSummary]. *)
Definition generateSummary_catch (err : thrown) : M world value :=
  setError (Some (message_or "Summary generation failed" err)) ;;;
  setIsGeneratingSummary false ;;;
  ret (Some (JStr failed_summary)).

Definition generateSummary (text : string) : M world value :=
  try_catch (generateSummary_try text) generateSummary_catch.

End Client.

(** A hook at rest whose one request gets the answer [a]. *)
Definition facing (a : fetch_result) : world :=
  {| isGeneratingSummary := false; error := None;
     wire := {| answers := [a]; afterwards := a; events := [] |} |}.

(** The body [{choices:[{message:{content}}]}] of the service. *)
Definition completion (text : json) : json :=
  JObj [("choices", JArr [JObj [("message", JObj [("role", JStr "assistant");
                                                   ("content", text)])]])].

Definition success (j : json) : fetch_result :=
  Responds {| ok := true; status := 200; body := ""; parsed := Some j |}.

(** The world [generateSummary] leaves: the flag cleared, the error [e],
    the network [n]. *)
Definition settled (n : net) (e : option string) : world :=
  {| isGeneratingSummary := false; error := e; wire := n |}.

End Summary.

(* ================================================================== *)
(** * hooks/useAudioRecording.ts                                       *)
(* ================================================================== *)

Module AudioRecording.

Inductive os : Type := Web | Native.

(** An [Alert.alert(title, message, buttons)] call; a button may carry the
    action its [onPress] runs. *)
Inductive action : Type := RetryStart.
Record button : Type := { label : string; onPress : option action }.
Record alert : Type := { title : string; message : string; buttons : list button }.

(** A [MediaRecorder]: the stream it records and whether its state is
    ["recording"]. *)
Record MediaRecorder : Type := { stream : nat; active : bool }.

(** An expo-av [Audio.Recording]: what its [getURI()] answers. *)
Record Recording : Type := { getURI : option string }.

(** How [recording.stopAndUnloadAsync()] ends: it resolves, having unloaded
    the platform recorder; or it rejects, after or before unloading it. *)
Inductive unload_answer : Type :=
| Unloads
| RejectsUnloaded (e : thrown)
| RejectsLoaded (e : thrown).

(** The scripted platform.  The microphone is asked for by separate calls
    (the probe of [checkPermissions], then [startRecording] itself), which
    nothing makes agree: [getUserMedia] and [requestPermissionsAsync] give
    the answer to each request by the number of requests answered before
    it. *)
Record platform : Type := {
  OS : os;
  (* web *)
  mediaDevices : bool;            (* navigator.mediaDevices.getUserMedia exists *)
  protocol : string;              (* location.protocol *)
  hostname : string;              (* location.hostname *)
  getUserMedia : nat -> option thrown;   (* None: the stream is granted *)
  newMediaRecorder : option thrown;      (* new MediaRecorder(stream, ...) *)
  start : option thrown;                 (* mediaRecorder.start(1000) *)
  dataavailable : list string;    (* the blobs of the recorder's data events *)
  createObjectURL : thrown + string;
  (* native *)
  requestPermissionsAsync : nat -> thrown + string;   (* the status *)
  setAudioModeAsync : option thrown;
  createAsync : thrown + Recording;
  stopAndUnloadAsync : unload_answer
}.

(** The hook's React state ([recording], [isRecording]), its refs
    ([mediaRecorderRef], [audioChunksRef]), the microphone (the tracks of the
    streams handed out, live or stopped, and whether the native recorder is
    loaded), the object URLs minted, the alerts shown, newest first, and the
    number of requests for the microphone the platform has answered. *)
Record world : Type := {
  recording : option Recording;
  isRecording : bool;
  mediaRecorderRef : option MediaRecorder;
  audioChunksRef : list string;
  tracks : list bool;
  recorderLoaded : bool;
  objectURLs : list (string * list string);
  alerts : list alert;
  asked : nat;
  env : platform
}.

(** The microphone is held while a track is live or the native recorder is
    loaded. *)
Definition device_held (w : world) : bool :=
  existsb (fun live => live) (tracks w) || recorderLoaded w.

Definition setRecording (r : option Recording) : M world unit :=
  modify (fun w =>
    {| recording := r; isRecording := isRecording w;
       mediaRecorderRef := mediaRecorderRef w; audioChunksRef := audioChunksRef w;
       tracks := tracks w; recorderLoaded := recorderLoaded w;
       objectURLs := objectURLs w; alerts := alerts w;
       asked := asked w; env := env w |}).

Definition setIsRecording (b : bool) : M world unit :=
  modify (fun w =>
    {| recording := recording w; isRecording := b;
       mediaRecorderRef := mediaRecorderRef w; audioChunksRef := audioChunksRef w;
       tracks := tracks w; recorderLoaded := recorderLoaded w;
       objectURLs := objectURLs w; alerts := alerts w;
       asked := asked w; env := env w |}).

Definition setMediaRecorderRef (m : option MediaRecorder) : M world unit :=
  modify (fun w =>
    {| recording := recording w; isRecording := isRecording w;
       mediaRecorderRef := m; audioChunksRef := audioChunksRef w;
       tracks := tracks w; recorderLoaded := recorderLoaded w;
       objectURLs := objectURLs w; alerts := alerts w;
       asked := asked w; env := env w |}).

Definition setAudioChunksRef (c : list string) : M world unit :=
  modify (fun w =>
    {| recording := recording w; isRecording := isRecording w;
       mediaRecorderRef := mediaRecorderRef w; audioChunksRef := c;
       tracks := tracks w; recorderLoaded := recorderLoaded w;
       objectURLs := objectURLs w; alerts := alerts w;
       asked := asked w; env := env w |}).

Definition setTracks (t : list bool) : M world unit :=
  modify (fun w =>
    {| recording := recording w; isRecording := isRecording w;
       mediaRecorderRef := mediaRecorderRef w; audioChunksRef := audioChunksRef w;
       tracks := t; recorderLoaded := recorderLoaded w;
       objectURLs := objectURLs w; alerts := alerts w;
       asked := asked w; env := env w |}).

Definition setRecorderLoaded (b : bool) : M world unit :=
  modify (fun w =>
    {| recording := recording w; isRecording := isRecording w;
       mediaRecorderRef := mediaRecorderRef w; audioChunksRef := audioChunksRef w;
       tracks := tracks w; recorderLoaded := b;
       objectURLs := objectURLs w; alerts := alerts w;
       asked := asked w; env := env w |}).

Definition mintObjectURL (u : string) (blob : list string) : M world unit :=
  modify (fun w =>
    {| recording := recording w; isRecording := isRecording w;
       mediaRecorderRef := mediaRecorderRef w; audioChunksRef := audioChunksRef w;
       tracks := tracks w; recorderLoaded := recorderLoaded w;
       objectURLs := (u, blob) :: objectURLs w; alerts := alerts w;
       asked := asked w; env := env w |}).

(** [Alert.alert(...)] *)
Definition Alert (a : alert) : M world unit :=
  modify (fun w =>
    {| recording := recording w; isRecording := isRecording w;
       mediaRecorderRef := mediaRecorderRef w; audioChunksRef := audioChunksRef w;
       tracks := tracks w; recorderLoaded := recorderLoaded w;
       objectURLs := objectURLs w; alerts := a :: alerts w;
       asked := asked w; env := env w |}).

(** The platform has answered [n] more requests for the microphone. *)
Definition answered (n : nat) (w : world) : world :=
  {| recording := recording w; isRecording := isRecording w;
     mediaRecorderRef := mediaRecorderRef w; audioChunksRef := audioChunksRef w;
     tracks := tracks w; recorderLoaded := recorderLoaded w;
     objectURLs := objectURLs w; alerts := alerts w;
     asked := n + asked w; env := env w |}.

(** *** The platform calls *)

(** [await navigator.mediaDevices.getUserMedia(...)]: the platform answers
    this request; when it grants it, a new stream with one live audio track,
    named by its place in [tracks]. *)
Definition navigator_getUserMedia : M world nat :=
  w <- gets (fun w => w) ;;
  modify (answered 1) ;;;
  match getUserMedia (env w) (asked w) with
  | Some e => throw e
  | None =>
      setTracks (tracks w ++ [true])%list ;;;
      ret (List.length (tracks w))
  end.

Fixpoint stop_track (i : nat) (l : list bool) : list bool :=
  match l, i with
  | [], _ => []
  | _ :: rest, O => false :: rest
  | t :: rest, S i' => t :: stop_track i' rest
  end.

(** [stream.getTracks().forEach(track => track.stop())] *)
Definition stop_tracks (s : nat) : M world unit :=
  w <- gets (fun w => w) ;;
  setTracks (stop_track s (tracks w)).

(** [await Audio.requestPermissionsAsync()], the [status] of its answer. *)
Definition Audio_requestPermissionsAsync : M world string :=
  w <- gets (fun w => w) ;;
  modify (answered 1) ;;;
  lift (requestPermissionsAsync (env w) (asked w)).

(** [await Audio.setAudioModeAsync(...)] *)
Definition Audio_setAudioModeAsync : M world unit :=
  w <- gets (fun w => w) ;;
  match setAudioModeAsync (env w) with
  | Some e => throw e
  | None => ret tt
  end.

(** [await Audio.Recording.createAsync(...)]: the recorder is prepared and
    started, and holds the microphone. *)
Definition Audio_Recording_createAsync : M world Recording :=
  w <- gets (fun w => w) ;;
  match createAsync (env w) with
  | inl e => throw e
  | inr r => setRecorderLoaded true ;;; ret r
  end.

(** [await recording.stopAndUnloadAsync()] *)
Definition Recording_stopAndUnloadAsync : M world unit :=
  w <- gets (fun w => w) ;;
  match stopAndUnloadAsync (env w) with
  | Unloads => setRecorderLoaded false
  | RejectsUnloaded e => setRecorderLoaded false ;;; throw e
  | RejectsLoaded e => throw e
  end.

(** [location.protocol !== 'https:' && location.hostname !== 'localhost'] *)
Definition insecure_origin (p : platform) : bool :=
  negb (protocol p =? "https:") && negb (hostname p =? "localhost").

(** *** startRecording *)

Definition startRecording_try : M world unit :=
  w <- gets (fun w => w) ;;
  match OS (env w) with
  | Web =>
      if negb (mediaDevices (env w)) then
        throw (Error "Media devices not supported in this browser")
      else if insecure_origin (env w) then
        throw (Error "Microphone access requires HTTPS or localhost")
      else
        s <- navigator_getUserMedia ;;
        match newMediaRecorder (env w) with
        | Some e => throw e
        | None =>
            setMediaRecorderRef (Some {| stream := s; active := false |}) ;;;
            setAudioChunksRef [] ;;;
            (* mediaRecorder.start(1000) *)
            match start (env w) with
            | Some e => throw e
            | None =>
                setMediaRecorderRef (Some {| stream := s; active := true |}) ;;;
                setIsRecording true
            end
        end
  | Native =>
      st <- Audio_requestPermissionsAsync ;;
      if negb (st =? "granted") then
        Alert {| title := "Permission denied";
                 message := "Audio recording permission is required";
                 buttons := [] |}
      else
        Audio_setAudioModeAsync ;;;
        r <- Audio_Recording_createAsync ;;
        setRecording (Some r) ;;;
        setIsRecording true
  end.

Definition start_error_message (err : thrown) : string :=
  match err with
  | ErrorObj name msg =>
      if name =? "NotFoundError" then
        "No microphone found. Please connect a microphone and try again."
      else if name =? "NotAllowedError" then
        "Microphone access denied. Please allow microphone access and try again."
      else if name =? "NotSupportedError" then
        "Audio recording not supported in this browser."
      else if name =? "NotReadableError" then
        "Microphone is already in use by another application."
      else msg
  | NonError _ => "Failed to start recording"
  end.

Definition startRecording_catch (err : thrown) : M world unit :=
  let errorMessage := start_error_message err in
  w <- gets (fun w => w) ;;
  match OS (env w) with
  | Web =>
      Alert {| title := "Recording Error"; message := errorMessage; buttons := [] |}
  | Native => ret tt
  end ;;;
  throw (Error errorMessage).

Definition startRecording : M world unit :=
  try_catch startRecording_try startRecording_catch.

(** *** stopRecording *)

(** The [onstop] handler, run when the recorder fires its [stop] event.  It
    is an [async] function nobody awaits: when it throws, [resolve] is never
    called and the promise of [stopRecording] stays pending. *)
Definition onstop (mediaRecorder : MediaRecorder) : M world value :=
  fun w =>
    let audioBlob := audioChunksRef w in
    match createObjectURL (env w) with
    | inl _ => (Pending, w)
    | inr audioUrl =>
        (mintObjectURL audioUrl audioBlob ;;;
         stop_tracks (stream mediaRecorder) ;;;
         setIsRecording false ;;;
         setMediaRecorderRef None ;;;
         setAudioChunksRef [] ;;;
         ret (Some (JStr audioUrl))) w
    end.

(** [ondataavailable]: a blob of positive size is pushed on the chunks. *)
Definition ondataavailable (data : string) : M world unit :=
  if (0 <? String.length data)%nat then
    w <- gets (fun w => w) ;;
    setAudioChunksRef (audioChunksRef w ++ [data])%list
  else ret tt.

Fixpoint deliver (blobs : list string) : M world unit :=
  match blobs with
  | [] => ret tt
  | b :: rest => ondataavailable b ;;; deliver rest
  end.

(** [new Promise((resolve) => { mediaRecorder.onstop = ...; mediaRecorder.stop(); })]:
    [stop()] on an inactive recorder throws [InvalidStateError] inside the
    executor, which rejects the promise; on a recording one it makes the
    recorder inactive and has it fire its data events and then [stop]. *)
Definition stop_promise (mediaRecorder : MediaRecorder) : M world value :=
  if negb (active mediaRecorder) then
    throw (ErrorObj "InvalidStateError" "The MediaRecorder's state is 'inactive'.")
  else
    let stopped := {| stream := stream mediaRecorder; active := false |} in
    setMediaRecorderRef (Some stopped) ;;;
    w <- gets (fun w => w) ;;
    deliver (dataavailable (env w)) ;;;
    onstop stopped.

(** The [try] block of [stopRecording]: what it returns is a value, or (on
    the web) a promise the block does not await. *)
Definition stopRecording_try : M world (value + M world value) :=
  w <- gets (fun w => w) ;;
  match OS (env w) with
  | Web =>
      match mediaRecorderRef w with
      | None => ret (inl null)
      | Some mediaRecorder => ret (inr (stop_promise mediaRecorder))
      end
  | Native =>
      match recording w with
      | None => ret (inl null)
      | Some r =>
          Recording_stopAndUnloadAsync ;;;
          Audio_setAudioModeAsync ;;;
          let uri := getURI r in
          setRecording None ;;;
          setIsRecording false ;;;
          ret (inl (match uri with Some u => Some (JStr u) | None => null end))
      end
  end.

Definition stopRecording_catch (err : thrown) : M world (value + M world value) :=
  setIsRecording false ;;;
  ret (inl null).

(** [stopRecording]: a promise returned from the [try] block is outside the
    reach of the [catch]. *)
Definition stopRecording : M world value :=
  r <- try_catch stopRecording_try stopRecording_catch ;;
  match r with
  | inl v => ret v
  | inr promise => promise
  end.

(** *** checkPermissions *)

Definition checkPermissions_try : M world bool :=
  w <- gets (fun w => w) ;;
  match OS (env w) with
  | Web =>
      if negb (mediaDevices (env w)) then ret false
      else if insecure_origin (env w) then ret false
      else
        try_catch
          (s <- navigator_getUserMedia ;;
           stop_tracks s ;;;
           ret true)
          (fun _ => ret false)
  | Native =>
      st <- Audio_requestPermissionsAsync ;;
      ret (st =? "granted")
  end.

Definition checkPermissions : M world bool :=
  try_catch checkPermissions_try (fun _ => ret false).

(** The requests for the microphone [checkPermissions] makes: one, unless a
    browser has no media devices or an insecure origin. *)
Definition probe_requests (p : platform) : nat :=
  match OS p with
  | Web =>
      if negb (mediaDevices p) then 0
      else if insecure_origin p then 0
      else 1
  | Native => 1
  end.

(** *** Scripts *)

(** A browser on a secure origin with a working microphone. *)
Definition browser : platform :=
  {| OS := Web; mediaDevices := true; protocol := "https:"; hostname := "app.example";
     getUserMedia := fun _ => None; newMediaRecorder := None; start := None;
     dataavailable := ["OggS1"; ""; "OggS2"];
     createObjectURL := inr "blob:https://app.example/1";
     requestPermissionsAsync := fun _ => inr "granted"; setAudioModeAsync := None;
     createAsync := inr {| getURI := None |}; stopAndUnloadAsync := Unloads |}.

(** A phone that grants the microphone and stores the take. *)
Definition phone : platform :=
  {| OS := Native; mediaDevices := false; protocol := ""; hostname := "";
     getUserMedia := fun _ => None; newMediaRecorder := None; start := None;
     dataavailable := [];
     createObjectURL := inr "";
     requestPermissionsAsync := fun _ => inr "granted"; setAudioModeAsync := None;
     createAsync := inr {| getURI := Some "file:///cache/rec.m4a" |};
     stopAndUnloadAsync := Unloads |}.

(** The hook as [useState] and [useRef] initialise it. *)
Definition initial (p : platform) : world :=
  {| recording := None; isRecording := false;
     mediaRecorderRef := None; audioChunksRef := [];
     tracks := []; recorderLoaded := false; objectURLs := []; alerts := [];
     asked := 0; env := p |}.

(** A browser whose [URL.createObjectURL] throws. *)
Definition no_object_urls : platform :=
  {| OS := Web; mediaDevices := true; protocol := "https:"; hostname := "app.example";
     getUserMedia := fun _ => None; newMediaRecorder := None; start := None;
     dataavailable := ["OggS1"; ""; "OggS2"];
     createObjectURL :=
       inl (ErrorObj "TypeError" "URL.createObjectURL is not a function");
     requestPermissionsAsync := fun _ => inr "granted"; setAudioModeAsync := None;
     createAsync := inr {| getURI := None |}; stopAndUnloadAsync := Unloads |}.

(** A phone whose recorder fails to stop and stays loaded. *)
Definition stuck_phone : platform :=
  {| OS := Native; mediaDevices := false; protocol := ""; hostname := "";
     getUserMedia := fun _ => None; newMediaRecorder := None; start := None;
     dataavailable := [];
     createObjectURL := inr "";
     requestPermissionsAsync := fun _ => inr "granted"; setAudioModeAsync := None;
     createAsync := inr {| getURI := Some "file:///cache/rec.m4a" |};
     stopAndUnloadAsync :=
       RejectsLoaded (ErrorObj "Error" "Stop encountered an error: recording not stopped") |}.

(** A phone whose user refuses the microphone. *)
Definition denied_phone : platform :=
  {| OS := Native; mediaDevices := false; protocol := ""; hostname := "";
     getUserMedia := fun _ => None; newMediaRecorder := None; start := None;
     dataavailable := [];
     createObjectURL := inr "";
     requestPermissionsAsync := fun _ => inr "denied"; setAudioModeAsync := None;
     createAsync := inr {| getURI := Some "file:///cache/rec.m4a" |};
     stopAndUnloadAsync := Unloads |}.

(** The world [w] with one more alert shown. *)
Definition shown (a : alert) (w : world) : world :=
  {| recording := recording w; isRecording := isRecording w;
     mediaRecorderRef := mediaRecorderRef w; audioChunksRef := audioChunksRef w;
     tracks := tracks w; recorderLoaded := recorderLoaded w;
     objectURLs := objectURLs w; alerts := a :: alerts w;
     asked := asked w; env := env w |}.

Definition with_env (p : platform) (w : world) : world :=
  {| recording := recording w; isRecording := isRecording w;
     mediaRecorderRef := mediaRecorderRef w; audioChunksRef := audioChunksRef w;
     tracks := tracks w; recorderLoaded := recorderLoaded w;
     objectURLs := objectURLs w; alerts := alerts w;
     asked := asked w; env := p |}.

End AudioRecording.

(* ================================================================== *)
(** * app/index.tsx: the begin, reset and tick actions of the screen   *)
(* ================================================================== *)

Module Screen.

(** The screen's own React state and the recording hook it uses.  Alerts go
    to the one [Alert] module of the platform, kept in the hook's world. *)
Record world : Type := {
  isRecording : bool;
  recordingDuration : Z;
  transcribedText : string;
  summary : string;
  fadeAnim : Z;
  adapter : AudioRecording.world
}.

Definition setIsRecording (b : bool) : M world unit :=
  modify (fun w =>
    {| isRecording := b; recordingDuration := recordingDuration w;
       transcribedText := transcribedText w; summary := summary w;
       fadeAnim := fadeAnim w; adapter := adapter w |}).

Definition setRecordingDuration (f : Z -> Z) : M world unit :=
  modify (fun w =>
    {| isRecording := isRecording w; recordingDuration := f (recordingDuration w);
       transcribedText := transcribedText w; summary := summary w;
       fadeAnim := fadeAnim w; adapter := adapter w |}).

Definition setTranscribedText (t : string) : M world unit :=
  modify (fun w =>
    {| isRecording := isRecording w; recordingDuration := recordingDuration w;
       transcribedText := t; summary := summary w;
       fadeAnim := fadeAnim w; adapter := adapter w |}).

Definition setSummary (t : string) : M world unit :=
  modify (fun w =>
    {| isRecording := isRecording w; recordingDuration := recordingDuration w;
       transcribedText := transcribedText w; summary := t;
       fadeAnim := fadeAnim w; adapter := adapter w |}).

Definition fadeAnim_setValue (v : Z) : M world unit :=
  modify (fun w =>
    {| isRecording := isRecording w; recordingDuration := recordingDuration w;
       transcribedText := transcribedText w; summary := summary w;
       fadeAnim := v; adapter := adapter w |}).

(** A call into the recording hook. *)
Definition hook {A} (m : M AudioRecording.world A) : M world A :=
  fun w =>
    let (r, a) := m (adapter w) in
    (r, {| isRecording := isRecording w; recordingDuration := recordingDuration w;
           transcribedText := transcribedText w; summary := summary w;
           fadeAnim := fadeAnim w; adapter := a |}).

Definition permission_required : AudioRecording.alert :=
  {| AudioRecording.title := "Permission Required";
     AudioRecording.message :=
       "Microphone access is required to record audio. Please allow microphone access in your browser settings and try again.";
     AudioRecording.buttons :=
       [ {| AudioRecording.label := "OK"; AudioRecording.onPress := None |};
         {| AudioRecording.label := "Retry";
            AudioRecording.onPress := Some AudioRecording.RetryStart |} ] |}.

Definition recording_error (errorMessage : string) : AudioRecording.alert :=
  {| AudioRecording.title := "Recording Error";
     AudioRecording.message := errorMessage;
     AudioRecording.buttons := [] |}.

Definition handleStartRecording_try : M world unit :=
  hasPermission <- hook AudioRecording.checkPermissions ;;
  if negb hasPermission then
    hook (AudioRecording.Alert permission_required)
  else
    hook AudioRecording.startRecording ;;;
    setIsRecording true ;;;
    setRecordingDuration (fun _ => 0%Z) ;;;
    setTranscribedText "" ;;;
    setSummary "" ;;;
    fadeAnim_setValue 0.

Definition handleStartRecording_catch (error : thrown) : M world unit :=
  hook (AudioRecording.Alert
          (recording_error
             (message_or "Failed to start recording. Please check permissions." error))).

Definition handleStartRecording : M world unit :=
  try_catch handleStartRecording_try handleStartRecording_catch.

(** Pressing a button of an alert runs its [onPress]. *)
Definition press (b : AudioRecording.button) : M world unit :=
  match AudioRecording.onPress b with
  | Some AudioRecording.RetryStart => handleStartRecording
  | None => ret tt
  end.

Definition handleReset : M world unit :=
  setTranscribedText "" ;;;
  setSummary "" ;;;
  setRecordingDuration (fun _ => 0%Z) ;;;
  fadeAnim_setValue 0.

(** The callback of the one-second interval that runs while recording. *)
Definition tick : M world unit := setRecordingDuration (fun prev => (prev + 1)%Z).

(** The screen [w] with one more alert shown and nothing else changed. *)
Definition shown (a : AudioRecording.alert) (w : world) : world :=
  {| isRecording := isRecording w; recordingDuration := recordingDuration w;
     transcribedText := transcribedText w; summary := summary w;
     fadeAnim := fadeAnim w; adapter := AudioRecording.shown a (adapter w) |}.

(** The screen [w] once the platform has answered [n] more requests for the
    microphone. *)
Definition answered (n : nat) (w : world) : world :=
  {| isRecording := isRecording w; recordingDuration := recordingDuration w;
     transcribedText := transcribedText w; summary := summary w;
     fadeAnim := fadeAnim w; adapter := AudioRecording.answered n (adapter w) |}.

Definition retry_button : AudioRecording.button :=
  {| AudioRecording.label := "Retry";
     AudioRecording.onPress := Some AudioRecording.RetryStart |}.

(** The screen as first rendered over a hook in the world [a]. *)
Definition mounted (a : AudioRecording.world) : world :=
  {| isRecording := false; recordingDuration := 0; transcribedText := "";
     summary := ""; fadeAnim := 0; adapter := a |}.

End Screen.

(* ================================================================== *)
(** * The recordings server: models/Recording.js and the two routes    *)
(* ================================================================== *)

Module Server.

(** A stored document of [RecordingSchema]; [createdAt] in milliseconds. *)
Record Recording : Type := {
  id : string;
  transcription : string;
  summary : string;
  createdAt : Z
}.

(** The collection in insertion order, and whether the database answers. *)
Record store : Type := {
  collection : list Recording;
  connected : bool
}.

Inductive reply_body : Type :=
| Document (d : Recording)
| Documents (l : list Recording)
| ErrorBody (msg : string).

(** [res.status(code).json(body)] *)
Record reply : Type := { code : Z; sent_json : reply_body }.

Definition insert_doc (d : Recording) : M store unit :=
  modify (fun s => {| collection := (collection s ++ [d])%list; connected := connected s |}).

(** Insertion into a list sorted by [createdAt], newest first; the document
    goes in front of those of the same instant. *)
Fixpoint insert_desc (d : Recording) (l : list Recording) : list Recording :=
  match l with
  | [] => [d]
  | x :: rest =>
      if (createdAt x <=? createdAt d)%Z then d :: x :: rest
      else x :: insert_desc d rest
  end.

(** [.sort({ createdAt: -1 })]: newest first; documents of the same instant
    keep the order in which they were inserted (the database promises no
    order among them, and this is the one that does not favour a new
    document). *)
Definition sort_desc (l : list Recording) : list Recording :=
  fold_right insert_desc [] l.

Definition limit : nat := 100.

Definition required_error : string := "transcription and summary are required".

Section Routes.

(** The caster of a [type: String] path of the schema (mongoose's, outside
    this repository): the text a JSON value is stored as, or [None] when the
    value cannot be cast and validation fails. *)
Variable castString : json -> option string.

(** A [required] path of type [String]: an absent value fails validation. *)
Definition cast_required (v : value) : option string :=
  match v with
  | Some j => castString j
  | None => None
  end.

(** [await Recording.create({ transcription, summary })] at the instant
    [now] ([createdAt] defaults to [Date.now]), the database naming the
    document [oid]. *)
Definition create (now : Z) (oid : string) (t s : value) : M store Recording :=
  st <- gets (fun st => st) ;;
  match cast_required t, cast_required s with
  | Some t', Some s' =>
      if connected st then
        let doc := {| id := oid; transcription := t'; summary := s'; createdAt := now |} in
        insert_doc doc ;;;
        ret doc
      else throw (ErrorObj "MongooseError" "buffering timed out")
  | _, _ => throw (ErrorObj "ValidationError" "Recording validation failed")
  end.

(** [app.post('/api/recordings', ...)] for the parsed body [body]. *)
Definition post_try (now : Z) (oid : string) (body : value) : M store reply :=
  transcription <- lift (get body "transcription") ;;
  summary <- lift (get body "summary") ;;
  if negb (truthy transcription) || negb (truthy summary) then
    ret {| code := 400; sent_json := ErrorBody required_error |}
  else
    doc <- create now oid transcription summary ;;
    ret {| code := 201; sent_json := Document doc |}.

Definition post (now : Z) (oid : string) (body : value) : M store reply :=
  try_catch (post_try now oid body)
    (fun _ => ret {| code := 500; sent_json := ErrorBody "Failed to save recording" |}).

End Routes.

(** [app.get('/api/recordings', ...)] *)
Definition list_try : M store reply :=
  st <- gets (fun st => st) ;;
  if connected st then
    ret {| code := 200;
           sent_json := Documents (firstn limit (sort_desc (collection st))) |}
  else throw (ErrorObj "MongooseError" "buffering timed out").

Definition list_recordings : M store reply :=
  try_catch list_try
    (fun _ => ret {| code := 500; sent_json := ErrorBody "Failed to fetch recordings" |}).

(** A caster that stores a string as it is, prints numbers and booleans and
    refuses the rest. *)
Definition castText (j : json) : option string :=
  match j with
  | JStr s => Some s
  | JNum n => Some (decimal n)
  | JBool true => Some "true"
  | JBool false => Some "false"
  | _ => None
  end.

(** The write of the round trip. *)
Definition write (t s : string) : value :=
  Some (JObj [("transcription", JStr t); ("summary", JStr s)]).

(** Newest first. *)
Definition newest_first (l : list Recording) : Prop :=
  StronglySorted (fun a b => (createdAt b <= createdAt a)%Z) l.

(** Every stored document is older than the instant [now]. *)
Definition all_before (now : Z) (st : store) : bool :=
  forallb (fun d => (createdAt d <? now)%Z) (collection st).

(** A store with two earlier recordings. *)
Definition two_memos : store :=
  {| collection :=
       [ {| id := "65a1"; transcription := "buy milk"; summary := "Shopping.";
            createdAt := 1700000000000 |};
         {| id := "65a2"; transcription := "call the bank"; summary := "Errand.";
            createdAt := 1700000600000 |} ];
     connected := true |}.

End Server.

(* ================================================================== *)
(** * app/index.tsx: the elapsed-time display                          *)
(* ================================================================== *)

Module Display.

Fixpoint zeros (n : nat) : string :=
  match n with
  | O => ""
  | S n' => String "0" (zeros n')
  end.

(** [s.padStart(target, '0')] *)
Definition padStart (target : nat) (s : string) : string :=
  zeros (target - String.length s) ++ s.

(** [formatDuration]: [Math.floor(seconds / 60)] is the floor quotient,
    [seconds % 60] the remainder with the sign of [seconds]. *)
Definition formatDuration (seconds : Z) : string :=
  let mins := (seconds / 60)%Z in
  let secs := Z.rem seconds 60 in
  padStart 2 (decimal mins) ++ ":" ++ padStart 2 (decimal secs).

(** The text before the first colon and the text after it. *)
Fixpoint split_colon (s : string) : string * string :=
  match s with
  | EmptyString => ("", "")
  | String c rest =>
      if (c =? ":")%char then ("", rest)
      else let (a, b) := split_colon rest in (String c a, b)
  end.

Fixpoint no_colon (s : string) : bool :=
  match s with
  | EmptyString => true
  | String c rest => negb (c =? ":")%char && no_colon rest
  end.

(** The number a field of the display stands for. *)
Definition field_value (s : string) : option Z :=
  option_map Z.of_uint (NilEmpty.uint_of_string s).

(** The seconds a display stands for. *)
Definition seconds_shown (s : string) : option Z :=
  let (m, r) := split_colon s in
  match field_value m, field_value r with
  | Some mins, Some secs => Some (60 * mins + secs)%Z
  | _, _ => None
  end.

End Display.

(* ================================================================== *)
(** * app/index.tsx: the stop action over the three hooks              *)
(* ================================================================== *)

Module Session.

(** The state of the whole component: the screen's own state (the two
    texts as the values the handlers put there), the recording hook, the
    flags and errors of the transcription and summary hooks, and the one
    network both of them fetch from. *)
Record world : Type := {
  isRecording : bool;
  recordingDuration : Z;
  transcribedText : value;
  summary : value;
  fadeAnim : Z;
  adapter : AudioRecording.world;
  isTranscribing : bool;
  transcribeError : option string;
  isGeneratingSummary : bool;
  summaryError : option string;
  wire : net
}.

Definition setIsRecording (b : bool) : M world unit :=
  modify (fun w =>
    {| isRecording := b; recordingDuration := recordingDuration w;
       transcribedText := transcribedText w; summary := summary w;
       fadeAnim := fadeAnim w; adapter := adapter w;
       isTranscribing := isTranscribing w; transcribeError := transcribeError w;
       isGeneratingSummary := isGeneratingSummary w; summaryError := summaryError w;
       wire := wire w |}).

Definition setTranscribedText (t : value) : M world unit :=
  modify (fun w =>
    {| isRecording := isRecording w; recordingDuration := recordingDuration w;
       transcribedText := t; summary := summary w;
       fadeAnim := fadeAnim w; adapter := adapter w;
       isTranscribing := isTranscribing w; transcribeError := transcribeError w;
       isGeneratingSummary := isGeneratingSummary w; summaryError := summaryError w;
       wire := wire w |}).

Definition setSummary (t : value) : M world unit :=
  modify (fun w =>
    {| isRecording := isRecording w; recordingDuration := recordingDuration w;
       transcribedText := transcribedText w; summary := t;
       fadeAnim := fadeAnim w; adapter := adapter w;
       isTranscribing := isTranscribing w; transcribeError := transcribeError w;
       isGeneratingSummary := isGeneratingSummary w; summaryError := summaryError w;
       wire := wire w |}).

(** A call into the recording hook. *)
Definition hook {A} (m : M AudioRecording.world A) : M world A :=
  fun w =>
    let (r, a) := m (adapter w) in
    (r, {| isRecording := isRecording w; recordingDuration := recordingDuration w;
           transcribedText := transcribedText w; summary := summary w;
           fadeAnim := fadeAnim w; adapter := a;
           isTranscribing := isTranscribing w; transcribeError := transcribeError w;
           isGeneratingSummary := isGeneratingSummary w;
           summaryError := summaryError w; wire := wire w |}).

(** The transcription hook as the component holds it. *)
Definition speech_of (w : world) : SpeechToText.world :=
  {| SpeechToText.isTranscribing := isTranscribing w;
     SpeechToText.error := transcribeError w;
     SpeechToText.wire := wire w |}.

(** A call into the transcription hook. *)
Definition speech {A} (m : M SpeechToText.world A) : M world A :=
  fun w =>
    let (r, s) := m (speech_of w) in
    (r, {| isRecording := isRecording w; recordingDuration := recordingDuration w;
           transcribedText := transcribedText w; summary := summary w;
           fadeAnim := fadeAnim w; adapter := adapter w;
           isTranscribing := SpeechToText.isTranscribing s;
           transcribeError := SpeechToText.error s;
           isGeneratingSummary := isGeneratingSummary w;
           summaryError := summaryError w; wire := SpeechToText.wire s |}).

(** The summary hook as the component holds it. *)
Definition summarizer_of (w : world) : Summary.world :=
  {| Summary.isGeneratingSummary := isGeneratingSummary w;
     Summary.error := summaryError w;
     Summary.wire := wire w |}.

(** A call into the summary hook. *)
Definition summarizer {A} (m : M Summary.world A) : M world A :=
  fun w =>
    let (r, s) := m (summarizer_of w) in
    (r, {| isRecording := isRecording w; recordingDuration := recordingDuration w;
           transcribedText := transcribedText w; summary := summary w;
           fadeAnim := fadeAnim w; adapter := adapter w;
           isTranscribing := isTranscribing w; transcribeError := transcribeError w;
           isGeneratingSummary := Summary.isGeneratingSummary s;
           summaryError := Summary.error s; wire := Summary.wire s |}).

(** [Alert.alert('Error', message)] *)
Definition error_alert (message : string) : AudioRecording.alert :=
  {| AudioRecording.title := "Error";
     AudioRecording.message := message;
     AudioRecording.buttons := [] |}.

(** [const isProcessing = isTranscribing || isGeneratingSummary] *)
Definition isProcessing (w : world) : bool :=
  isTranscribing w || isGeneratingSummary w.

Section Keys.

Variable speech_key : string.
Variable summary_key : string.

(** The [try] block of [handleStopRecording].  The reference and the text
    are passed on as JavaScript passes them: [fetch] and the template
    literal of the prompt turn them into text. *)
Definition handleStopRecording_try (fuel : nat) : M world unit :=
  setIsRecording false ;;;
  audioUri <- hook AudioRecording.stopRecording ;;
  if negb (truthy audioUri) then
    hook (AudioRecording.Alert (error_alert "No audio recorded"))
  else
    text <- speech (SpeechToText.transcribe speech_key fuel (show audioUri)) ;;
    if negb (truthy text) then
      hook (AudioRecording.Alert (error_alert "Failed to transcribe audio"))
    else
      setTranscribedText text ;;;
      summaryText <- summarizer (Summary.generateSummary summary_key (show text)) ;;
      setSummary summaryText.

Definition handleStopRecording_catch (error : thrown) : M world unit :=
  hook (AudioRecording.Alert (error_alert "Failed to process recording")).

Definition handleStopRecording (fuel : nat) : M world unit :=
  try_catch (handleStopRecording_try fuel) handleStopRecording_catch.

End Keys.

(** The component over the screen [s], its hooks at rest, facing the
    network [n]. *)
Definition of_screen (s : Screen.world) (n : net) : world :=
  {| isRecording := Screen.isRecording s;
     recordingDuration := Screen.recordingDuration s;
     transcribedText := Some (JStr (Screen.transcribedText s));
     summary := Some (JStr (Screen.summary s));
     fadeAnim := Screen.fadeAnim s;
     adapter := Screen.adapter s;
     isTranscribing := false; transcribeError := None;
     isGeneratingSummary := false; summaryError := None;
     wire := n |}.

(** The alerts shown so far, newest first. *)
Definition alerts (w : world) : list AudioRecording.alert :=
  AudioRecording.alerts (adapter w).

(** No summary is on show without its transcript. *)
Definition summary_has_transcript (w : world) : Prop :=
  truthy (summary w) = true -> truthy (transcribedText w) = true.

(** The component after [setIsRecording(false)] and a stop that left the
    recording hook in [a]. *)
Definition stopped (a : AudioRecording.world) (w : world) : world :=
  {| isRecording := false; recordingDuration := recordingDuration w;
     transcribedText := transcribedText w; summary := summary w;
     fadeAnim := fadeAnim w; adapter := a;
     isTranscribing := isTranscribing w; transcribeError := transcribeError w;
     isGeneratingSummary := isGeneratingSummary w; summaryError := summaryError w;
     wire := wire w |}.

(** The component after a call that left the transcription hook in [s]. *)
Definition transcribed (s : SpeechToText.world) (w : world) : world :=
  {| isRecording := isRecording w; recordingDuration := recordingDuration w;
     transcribedText := transcribedText w; summary := summary w;
     fadeAnim := fadeAnim w; adapter := adapter w;
     isTranscribing := SpeechToText.isTranscribing s;
     transcribeError := SpeechToText.error s;
     isGeneratingSummary := isGeneratingSummary w; summaryError := summaryError w;
     wire := SpeechToText.wire s |}.

(** The component after a call that left the summary hook in [g]. *)
Definition summarized (g : Summary.world) (w : world) : world :=
  {| isRecording := isRecording w; recordingDuration := recordingDuration w;
     transcribedText := transcribedText w; summary := summary w;
     fadeAnim := fadeAnim w; adapter := adapter w;
     isTranscribing := isTranscribing w; transcribeError := transcribeError w;
     isGeneratingSummary := Summary.isGeneratingSummary g;
     summaryError := Summary.error g; wire := Summary.wire g |}.

(** The component with one more ["Error"] alert shown. *)
Definition alerted (msg : string) (w : world) : world :=
  {| isRecording := isRecording w; recordingDuration := recordingDuration w;
     transcribedText := transcribedText w; summary := summary w;
     fadeAnim := fadeAnim w;
     adapter := AudioRecording.shown (error_alert msg) (adapter w);
     isTranscribing := isTranscribing w; transcribeError := transcribeError w;
     isGeneratingSummary := isGeneratingSummary w; summaryError := summaryError w;
     wire := wire w |}.

(** The component showing the transcript [t] and the summary [v]. *)
Definition showing (t v : value) (w : world) : world :=
  {| isRecording := isRecording w; recordingDuration := recordingDuration w;
     transcribedText := t; summary := v;
     fadeAnim := fadeAnim w; adapter := adapter w;
     isTranscribing := isTranscribing w; transcribeError := transcribeError w;
     isGeneratingSummary := isGeneratingSummary w; summaryError := summaryError w;
     wire := wire w |}.

End Session.

(* ================================================================== *)
(** * Further scripts                                                  *)
(* ================================================================== *)

Module Scenarios.

(** A network that answers the scripted fetches and then [last]. *)
Definition network (l : list fetch_result) (last : fetch_result) : net :=
  {| answers := l; afterwards := last; events := [] |}.

(** A recording session on a phone: the take is read, uploaded, accepted as
    [queued], reported [completed] at the second poll, and summarised. *)
Definition memo_script : list fetch_result :=
  (SpeechToText.hello_script
   ++ [Summary.success (Summary.completion (JStr "A greeting."))])%list.

(** The same session with a summary service that answers 503. *)
Definition memo_script_no_summary : list fetch_result :=
  (SpeechToText.hello_script
   ++ [Responds {| ok := false; status := 503; body := "unavailable";
                   parsed := None |}])%list.

(** A session whose job completes without any text; the answer of the
    summary service is scripted behind it. *)
Definition silent_script : list fetch_result :=
  [ Responds {| ok := true; status := 200; body := "RIFF"; parsed := None |};
    Responds (SpeechToText.answer (JObj [("upload_url", JStr "https://cdn/u1")]));
    Responds (SpeechToText.answer (SpeechToText.job "j1" "queued" []));
    Responds (SpeechToText.answer (SpeechToText.job "j1" "completed" []));
    Summary.success (Summary.completion (JStr "A greeting.")) ].

(** A browser whose [MediaRecorder] cannot be constructed. *)
Definition no_recorder : AudioRecording.platform :=
  {| AudioRecording.OS := AudioRecording.Web;
     AudioRecording.mediaDevices := true;
     AudioRecording.protocol := "https:";
     AudioRecording.hostname := "app.example";
     AudioRecording.getUserMedia := fun _ => None;
     AudioRecording.newMediaRecorder :=
       Some (ErrorObj "NotSupportedError" "mimeType is not supported");
     AudioRecording.start := None;
     AudioRecording.dataavailable := [];
     AudioRecording.createObjectURL := inr "blob:https://app.example/1";
     AudioRecording.requestPermissionsAsync := fun _ => inr "granted";
     AudioRecording.setAudioModeAsync := None;
     AudioRecording.createAsync := inr {| AudioRecording.getURI := None |};
     AudioRecording.stopAndUnloadAsync := AudioRecording.Unloads |}.

(** A browser whose user refuses the microphone. *)
Definition refusing_browser : AudioRecording.platform :=
  {| AudioRecording.OS := AudioRecording.Web;
     AudioRecording.mediaDevices := true;
     AudioRecording.protocol := "https:";
     AudioRecording.hostname := "app.example";
     AudioRecording.getUserMedia :=
       (fun _ => Some (ErrorObj "NotAllowedError" "Permission denied"));
     AudioRecording.newMediaRecorder := None;
     AudioRecording.start := None;
     AudioRecording.dataavailable := [];
     AudioRecording.createObjectURL := inr "blob:https://app.example/1";
     AudioRecording.requestPermissionsAsync := fun _ => inr "granted";
     AudioRecording.setAudioModeAsync := None;
     AudioRecording.createAsync := inr {| AudioRecording.getURI := None |};
     AudioRecording.stopAndUnloadAsync := AudioRecording.Unloads |}.

(** A phone whose audio mode cannot be set back after the take. *)
Definition mode_stuck_phone : AudioRecording.platform :=
  {| AudioRecording.OS := AudioRecording.Native;
     AudioRecording.mediaDevices := false;
     AudioRecording.protocol := ""; AudioRecording.hostname := "";
     AudioRecording.getUserMedia := fun _ => None;
     AudioRecording.newMediaRecorder := None;
     AudioRecording.start := None;
     AudioRecording.dataavailable := [];
     AudioRecording.createObjectURL := inr "";
     AudioRecording.requestPermissionsAsync := fun _ => inr "granted";
     AudioRecording.setAudioModeAsync :=
       Some (ErrorObj "Error" "audio session is busy");
     AudioRecording.createAsync :=
       inr {| AudioRecording.getURI := Some "file:///cache/rec.m4a" |};
     AudioRecording.stopAndUnloadAsync := AudioRecording.Unloads |}.

(** What makes an answer to a poll end the loop with a throw: the fetch is
    rejected, the body is not JSON, or the body is [null]. *)
Definition poll_error (a : fetch_result) : option thrown :=
  match a with
  | Rejects e => Some e
  | Responds r =>
      match json_of r with
      | inl e => Some e
      | inr td =>
          match get (Some td) "status" with
          | inl e => Some e
          | inr _ => None
          end
      end
  end.

(** The alert of [startRecording] on a phone without the permission. *)
Definition permission_denied : AudioRecording.alert :=
  {| AudioRecording.title := "Permission denied";
     AudioRecording.message := "Audio recording permission is required";
     AudioRecording.buttons := [] |}.

(** A browser on which every guard of [startRecording] passes and the
    stream is granted at the next request. *)
Definition web_ready (w : AudioRecording.world) : Prop :=
  let p := AudioRecording.env w in
  AudioRecording.OS p = AudioRecording.Web
  /\ AudioRecording.mediaDevices p = true
  /\ AudioRecording.insecure_origin p = false
  /\ AudioRecording.getUserMedia p (AudioRecording.asked w) = None.

(** The blobs [ondataavailable] keeps: those of positive size. *)
Definition kept (blobs : list string) : list string :=
  filter (fun b => (0 <? String.length b)%nat) blobs.

(** A phone on which the next request is granted and the take can be made
    and stored. *)
Definition phone_ready (w : AudioRecording.world) (r : AudioRecording.Recording) : Prop :=
  let p := AudioRecording.env w in
  AudioRecording.OS p = AudioRecording.Native
  /\ AudioRecording.requestPermissionsAsync p (AudioRecording.asked w) = inr "granted"
  /\ AudioRecording.setAudioModeAsync p = None
  /\ AudioRecording.createAsync p = inr r
  /\ AudioRecording.stopAndUnloadAsync p = AudioRecording.Unloads.

(** What makes [startRecording] fail in the world [w], step by step: the
    first step that throws, with what it throws. *)
Inductive start_failure (w : AudioRecording.world) : thrown -> Prop :=
| NoMediaDevices :
    AudioRecording.OS (AudioRecording.env w) = AudioRecording.Web ->
    AudioRecording.mediaDevices (AudioRecording.env w) = false ->
    start_failure w (Error "Media devices not supported in this browser")
| InsecureOrigin :
    AudioRecording.OS (AudioRecording.env w) = AudioRecording.Web ->
    AudioRecording.mediaDevices (AudioRecording.env w) = true ->
    AudioRecording.insecure_origin (AudioRecording.env w) = true ->
    start_failure w (Error "Microphone access requires HTTPS or localhost")
| StreamRefused cause :
    AudioRecording.OS (AudioRecording.env w) = AudioRecording.Web ->
    AudioRecording.mediaDevices (AudioRecording.env w) = true ->
    AudioRecording.insecure_origin (AudioRecording.env w) = false ->
    AudioRecording.getUserMedia (AudioRecording.env w) (AudioRecording.asked w)
      = Some cause ->
    start_failure w cause
| RecorderNotMade cause :
    web_ready w ->
    AudioRecording.newMediaRecorder (AudioRecording.env w) = Some cause ->
    start_failure w cause
| RecorderNotStarted cause :
    web_ready w ->
    AudioRecording.newMediaRecorder (AudioRecording.env w) = None ->
    AudioRecording.start (AudioRecording.env w) = Some cause ->
    start_failure w cause
| PermissionRequestFailed cause :
    AudioRecording.OS (AudioRecording.env w) = AudioRecording.Native ->
    AudioRecording.requestPermissionsAsync (AudioRecording.env w)
      (AudioRecording.asked w) = inl cause ->
    start_failure w cause
| AudioModeNotSet cause :
    AudioRecording.OS (AudioRecording.env w) = AudioRecording.Native ->
    AudioRecording.requestPermissionsAsync (AudioRecording.env w)
      (AudioRecording.asked w) = inr "granted" ->
    AudioRecording.setAudioModeAsync (AudioRecording.env w) = Some cause ->
    start_failure w cause
| RecordingNotCreated cause :
    AudioRecording.OS (AudioRecording.env w) = AudioRecording.Native ->
    AudioRecording.requestPermissionsAsync (AudioRecording.env w)
      (AudioRecording.asked w) = inr "granted" ->
    AudioRecording.setAudioModeAsync (AudioRecording.env w) = None ->
    AudioRecording.createAsync (AudioRecording.env w) = inl cause ->
    start_failure w cause.

(** The screen over the phone of the scripts once the begin action has run:
    the probe and the start have each been granted their request, the
    recorder is loaded and the hook keeps the recording. *)
Definition recording_phone : Screen.world :=
  {| Screen.isRecording := true; Screen.recordingDuration := 0;
     Screen.transcribedText := ""; Screen.summary := ""; Screen.fadeAnim := 0;
     Screen.adapter :=
       {| AudioRecording.recording :=
            Some {| AudioRecording.getURI := Some "file:///cache/rec.m4a" |};
          AudioRecording.isRecording := true;
          AudioRecording.mediaRecorderRef := None;
          AudioRecording.audioChunksRef := [];
          AudioRecording.tracks := [];
          AudioRecording.recorderLoaded := true;
          AudioRecording.objectURLs := [];
          AudioRecording.alerts := [];
          AudioRecording.asked := 2;
          AudioRecording.env := AudioRecording.phone |} |}.

(** A phone whose user grants the microphone to the first request and
    withdraws it before the second. *)
Definition revoking_phone : AudioRecording.platform :=
  {| AudioRecording.OS := AudioRecording.Native;
     AudioRecording.mediaDevices := false;
     AudioRecording.protocol := ""; AudioRecording.hostname := "";
     AudioRecording.getUserMedia := fun _ => None;
     AudioRecording.newMediaRecorder := None;
     AudioRecording.start := None;
     AudioRecording.dataavailable := [];
     AudioRecording.createObjectURL := inr "";
     AudioRecording.requestPermissionsAsync :=
       (fun n => match n with O => inr "granted" | S _ => inr "denied" end);
     AudioRecording.setAudioModeAsync := None;
     AudioRecording.createAsync :=
       inr {| AudioRecording.getURI := Some "file:///cache/rec.m4a" |};
     AudioRecording.stopAndUnloadAsync := AudioRecording.Unloads |}.

(** A browser whose microphone is taken by another application between the
    first request and the second. *)
Definition revoking_browser : AudioRecording.platform :=
  {| AudioRecording.OS := AudioRecording.Web;
     AudioRecording.mediaDevices := true;
     AudioRecording.protocol := "https:";
     AudioRecording.hostname := "app.example";
     AudioRecording.getUserMedia :=
       (fun n => match n with
                 | O => None
                 | S _ => Some (ErrorObj "NotReadableError" "Could not start audio source")
                 end);
     AudioRecording.newMediaRecorder := None;
     AudioRecording.start := None;
     AudioRecording.dataavailable := [];
     AudioRecording.createObjectURL := inr "blob:https://app.example/1";
     AudioRecording.requestPermissionsAsync := fun _ => inr "granted";
     AudioRecording.setAudioModeAsync := None;
     AudioRecording.createAsync := inr {| AudioRecording.getURI := None |};
     AudioRecording.stopAndUnloadAsync := AudioRecording.Unloads |}.

(** A browser whose recorder is constructed and then refuses to start. *)
Definition no_start : AudioRecording.platform :=
  {| AudioRecording.OS := AudioRecording.Web;
     AudioRecording.mediaDevices := true;
     AudioRecording.protocol := "https:";
     AudioRecording.hostname := "app.example";
     AudioRecording.getUserMedia := fun _ => None;
     AudioRecording.newMediaRecorder := None;
     AudioRecording.start :=
       Some (ErrorObj "NotSupportedError" "The stream cannot be recorded");
     AudioRecording.dataavailable := [];
     AudioRecording.createObjectURL := inr "blob:https://app.example/1";
     AudioRecording.requestPermissionsAsync := fun _ => inr "granted";
     AudioRecording.setAudioModeAsync := None;
     AudioRecording.createAsync := inr {| AudioRecording.getURI := None |};
     AudioRecording.stopAndUnloadAsync := AudioRecording.Unloads |}.

(** The collection is in the order of its instants, no two alike: what
    writes at ever later instants produce. *)
Definition chronological (st : Server.store) : Prop :=
  StronglySorted (fun a b => (Server.createdAt a < Server.createdAt b)%Z)
                 (Server.collection st).

(** The memos of [two_memos] behind a database that does not answer. *)
Definition unplugged : Server.store :=
  {| Server.collection := Server.collection Server.two_memos;
     Server.connected := false |}.

End Scenarios.

(* ================================================================== *)
(** * Properties of the transcription hook *)
(* ================================================================== *)

Module TranscribeProofs.
Import SpeechToText.

#[local] Arguments get : simpl never.
#[local] Arguments terminal : simpl never.
#[local] Arguments show : simpl never.
#[local] Arguments decimal : simpl never.
#[local] Arguments poll_request : simpl never.

Section Client.
Variable api_key : string.

Lemma waiting_reads (td : json) :
  waiting td = true ->
  exists st, get (Some td) "status" = inr st /\ terminal st = false.
Proof.
  unfold waiting. destruct (get (Some td) "status") as [e|st]; [discriminate|].
  intros H. exists st. split; [reflexivity|].
  now apply negb_true_iff.
Qed.

(** The loop walks through the answers that keep it waiting and stops at the
    first terminal one, a wait before every request. *)
Lemma poll_until_terminal (pre : list response) :
  forall (fin : response) (tdf : json) (fuel : nat) (data td : json) (id : value)
         (w : world) (rest : list fetch_result),
    get (Some data) "id" = inr id ->
    waiting td = true ->
    forallb waiting_answer pre = true ->
    parsed fin = Some tdf ->
    terminal (status_of tdf) = true ->
    answers (wire w) = (map Responds (pre ++ [fin]) ++ rest)%list ->
    (List.length pre < fuel)%nat ->
    poll api_key fuel data td w =
      (Ret tdf,
       on_wire w {| answers := rest; afterwards := afterwards (wire w);
                    events := (rev (cycles api_key id (S (List.length pre)))
                               ++ events (wire w))%list |}).
Proof.
  induction pre as [|r pre IH]; intros fin tdf fuel data td id w rest Hid Hw Hpre Hfin Hterm Hans Hfuel.
  - destruct fuel as [|fuel]; [simpl in Hfuel; lia|].
    destruct (waiting_reads td Hw) as [st [Hst Hnt]].
    destruct w as [it er [ans aft evs]]; simpl in Hans; subst ans.
    simpl. unfold bind, lift. rewrite Hst. simpl. rewrite Hnt. simpl.
    rewrite Hid. simpl. unfold fetch. simpl.
    unfold json_of. rewrite Hfin. simpl.
    destruct fuel.
    all: simpl; unfold bind, lift.
    all: unfold status_of in Hterm.
    all: destruct (get (Some tdf) "status") as [e|stf] eqn:Hs; [discriminate Hterm|].
    all: simpl; rewrite Hterm; reflexivity.
  - destruct fuel as [|fuel]; [simpl in Hfuel; lia|].
    destruct (waiting_reads td Hw) as [st [Hst Hnt]].
    simpl in Hpre. apply andb_true_iff in Hpre. destruct Hpre as [Hr Hpre].
    unfold waiting_answer in Hr. destruct (parsed r) as [tdr|] eqn:Hpr; [|discriminate].
    destruct w as [it er [ans aft evs]]; simpl in Hans; subst ans.
    simpl. unfold bind at 1, lift at 1. rewrite Hst. simpl. rewrite Hnt.
    unfold bind, lift, sleep, modify. simpl. rewrite Hid. simpl.
    unfold fetch. simpl. unfold json_of. rewrite Hpr. simpl.
    rewrite (IH fin tdf fuel data tdr id _ rest Hid Hr Hpre Hfin Hterm).
    + unfold on_wire. simpl. unfold cycles. simpl.
      repeat rewrite <- app_assoc. reflexivity.
    + reflexivity.
    + simpl in Hfuel. lia.
Qed.


(** A body whose status reads is not [null]: its other fields read too. *)
Lemma get_after_status (td : json) (st : value) (k : string) :
  get (Some td) "status" = inr st ->
  get (Some td) k = inr (get_opt (Some td) k).
Proof. destruct td; unfold get; simpl; intros H; try reflexivity; discriminate. Qed.

Lemma terminal_reads (td : json) :
  terminal (status_of td) = true ->
  get (Some td) "status" = inr (status_of td).
Proof.
  unfold status_of. destruct (get (Some td) "status"); [discriminate|reflexivity].
Qed.

(** The [try] block on a script whose job reaches a terminal status after
    [pre] waiting answers. *)
Lemma try_reaches_terminal (fuel : nat) (uri : string) (w : world)
    (blob upload submit : response) (audioUrl : value) (data : json)
    (pre : list response) (fin : response) (tdf : json)
    (rest : list fetch_result) :
  answers (wire w) =
    (map Responds (blob :: upload :: submit :: pre ++ [fin]) ++ rest)%list ->
  uploaded upload = Some audioUrl ->
  submitted submit = Some data ->
  waiting data = true ->
  forallb waiting_answer pre = true ->
  parsed fin = Some tdf ->
  terminal (status_of tdf) = true ->
  (List.length pre < fuel)%nat ->
  transcribe_try api_key fuel uri w =
    let w' := after_polls api_key uri (body blob) audioUrl (get_opt (Some data) "id")
                (S (List.length pre)) rest w in
    if is_string "error" (status_of tdf)
    then (Throw (TranscriptionFailed (show (get_opt (Some tdf) "error"))), w')
    else (Ret (get_opt (Some tdf) "text"), done w').
Proof.
  intros Hans Hup Hsub Hw Hpre Hfin Hterm Hfuel.
  destruct (waiting_reads data Hw) as [st [Hst Hnt]].
  pose proof (get_after_status data st "id" Hst) as Hid.
  unfold uploaded in Hup. destruct (ok upload) eqn:Hok; [|discriminate].
  destruct (parsed upload) as [ud|] eqn:Hpu; [|discriminate].
  destruct (get (Some ud) "upload_url") as [e|u] eqn:Hu; [discriminate|].
  injection Hup as ->.
  unfold submitted in Hsub. destruct (ok submit) eqn:Hok2; [|discriminate].
  destruct w as [it er [ans aft evs]]; simpl in Hans; subst ans.
  unfold transcribe_try, bind, setIsTranscribing, setError, modify, fetch. simpl.
  rewrite Hok. simpl. unfold lift, json_of. rewrite Hpu. simpl. rewrite Hu. simpl.
  rewrite Hok2. simpl. rewrite Hsub. simpl.
  erewrite (poll_until_terminal pre fin tdf fuel data data _ _ rest Hid Hw Hpre Hfin Hterm);
    [|reflexivity|exact Hfuel].
  simpl. pose proof (terminal_reads tdf Hterm) as Hs. rewrite Hs. simpl.
  unfold after_polls, done, on_wire. simpl.
  destruct (is_string "error" (status_of tdf)).
  - rewrite (get_after_status tdf _ "error" Hs). reflexivity.
  - simpl. rewrite (get_after_status tdf _ "text" Hs). reflexivity.
Qed.

(** What [transcribe] makes of the outcome of its [try] block. *)
Lemma transcribe_of_try (fuel : nat) (uri : string) (w : world) :
  transcribe api_key fuel uri w =
    match transcribe_try api_key fuel uri w with
    | (Ret v, w') => (Ret v, w')
    | (Throw e, w') => (Ret null, failed (message_or "Transcription failed" e) w')
    | (Pending, w') => (Pending, w')
    end.
Proof.
  unfold transcribe, try_catch.
  destruct (transcribe_try api_key fuel uri w) as [[v|e|] w']; reflexivity.
Qed.


(** The loop touches neither flag of the hook; it returns only a body with a
    terminal status, and it is pending only when the fuel is spent, one poll
    for each unit of it. *)
Lemma poll_frame (fuel : nat) :
  forall (data td : json) (w : world),
    let (r, w') := poll api_key fuel data td w in
    isTranscribing w' = isTranscribing w /\ error w' = error w /\
    match r with
    | Ret tdf => terminal (status_of tdf) = true
    | Throw _ => True
    | Pending => made w' = (fuel + made w)%nat
    end.
Proof.
  induction fuel as [|fuel IH]; intros data td w.
  - simpl. unfold bind, lift.
    destruct (get (Some td) "status") as [e|st] eqn:Hs; simpl.
    + auto.
    + destruct (terminal st) eqn:Ht; simpl.
      * repeat split. unfold status_of. rewrite Hs. exact Ht.
      * auto.
  - simpl. unfold bind at 1, lift at 1.
    destruct (get (Some td) "status") as [e|st] eqn:Hs; simpl.
    + auto.
    + destruct (terminal st) eqn:Ht; simpl.
      * repeat split. unfold status_of. rewrite Hs. exact Ht.
      * unfold bind, sleep, modify, lift. simpl.
        destruct (get (Some data) "id") as [e|id]; simpl; [auto|].
        unfold fetch. simpl.
        destruct (next_answer (wait_net poll_interval (wire w))) as [r|e]; simpl; [|auto].
        destruct (json_of r) as [e|next]; simpl; [auto|].
        match goal with |- context [poll api_key fuel data next ?w1] =>
          specialize (IH data next w1); destruct (poll api_key fuel data next w1) as [r' w']
        end.
        simpl in IH. destruct IH as [H1 [H2 H3]].
        repeat split; [exact H1|exact H2|].
        destruct r' as [tdf|e|]; [exact H3|exact I|].
        rewrite H3. unfold made. simpl. lia.
Qed.

(** The [try] block returns only the text of a completed job, with the
    flag cleared; it is pending only when the loop is. *)
Lemma try_frame (fuel : nat) (uri : string) (w : world) :
  let (r, w') := transcribe_try api_key fuel uri w in
  match r with
  | Ret v =>
      isTranscribing w' = false /\ error w' = None /\
      exists td, is_string "completed" (status_of td) = true
                 /\ v = get_opt (Some td) "text"
  | Throw _ => True
  | Pending => made w' = (fuel + made w)%nat
  end.
Proof.
  unfold transcribe_try, bind, setIsTranscribing, setError, modify, fetch. simpl.
  destruct (next_answer (wire w)) as [blob|e]; simpl; [|exact I].
  match goal with |- context [next_answer ?n] => destruct (next_answer n) as [upload|e] end;
    simpl; [|exact I].
  destruct (ok upload); simpl; [|exact I].
  unfold lift. destruct (json_of upload) as [e|ud]; simpl; [exact I|].
  destruct (get (Some ud) "upload_url") as [e|u]; simpl; [exact I|].
  match goal with |- context [next_answer ?n] => destruct (next_answer n) as [submit|e] end;
    simpl; [|exact I].
  destruct (ok submit); simpl; [|exact I].
  destruct (json_of submit) as [e|data]; simpl; [exact I|].
  match goal with |- context [poll api_key fuel data data ?w1] =>
    pose proof (poll_frame fuel data data w1) as Hp;
    destruct (poll api_key fuel data data w1) as [r w']
  end.
  simpl in Hp. destruct Hp as [H1 [H2 H3]].
  destruct r as [tdf|e|]; simpl; [|exact I|].
  - pose proof (terminal_reads tdf H3) as Hs. rewrite Hs. simpl.
    destruct (is_string "error" (status_of tdf)) eqn:He; simpl.
    + rewrite (get_after_status tdf _ "error" Hs). exact I.
    + rewrite (get_after_status tdf _ "text" Hs). simpl.
      repeat split; [exact H2|].
      exists tdf. split; [|reflexivity].
      unfold terminal in H3. rewrite He in H3. rewrite orb_false_r in H3. exact H3.
  - rewrite H3. unfold made. simpl. reflexivity.
Qed.

(** The failure modes that end the [try] block before the loop. *)
Lemma blob_fetch_rejected (fuel : nat) (uri : string) (w : world) (e : thrown) :
  next_answer (wire w) = Rejects e ->
  transcribe_try api_key fuel uri w =
    (Throw e,
     {| isTranscribing := true; error := None;
        wire := snd (fetch_net (blob_request uri) (wire w)) |}).
Proof.
  intros H.
  unfold transcribe_try, bind, setIsTranscribing, setError, modify, fetch. simpl.
  rewrite H. reflexivity.
Qed.

Lemma upload_refused (fuel : nat) (uri : string) (w : world)
    (blob upload : response) (rest : list fetch_result) :
  answers (wire w) = Responds blob :: Responds upload :: rest ->
  ok upload = false ->
  transcribe_try api_key fuel uri w =
    (Throw (UploadFailed (body upload)),
     {| isTranscribing := true; error := None;
        wire := {| answers := rest; afterwards := afterwards (wire w);
                   events := Fetched (upload_request api_key (body blob))
                             :: Fetched (blob_request uri) :: events (wire w) |} |}).
Proof.
  intros Hans Hok.
  destruct w as [it er [ans aft evs]]; simpl in Hans; subst ans.
  unfold transcribe_try, bind, setIsTranscribing, setError, modify, fetch. simpl.
  rewrite Hok. reflexivity.
Qed.

Lemma submit_refused (fuel : nat) (uri : string) (w : world)
    (blob upload submit : response) (audioUrl : value) (rest : list fetch_result) :
  answers (wire w) = Responds blob :: Responds upload :: Responds submit :: rest ->
  uploaded upload = Some audioUrl ->
  ok submit = false ->
  transcribe_try api_key fuel uri w =
    (Throw (Error ("Transcription failed: " ++ decimal (status submit))),
     {| isTranscribing := true; error := None;
        wire := {| answers := rest; afterwards := afterwards (wire w);
                   events := Fetched (submit_request api_key audioUrl)
                             :: Fetched (upload_request api_key (body blob))
                             :: Fetched (blob_request uri) :: events (wire w) |} |}).
Proof.
  intros Hans Hup Hok2.
  unfold uploaded in Hup. destruct (ok upload) eqn:Hok; [|discriminate].
  destruct (parsed upload) as [ud|] eqn:Hpu; [|discriminate].
  destruct (get (Some ud) "upload_url") as [e|u] eqn:Hu; [discriminate|].
  injection Hup as ->.
  destruct w as [it er [ans aft evs]]; simpl in Hans; subst ans.
  unfold transcribe_try, bind, setIsTranscribing, setError, modify, fetch. simpl.
  rewrite Hok. simpl. unfold lift, json_of. rewrite Hpu. simpl. rewrite Hu. simpl.
  rewrite Hok2. reflexivity.
Qed.


(** More fuel does not change a settled loop. *)
Lemma poll_stable (fuel : nat) :
  forall (extra : nat) (data td : json) (w : world),
    fst (poll api_key fuel data td w) <> Pending ->
    poll api_key (fuel + extra) data td w = poll api_key fuel data td w.
Proof.
  induction fuel as [|fuel IH]; intros extra data td w H.
  - destruct extra as [|extra]; [reflexivity|].
    simpl in *. unfold bind, lift in *.
    destruct (get (Some td) "status") as [e|st]; simpl in *; [reflexivity|].
    destruct (terminal st); simpl in *; [reflexivity|].
    exfalso. apply H. reflexivity.
  - simpl in *. unfold bind, lift, sleep, modify, fetch in *.
    destruct (get (Some td) "status") as [e|st]; simpl in *; [reflexivity|].
    destruct (terminal st); simpl in *; [reflexivity|].
    destruct (get (Some data) "id") as [e|id]; simpl in *; [reflexivity|].
    destruct (next_answer (wait_net poll_interval (wire w))) as [r|e]; simpl in *;
      [|reflexivity].
    destruct (json_of r) as [e|next]; simpl in *; [reflexivity|].
    apply IH. exact H.
Qed.

(** [transcribe] on a script whose job reaches a terminal status. *)
Lemma transcribe_reaches_terminal (fuel : nat) (uri : string) (w : world)
    (blob upload submit : response) (audioUrl : value) (data : json)
    (pre : list response) (fin : response) (tdf : json)
    (rest : list fetch_result) :
  answers (wire w) =
    (map Responds (blob :: upload :: submit :: pre ++ [fin]) ++ rest)%list ->
  uploaded upload = Some audioUrl ->
  submitted submit = Some data ->
  waiting data = true ->
  forallb waiting_answer pre = true ->
  parsed fin = Some tdf ->
  terminal (status_of tdf) = true ->
  (List.length pre < fuel)%nat ->
  transcribe api_key fuel uri w =
    let w' := after_polls api_key uri (body blob) audioUrl (get_opt (Some data) "id")
                (S (List.length pre)) rest w in
    if is_string "error" (status_of tdf)
    then (Ret null,
          failed ("Transcription failed: " ++ show (get_opt (Some tdf) "error")) w')
    else (Ret (get_opt (Some tdf) "text"), done w').
Proof.
  intros Hans Hup Hsub Hw Hpre Hfin Hterm Hfuel.
  rewrite transcribe_of_try.
  rewrite (try_reaches_terminal fuel uri w blob upload submit audioUrl data
             pre fin tdf rest Hans Hup Hsub Hw Hpre Hfin Hterm Hfuel).
  cbv zeta. destruct (is_string "error" (status_of tdf)); reflexivity.
Qed.

(** More fuel does not change a settled [transcribe]: the fuel only says
    how long the model watches the loop. *)
Lemma transcribe_stable (fuel extra : nat) (uri : string) (w : world) :
  fst (transcribe api_key fuel uri w) <> Pending ->
  transcribe api_key (fuel + extra) uri w = transcribe api_key fuel uri w.
Proof.
  rewrite !transcribe_of_try.
  unfold transcribe_try, bind, setIsTranscribing, setError, modify, fetch. simpl.
  destruct (next_answer (wire w)) as [blob|e]; simpl; [|reflexivity].
  match goal with |- context [next_answer ?n] => destruct (next_answer n) as [upload|e] end;
    simpl; [|reflexivity].
  destruct (ok upload); simpl; [|reflexivity].
  unfold lift. destruct (json_of upload) as [e|ud]; simpl; [reflexivity|].
  destruct (get (Some ud) "upload_url") as [e|u]; simpl; [reflexivity|].
  match goal with |- context [next_answer ?n] => destruct (next_answer n) as [submit|e] end;
    simpl; [|reflexivity].
  destruct (ok submit); simpl; [|reflexivity].
  destruct (json_of submit) as [e|data]; simpl; [reflexivity|].
  match goal with |- context [poll api_key fuel data data ?w1] =>
    pose proof (poll_stable fuel extra data data w1) as Hp;
    destruct (poll api_key fuel data data w1) as [r w'] eqn:Hpoll
  end.
  destruct r as [tdf|e|]; simpl.
  - intros _. rewrite Hp by discriminate. reflexivity.
  - intros _. rewrite Hp by discriminate. reflexivity.
  - intros H. exfalso. apply H. reflexivity.
Qed.

(** The unbounded wait: while every answer keeps the job waiting, the loop
    is pending whatever the fuel. *)
Lemma poll_never_settles (fuel : nat) :
  forall (data td : json) (id : value) (w : world) (r : response),
    get (Some data) "id" = inr id ->
    waiting td = true ->
    answers (wire w) = [] ->
    afterwards (wire w) = Responds r ->
    waiting_answer r = true ->
    fst (poll api_key fuel data td w) = Pending.
Proof.
  induction fuel as [|fuel IH]; intros data td id w r Hid Hw Hans Haft Hr.
  - destruct (waiting_reads td Hw) as [st [Hst Hnt]].
    simpl. unfold bind, lift. rewrite Hst. simpl. rewrite Hnt. reflexivity.
  - destruct (waiting_reads td Hw) as [st [Hst Hnt]].
    unfold waiting_answer in Hr. destruct (parsed r) as [tdr|] eqn:Hpr; [|discriminate].
    destruct w as [it er [ans aft evs]]; simpl in Hans, Haft; subst ans aft.
    simpl. unfold bind at 1, lift at 1. rewrite Hst. simpl. rewrite Hnt.
    unfold bind, lift, sleep, modify. simpl. rewrite Hid. simpl.
    unfold fetch. simpl. unfold json_of. rewrite Hpr. simpl.
    apply (IH data tdr id _ r Hid Hr); reflexivity || (unfold waiting_answer; rewrite Hpr; exact Hr).
Qed.

Lemma waits_cycles (id : value) (n : nat) :
  waits (cycles api_key id n) = repeat poll_interval n.
Proof.
  induction n as [|n IH]; [reflexivity|].
  unfold cycles in *. simpl. f_equal. exact IH.
Qed.

Lemma requests_cycles (id : value) (n : nat) :
  requests (cycles api_key id n) = repeat (poll_request api_key id) n.
Proof.
  induction n as [|n IH]; [reflexivity|].
  unfold cycles in *. simpl. f_equal. exact IH.
Qed.

Lemma history_after_polls (uri fileBlob : string) (audioUrl id : value) (n : nat)
    (rest : list fetch_result) (w : world) :
  history (wire (after_polls api_key uri fileBlob audioUrl id n rest w)) =
    (history (wire w)
     ++ [Fetched (blob_request uri);
         Fetched (upload_request api_key fileBlob);
         Fetched (submit_request api_key audioUrl)]
     ++ cycles api_key id n)%list.
Proof.
  unfold history, after_polls. simpl.
  rewrite rev_app_distr, rev_involutive. simpl.
  rewrite <- !app_assoc. reflexivity.
Qed.

Lemma answer_at_next (n : net) : answer_at 0 n = next_answer n.
Proof. unfold answer_at, next_answer. destruct (answers n); reflexivity. Qed.

Lemma nth_tl {A} (j : nat) (l : list A) (d : A) : nth j (tl l) d = nth (S j) l d.
Proof. destruct l; simpl; [destruct j|]; reflexivity. Qed.

Lemma answer_at_later (j : nat) (n : net) (evs : list event) :
  answer_at j {| answers := tl (answers n); afterwards := afterwards n; events := evs |}
  = answer_at (S j) n.
Proof.
  unfold answer_at. simpl. destruct (answers n); simpl; [destruct j|]; reflexivity.
Qed.

(** What the loop returns is the body it was given, when it made no poll,
    and otherwise the body of the last answer it read. *)
Lemma poll_returns_last_read (fuel : nat) :
  forall (data td tdf : json) (w w' : world),
    poll api_key fuel data td w = (Ret tdf, w') ->
    exists k,
      made w' = (k + made w)%nat
      /\ match k with
         | O => tdf = td
         | S j => exists fin,
                    answer_at j (wire w) = Responds fin /\ parsed fin = Some tdf
         end.
Proof.
  induction fuel as [|fuel IH]; intros data td tdf w w'.
  - simpl. unfold bind, lift.
    destruct (get (Some td) "status") as [e|st]; simpl; [discriminate|].
    destruct (terminal st); simpl; [|discriminate].
    intros H. injection H as <- <-. exists 0%nat. split; reflexivity.
  - simpl. unfold bind at 1, lift at 1.
    destruct (get (Some td) "status") as [e|st]; simpl; [discriminate|].
    destruct (terminal st); simpl.
    { intros H. injection H as <- <-. exists 0%nat. split; reflexivity. }
    unfold bind, sleep, modify, lift. simpl.
    destruct (get (Some data) "id") as [e|id]; simpl; [discriminate|].
    unfold fetch. simpl.
    destruct (next_answer (wait_net poll_interval (wire w))) as [r|e] eqn:Hr; simpl;
      [|discriminate].
    unfold json_of. destruct (parsed r) as [next|] eqn:Hp; simpl; [|discriminate].
    intros H. apply IH in H. destruct H as [k [Hmade Hlast]].
    exists (S k). split.
    + rewrite Hmade. unfold made. simpl. lia.
    + destruct k as [|j].
      * subst tdf. exists r. split; [|exact Hp].
        rewrite answer_at_next. exact Hr.
      * destruct Hlast as [fin [Hfin Hpf]]. exists fin. split; [|exact Hpf].
        simpl in Hfin. rewrite answer_at_later in Hfin. exact Hfin.
Qed.

(** What the [try] block returns is the text of the last answer it read,
    the answer to the submission or to the last poll, and that answer
    reports the job [completed]. *)
Lemma try_returns_last_read (fuel : nat) (uri : string) (w w' : world) (v : value) :
  transcribe_try api_key fuel uri w = (Ret v, w') ->
  exists k fin td,
    made w' = (k + made w)%nat
    /\ answer_at (2 + k) (wire w) = Responds fin
    /\ parsed fin = Some td
    /\ is_string "completed" (status_of td) = true
    /\ v = get_opt (Some td) "text".
Proof.
  unfold transcribe_try, bind, setIsTranscribing, setError, modify, fetch. simpl.
  destruct (next_answer (wire w)) as [blob|e]; simpl; [|discriminate].
  match goal with |- context [next_answer ?n] => destruct (next_answer n) as [upload|e] end;
    simpl; [|discriminate].
  destruct (ok upload); simpl; [|discriminate].
  unfold lift. destruct (json_of upload) as [e|ud]; simpl; [discriminate|].
  destruct (get (Some ud) "upload_url") as [e|u]; simpl; [discriminate|].
  match goal with |- context [next_answer ?n] =>
    destruct (next_answer n) as [submit|e] eqn:Hsubmit end;
    simpl; [|discriminate].
  destruct (ok submit); simpl; [|discriminate].
  unfold json_of at 1. destruct (parsed submit) as [data|] eqn:Hdata; simpl;
    [|discriminate].
  match goal with |- context [poll api_key fuel data data ?w1] =>
    pose proof (poll_frame fuel data data w1) as Hframe;
    pose proof (poll_returns_last_read fuel data data) as Hlast;
    specialize (fun tdf w2 => Hlast tdf w1 w2);
    destruct (poll api_key fuel data data w1) as [r w2] eqn:Hpoll
  end.
  simpl in Hframe. destruct Hframe as [_ [_ Hterm]].
  destruct r as [tdf|e|]; simpl; [|discriminate|discriminate].
  pose proof (terminal_reads tdf Hterm) as Hs. rewrite Hs. simpl.
  destruct (is_string "error" (status_of tdf)) eqn:He; simpl.
  { rewrite (get_after_status tdf _ "error" Hs). discriminate. }
  rewrite (get_after_status tdf _ "text" Hs). simpl.
  intros H. injection H as <- <-.
  destruct (Hlast tdf w2 eq_refl) as [k [Hmade Hk]].
  assert (Hdone : is_string "completed" (status_of tdf) = true).
  { unfold terminal in Hterm. rewrite He, orb_false_r in Hterm. exact Hterm. }
  rewrite <- answer_at_next in Hsubmit.
  unfold answer_at in Hsubmit. cbn [answers afterwards wire] in Hsubmit.
  rewrite !nth_tl in Hsubmit.
  destruct k as [|j].
  - subst tdf. exists 0%nat, submit, data.
    split; [exact Hmade|]. split; [exact Hsubmit|]. repeat split; assumption.
  - destruct Hk as [fin [Hfin Hpf]]. exists (S j), fin, tdf.
    split; [exact Hmade|]. split.
    + unfold answer_at in Hfin. cbn [answers afterwards wire] in Hfin.
      rewrite !nth_tl in Hfin. exact Hfin.
    + repeat split; assumption.
Qed.

End Client.

(** C1.  The transcription polls the job every 3 seconds until its status is
    [completed] or [error]: on a script whose submission is accepted in a
    waiting status, whose next [pre] answers are waiting too and whose answer
    after them is terminal, [transcribe] makes exactly [length pre + 1] poll
    cycles, each a wait of 3000 ms followed by a request for the job by its
    identifier, reads no answer beyond the terminal one, and resolves to the
    text of a completed job. *)
Theorem transcribe_polls_until_terminal
    (api_key : string) (fuel : nat) (uri : string) (w : world)
    (blob upload submit : response) (audioUrl : value) (data : json)
    (pre : list response) (fin : response) (tdf : json)
    (rest : list fetch_result) :
  answers (wire w) =
    (map Responds (blob :: upload :: submit :: pre ++ [fin]) ++ rest)%list ->
  uploaded upload = Some audioUrl ->
  submitted submit = Some data ->
  waiting data = true ->
  forallb waiting_answer pre = true ->
  parsed fin = Some tdf ->
  terminal (status_of tdf) = true ->
  (List.length pre < fuel)%nat ->
  let id := get_opt (Some data) "id" in
  let out := transcribe api_key fuel uri w in
  history (wire (snd out)) =
    (history (wire w)
     ++ [Fetched (blob_request uri);
         Fetched (upload_request api_key (body blob));
         Fetched (submit_request api_key audioUrl)]
     ++ cycles api_key id (S (List.length pre)))%list
  /\ waits (history (wire (snd out)))
     = (waits (history (wire w)) ++ repeat 3000%Z (S (List.length pre)))%list
  /\ requests (history (wire (snd out)))
     = (requests (history (wire w))
        ++ [blob_request uri; upload_request api_key (body blob);
            submit_request api_key audioUrl]
        ++ repeat (poll_request api_key id) (S (List.length pre)))%list
  /\ answers (wire (snd out)) = rest
  /\ isTranscribing (snd out) = false
  /\ (is_string "completed" (status_of tdf) = true ->
      fst out = Ret (get_opt (Some tdf) "text") /\ error (snd out) = None).
Proof.
  intros Hans Hup Hsub Hw Hpre Hfin Hterm Hfuel id out.
  subst out.
  rewrite (transcribe_reaches_terminal api_key fuel uri w blob upload submit audioUrl
             data pre fin tdf rest Hans Hup Hsub Hw Hpre Hfin Hterm Hfuel).
  fold id. cbv zeta.
  set (w' := after_polls api_key uri (body blob) audioUrl id (S (List.length pre)) rest w).
  assert (Hh : history (wire w') =
    (history (wire w)
     ++ [Fetched (blob_request uri);
         Fetched (upload_request api_key (body blob));
         Fetched (submit_request api_key audioUrl)]
     ++ cycles api_key id (S (List.length pre)))%list)
    by apply history_after_polls.
  destruct (is_string "error" (status_of tdf)) eqn:He;
    unfold failed, done; cbn [fst snd wire isTranscribing error].
  all: split; [exact Hh|].
  all: split; [rewrite Hh; unfold waits; rewrite !flat_map_app; cbn [flat_map app];
               f_equal; apply waits_cycles|].
  all: split; [rewrite Hh; unfold requests; rewrite !flat_map_app; cbn [flat_map app];
               do 4 f_equal; apply requests_cycles|].
  all: split; [reflexivity|split; [reflexivity|]].
  - intros Hc. exfalso.
    unfold is_string in He, Hc. destruct (status_of tdf) as [[]|]; try discriminate.
    apply String.eqb_eq in He, Hc. congruence.
  - intros _. split; reflexivity.
Qed.

(** The script of the specification: [queued], [processing], [completed]
    with the text ["hello world"]; the hook returns ["hello world"] after
    exactly two poll cycles, whatever fuel beyond two it is given. *)
Lemma hello_world_after_two_polls :
  let w := facing hello_script still_processing in
  let out := transcribe "key" 2 "file:///take.m4a" w in
  fst out = Ret (Some (JStr "hello world"))
  /\ waits (history (wire (snd out))) = [3000; 3000]%Z
  /\ List.length (requests (cycles "key" (Some (JStr "j1")) 2)) = 2%nat
  /\ history (wire (snd out)) =
       ([Fetched (blob_request "file:///take.m4a");
         Fetched (upload_request "key" "RIFF");
         Fetched (submit_request "key" (Some (JStr "https://cdn/u1")))]
        ++ cycles "key" (Some (JStr "j1")) 2)%list
  /\ answers (wire (snd out)) = [].
Proof.
  intros w out.
  pose proof (transcribe_polls_until_terminal "key" 2 "file:///take.m4a" w
    {| ok := true; status := 200; body := "RIFF"; parsed := None |}
    (answer (JObj [("upload_url", JStr "https://cdn/u1")]))
    (answer (job "j1" "queued" []))
    (Some (JStr "https://cdn/u1"))
    (job "j1" "queued" [])
    [answer (job "j1" "processing" [])]
    (answer (job "j1" "completed" [("text", JStr "hello world")]))
    (job "j1" "completed" [("text", JStr "hello world")])
    []
    eq_refl eq_refl eq_refl eq_refl eq_refl eq_refl eq_refl (le_n 2)) as H.
  cbv zeta in H. fold out in H.
  destruct H as [Hh [Hw [Hr [Ha [_ Hc]]]]].
  destruct (Hc eq_refl) as [Hres _].
  split; [exact Hres|].
  split; [rewrite Hh; reflexivity|].
  split; [reflexivity|].
  split; [rewrite Hh; reflexivity|exact Ha].
Defined.


(** C2.  A refused upload makes the [try] block of [transcribe] throw
    [UploadFailed] with the body the server sent, and a job polled into the
    [error] status makes it throw [TranscriptionFailed] with the message the
    server reported; [transcribe] records the message of either in [error]
    and answers [null]. *)
Theorem transcribe_failures_carry_server_text
    (api_key : string) (fuel : nat) (uri : string) (w : world) :
  (forall (blob upload : response) (rest : list fetch_result),
     answers (wire w) = Responds blob :: Responds upload :: rest ->
     ok upload = false ->
     fst (transcribe_try api_key fuel uri w) = Throw (UploadFailed (body upload))
     /\ fst (transcribe api_key fuel uri w) = Ret null
     /\ error (snd (transcribe api_key fuel uri w))
        = Some ("Upload failed: " ++ body upload))
  /\
  (forall (blob upload submit : response) (audioUrl : value) (data : json)
          (pre : list response) (fin : response) (tdf : json)
          (rest : list fetch_result),
     answers (wire w) =
       (map Responds (blob :: upload :: submit :: pre ++ [fin]) ++ rest)%list ->
     uploaded upload = Some audioUrl ->
     submitted submit = Some data ->
     waiting data = true ->
     forallb waiting_answer pre = true ->
     parsed fin = Some tdf ->
     is_string "error" (status_of tdf) = true ->
     (List.length pre < fuel)%nat ->
     let serverMessage := show (get_opt (Some tdf) "error") in
     fst (transcribe_try api_key fuel uri w) = Throw (TranscriptionFailed serverMessage)
     /\ fst (transcribe api_key fuel uri w) = Ret null
     /\ error (snd (transcribe api_key fuel uri w))
        = Some ("Transcription failed: " ++ serverMessage)).
Proof.
  split.
  - intros blob upload rest Hans Hok.
    rewrite transcribe_of_try.
    rewrite (upload_refused api_key fuel uri w blob upload rest Hans Hok).
    repeat split.
  - intros blob upload submit audioUrl data pre fin tdf rest
           Hans Hup Hsub Hw Hpre Hfin Herr Hfuel serverMessage.
    assert (Hterm : terminal (status_of tdf) = true).
    { unfold terminal. rewrite Herr. apply orb_true_r. }
    rewrite (transcribe_reaches_terminal api_key fuel uri w blob upload submit audioUrl
               data pre fin tdf rest Hans Hup Hsub Hw Hpre Hfin Hterm Hfuel).
    rewrite (try_reaches_terminal api_key fuel uri w blob upload submit audioUrl
               data pre fin tdf rest Hans Hup Hsub Hw Hpre Hfin Hterm Hfuel).
    cbv zeta. rewrite Herr. repeat split.
Qed.

(** The scripts of the specification: the job reported in [error] with the
    message ["bad audio"] fails with [TranscriptionFailed "bad audio"]; an
    upload refused with the body ["Invalid API key"] fails with
    [UploadFailed "Invalid API key"]. *)
Lemma bad_audio_fails_transcription :
  (let w := facing bad_audio_script still_processing in
   fst (transcribe_try "key" 1 "file:///take.m4a" w)
     = Throw (TranscriptionFailed "bad audio")
   /\ fst (transcribe "key" 1 "file:///take.m4a" w) = Ret null
   /\ error (snd (transcribe "key" 1 "file:///take.m4a" w))
      = Some "Transcription failed: bad audio")
  /\
  (let w := facing refused_upload still_processing in
   fst (transcribe_try "key" 1 "file:///take.m4a" w)
     = Throw (UploadFailed "Invalid API key")
   /\ fst (transcribe "key" 1 "file:///take.m4a" w) = Ret null
   /\ error (snd (transcribe "key" 1 "file:///take.m4a" w))
      = Some "Upload failed: Invalid API key").
Proof.
  split.
  - intros w.
    destruct (transcribe_failures_carry_server_text "key" 1 "file:///take.m4a" w)
      as [_ H].
    exact (H {| ok := true; status := 200; body := "RIFF"; parsed := None |}
             (answer (JObj [("upload_url", JStr "https://cdn/u1")]))
             (answer (job "j1" "queued" []))
             (Some (JStr "https://cdn/u1"))
             (job "j1" "queued" [])
             []
             (answer (job "j1" "error" [("error", JStr "bad audio")]))
             (job "j1" "error" [("error", JStr "bad audio")])
             []
             eq_refl eq_refl eq_refl eq_refl eq_refl eq_refl eq_refl (le_n 1)).
  - intros w.
    destruct (transcribe_failures_carry_server_text "key" 1 "file:///take.m4a" w)
      as [H _].
    exact (H {| ok := true; status := 200; body := "RIFF"; parsed := None |}
             {| ok := false; status := 401; body := "Invalid API key"; parsed := None |}
             [] eq_refl eq_refl).
Defined.

(** C9.  The promise of [transcribe] never rejects.  When it settles, the
    [isTranscribing] flag is back to [false], and it holds either the text
    of the last answer read from the service (the answer to the submission
    or to the last poll), which reports the job [completed], with no error
    recorded; or [null], with the message of what the [try] block threw
    recorded.  It stays pending only while the loop has polled as often as
    it was allowed without meeting a terminal status.  Each of the failure
    modes (a rejected blob fetch, a refused upload, a refused submission, a
    job in [error]) settles it with [null]; a job that ends [completed]
    settles it with the text of that job. *)
Theorem transcribe_resolves_never_rejects
    (api_key : string) (fuel : nat) (uri : string) (w : world) :
  match transcribe api_key fuel uri w with
  | (Ret v, w') =>
      isTranscribing w' = false /\
      ((error w' = None /\
        exists k fin td,
          made w' = (k + made w)%nat
          /\ answer_at (2 + k) (wire w) = Responds fin
          /\ parsed fin = Some td
          /\ is_string "completed" (status_of td) = true
          /\ v = get_opt (Some td) "text")
       \/ (v = null /\
           exists e, fst (transcribe_try api_key fuel uri w) = Throw e
                     /\ error w' = Some (message_or "Transcription failed" e)))
  | (Throw _, _) => False
  | (Pending, w') => made w' = (fuel + made w)%nat
  end
  /\ (forall e, next_answer (wire w) = Rejects e ->
        fst (transcribe api_key fuel uri w) = Ret null
        /\ isTranscribing (snd (transcribe api_key fuel uri w)) = false)
  /\ (forall blob upload rest,
        answers (wire w) = Responds blob :: Responds upload :: rest ->
        ok upload = false ->
        fst (transcribe api_key fuel uri w) = Ret null
        /\ isTranscribing (snd (transcribe api_key fuel uri w)) = false)
  /\ (forall blob upload submit audioUrl rest,
        answers (wire w) = Responds blob :: Responds upload :: Responds submit :: rest ->
        uploaded upload = Some audioUrl ->
        ok submit = false ->
        fst (transcribe api_key fuel uri w) = Ret null
        /\ isTranscribing (snd (transcribe api_key fuel uri w)) = false)
  /\ (forall blob upload submit audioUrl data pre fin tdf rest,
        answers (wire w) =
          (map Responds (blob :: upload :: submit :: pre ++ [fin]) ++ rest)%list ->
        uploaded upload = Some audioUrl ->
        submitted submit = Some data ->
        waiting data = true ->
        forallb waiting_answer pre = true ->
        parsed fin = Some tdf ->
        is_string "error" (status_of tdf) = true ->
        (List.length pre < fuel)%nat ->
        fst (transcribe api_key fuel uri w) = Ret null
        /\ isTranscribing (snd (transcribe api_key fuel uri w)) = false)
  /\ (forall blob upload submit audioUrl data pre fin tdf rest,
        answers (wire w) =
          (map Responds (blob :: upload :: submit :: pre ++ [fin]) ++ rest)%list ->
        uploaded upload = Some audioUrl ->
        submitted submit = Some data ->
        waiting data = true ->
        forallb waiting_answer pre = true ->
        parsed fin = Some tdf ->
        is_string "completed" (status_of tdf) = true ->
        (List.length pre < fuel)%nat ->
        fst (transcribe api_key fuel uri w) = Ret (get_opt (Some tdf) "text")
        /\ isTranscribing (snd (transcribe api_key fuel uri w)) = false
        /\ error (snd (transcribe api_key fuel uri w)) = None).
Proof.
  split; [|split; [|split; [|split; [|split]]]].
  - rewrite transcribe_of_try.
    pose proof (try_frame api_key fuel uri w) as H.
    pose proof (try_returns_last_read api_key fuel uri w) as Hlast.
    destruct (transcribe_try api_key fuel uri w) as [[v|e|] w'].
    + destruct H as [H1 [H2 _]]. split; [exact H1|]. left. split; [exact H2|].
      exact (Hlast w' v eq_refl).
    + unfold failed. cbn [isTranscribing error fst]. split; [reflexivity|].
      right. split; [reflexivity|]. exists e. split; reflexivity.
    + exact H.
  - intros e He. rewrite transcribe_of_try.
    rewrite (blob_fetch_rejected api_key fuel uri w e He). split; reflexivity.
  - intros blob upload rest Hans Hok. rewrite transcribe_of_try.
    rewrite (upload_refused api_key fuel uri w blob upload rest Hans Hok).
    split; reflexivity.
  - intros blob upload submit audioUrl rest Hans Hup Hok. rewrite transcribe_of_try.
    rewrite (submit_refused api_key fuel uri w blob upload submit audioUrl rest
               Hans Hup Hok).
    split; reflexivity.
  - intros blob upload submit audioUrl data pre fin tdf rest
           Hans Hup Hsub Hw Hpre Hfin Herr Hfuel.
    assert (Hterm : terminal (status_of tdf) = true).
    { unfold terminal. rewrite Herr. apply orb_true_r. }
    rewrite (transcribe_reaches_terminal api_key fuel uri w blob upload submit audioUrl
               data pre fin tdf rest Hans Hup Hsub Hw Hpre Hfin Hterm Hfuel).
    cbv zeta. rewrite Herr. split; reflexivity.
  - intros blob upload submit audioUrl data pre fin tdf rest
           Hans Hup Hsub Hw Hpre Hfin Hdone Hfuel.
    assert (Hterm : terminal (status_of tdf) = true).
    { unfold terminal. rewrite Hdone. reflexivity. }
    assert (Herr : is_string "error" (status_of tdf) = false).
    { unfold is_string in *. destruct (status_of tdf) as [[]|]; try reflexivity.
      apply String.eqb_eq in Hdone. subst s. reflexivity. }
    rewrite (transcribe_reaches_terminal api_key fuel uri w blob upload submit audioUrl
               data pre fin tdf rest Hans Hup Hsub Hw Hpre Hfin Hterm Hfuel).
    cbv zeta. rewrite Herr. repeat split.
Qed.

(** A fetch of the recorded file that rejects: [transcribe] answers [null]
    and clears the flag. *)
Lemma unreadable_take_resolves_null :
  let w := facing [Rejects (ErrorObj "TypeError" "Network request failed")]
             still_processing in
  fst (transcribe "key" 0 "file:///gone.m4a" w) = Ret null
  /\ isTranscribing (snd (transcribe "key" 0 "file:///gone.m4a" w)) = false.
Proof.
  intros w.
  destruct (transcribe_resolves_never_rejects "key" 0 "file:///gone.m4a" w)
    as [_ [H _]].
  exact (H (ErrorObj "TypeError" "Network request failed") eq_refl).
Defined.

End TranscribeProofs.

(* ================================================================== *)
(** * Properties of the summary hook *)
(* ================================================================== *)

Module SummaryProofs.
Import Summary.

#[local] Arguments decimal : simpl never.

(** The one request of [generateSummary] and what it makes of the answer. *)
Lemma generateSummary_cases (api_key text : string) (w : world) :
  let n := snd (fetch_net (summary_request api_key text) (wire w)) in
  generateSummary api_key text w =
    match next_answer (wire w) with
    | Rejects e =>
        (Ret (Some (JStr failed_summary)),
         settled n (Some (message_or "Summary generation failed" e)))
    | Responds r =>
        if ok r then
          match json_of r with
          | inl e =>
              (Ret (Some (JStr failed_summary)),
               settled n (Some (message_or "Summary generation failed" e)))
          | inr data =>
              match first_completion data with
              | inl e =>
                  (Ret (Some (JStr failed_summary)),
                   settled n (Some (message_or "Summary generation failed" e)))
              | inr c =>
                  (Ret (or_else c (Some (JStr no_summary))), settled n None)
              end
          end
        else
          (Ret (Some (JStr failed_summary)),
           settled n (Some ("Summary generation failed: " ++ decimal (status r))))
    end.
Proof.
  unfold generateSummary, try_catch, generateSummary_try, bind,
    setIsGeneratingSummary, setError, modify, fetch. simpl.
  destruct (next_answer (wire w)) as [r|e]; simpl; [|reflexivity].
  destruct (ok r); simpl; [|reflexivity].
  unfold lift. destruct (json_of r) as [e|data]; simpl; [reflexivity|].
  destruct (first_completion data) as [e|c]; reflexivity.
Qed.

Lemma or_else_truthy (a b : value) : truthy b = true -> truthy (or_else a b) = true.
Proof. unfold or_else. destruct (truthy a) eqn:H; auto. Qed.

(** An empty [choices] array has no first completion. *)
Lemma empty_choices_no_completion (fields : list (string * json)) :
  assoc "choices" fields = Some (JArr []) ->
  first_completion (JObj fields) = inr undefined.
Proof. intros H. unfold first_completion, get. rewrite H. reflexivity. Qed.

(** A body without a [choices] property makes the read of its first element
    throw. *)
Lemma missing_choices_throws (fields : list (string * json)) :
  assoc "choices" fields = None ->
  exists e, first_completion (JObj fields) = inl e.
Proof. intros H. unfold first_completion, get. rewrite H. eexists. reflexivity. Qed.

(** C4.  An answer with a success status whose body has no first completion
    text (an empty [choices] array; a first choice without message or
    content; a content that is [null] or empty) makes [generateSummary]
    return the literal ["No summary generated"], through the [try] block:
    nothing is thrown and no error is recorded. *)
Theorem no_completion_yields_placeholder
    (api_key text : string) (w : world) (r : response) (data : json) (c : value) :
  next_answer (wire w) = Responds r ->
  ok r = true ->
  parsed r = Some data ->
  first_completion data = inr c ->
  truthy c = false ->
  fst (generateSummary_try api_key text w) = Ret (Some (JStr "No summary generated"))
  /\ fst (generateSummary api_key text w) = Ret (Some (JStr "No summary generated"))
  /\ error (snd (generateSummary api_key text w)) = None
  /\ isGeneratingSummary (snd (generateSummary api_key text w)) = false.
Proof.
  intros Hr Hok Hp Hc Ht.
  assert (Hj : json_of r = inr data) by (unfold json_of; rewrite Hp; reflexivity).
  split.
  - unfold generateSummary, try_catch, generateSummary_try, bind,
      setIsGeneratingSummary, setError, modify, fetch. simpl.
    rewrite Hr. simpl. rewrite Hok. simpl. unfold lift. rewrite Hj. simpl.
    rewrite Hc. simpl. unfold or_else. rewrite Ht. reflexivity.
  - rewrite generateSummary_cases. cbv zeta. rewrite Hr, Hok, Hj, Hc.
    unfold or_else. rewrite Ht. repeat split.
Qed.

(** The answer [{"choices": []}]. *)
Lemma empty_choices_placeholder :
  let w := facing (success (JObj [("choices", JArr [])])) in
  fst (generateSummary_try "key" "The quick brown fox..." w)
    = Ret (Some (JStr "No summary generated"))
  /\ fst (generateSummary "key" "The quick brown fox..." w)
     = Ret (Some (JStr "No summary generated"))
  /\ error (snd (generateSummary "key" "The quick brown fox..." w)) = None
  /\ isGeneratingSummary (snd (generateSummary "key" "The quick brown fox..." w)) = false.
Proof.
  intros w.
  exact (no_completion_yields_placeholder "key" "The quick brown fox..." w
           {| ok := true; status := 200; body := ""; parsed := Some (JObj [("choices", JArr [])]) |}
           (JObj [("choices", JArr [])]) undefined
           eq_refl eq_refl eq_refl
           (empty_choices_no_completion [("choices", JArr [])] eq_refl) eq_refl).
Defined.

(** C5.  [generateSummary] issues exactly one request: a POST to the
    chat-completion endpoint whose body holds exactly two messages, the
    fixed system instruction (which asks for 2-3 sentences) and a user
    message that ends in the input text, with [max_tokens] 150 and
    [temperature] 0.3; when the answer succeeds with a first completion
    whose content is a text, that text is returned as it is. *)
Theorem summarize_one_request_two_messages
    (api_key text : string) (w : world) :
  let out := generateSummary api_key text w in
  let req := summary_request api_key text in
  history (wire (snd out)) = (history (wire w) ++ [Fetched req])%list
  /\ url req = chat_endpoint /\ method req = "POST"
  /\ (exists body,
        sent req = Chat body
        /\ messages body =
             [ {| role := "system"; content := system_instruction |};
               {| role := "user"; content := user_prompt text |} ]
        /\ List.length (messages body) = 2%nat
        /\ max_tokens body = 150%Z
        /\ (temperature body == 3 # 10)%Q /\ (temperature body < 1)%Q)
  /\ (exists before after, system_instruction = before ++ "2-3 sentences" ++ after)
  /\ (exists before, user_prompt text = before ++ text)
  /\ (forall (r : response) (data : json) (s : string),
        next_answer (wire w) = Responds r ->
        ok r = true ->
        parsed r = Some data ->
        first_completion data = inr (Some (JStr s)) ->
        s <> "" ->
        fst out = Ret (Some (JStr s))
        /\ error (snd out) = None
        /\ isGeneratingSummary (snd out) = false).
Proof.
  intros out req. subst out.
  pose proof (generateSummary_cases api_key text w) as Hc. cbv zeta in Hc.
  split.
  { rewrite Hc. unfold history.
    assert (Hn : events (snd (fetch_net (summary_request api_key text) (wire w)))
                 = Fetched req :: events (wire w)) by reflexivity.
    destruct (next_answer (wire w)) as [r|e].
    - destruct (ok r); [destruct (json_of r) as [e|d];
        [|destruct (first_completion d)]|];
      unfold settled; cbn [snd wire]; rewrite Hn; reflexivity.
    - unfold settled; cbn [snd wire]; rewrite Hn; reflexivity. }
  split; [reflexivity|]. split; [reflexivity|].
  split.
  { exists (chat_body text). repeat split. }
  split.
  { exists "You are a helpful assistant that creates concise, clear summaries. Summarize the following text in ".
    exists ", capturing the main points and key information.". reflexivity. }
  split.
  { exists ("Please summarize this text:" ++ newline ++ newline). reflexivity. }
  intros r data s Hr Hok Hp Hfc Hne.
  rewrite Hc, Hr, Hok. unfold json_of. rewrite Hp, Hfc.
  unfold or_else, truthy.
  destruct (s =? "") eqn:E; [apply String.eqb_eq in E; contradiction|].
  repeat split.
Qed.

(** The transcript of the specification, answered with a summary. *)
Lemma fox_summary_verbatim :
  let w := facing (success (completion (JStr "A fox jumps over a dog."))) in
  let out := generateSummary "key" "The quick brown fox..." w in
  requests (history (wire (snd out))) = [summary_request "key" "The quick brown fox..."]
  /\ fst out = Ret (Some (JStr "A fox jumps over a dog.")).
Proof.
  intros w out.
  pose proof (summarize_one_request_two_messages "key" "The quick brown fox..." w) as H.
  cbv zeta in H. destruct H as [Hh [_ [_ [_ [_ [_ Hs]]]]]].
  split.
  - fold out in Hh. rewrite Hh. reflexivity.
  - refine (proj1 (Hs {| ok := true; status := 200; body := "";
                         parsed := Some (completion (JStr "A fox jumps over a dog.")) |}
                      (completion (JStr "A fox jumps over a dog."))
                      "A fox jumps over a dog." eq_refl eq_refl eq_refl eq_refl _)).
    discriminate.
Defined.


(** C10, as the code has it.  The promise of [generateSummary] never
    rejects and is never left pending; it clears [isGeneratingSummary] and
    resolves to a truthy value.  Anything thrown (a rejected fetch, a
    non-success status, a body that is not JSON, a body without a [choices]
    array, any body whose first completion cannot be read) yields the
    literal ["Failed to generate summary. Please try again."]; an empty
    [choices] array, and every body whose first completion content is
    absent, [null] or empty, yields ["No summary generated"]; a truthy
    first completion content is returned as it is, of whatever JSON type.
    So the result is a non-empty string whenever the upstream content, when
    truthy, is a string. *)
Theorem generateSummary_never_rejects (api_key text : string) (w : world) :
  let out := generateSummary api_key text w in
  isGeneratingSummary (snd out) = false
  /\ (exists v, fst out = Ret v /\ truthy v = true
        /\ ((exists s, v = Some (JStr s) /\ s <> "")
            \/ (exists r data,
                  next_answer (wire w) = Responds r /\ ok r = true
                  /\ parsed r = Some data /\ first_completion data = inr v)))
  /\ ((forall r data c,
         next_answer (wire w) = Responds r -> ok r = true ->
         parsed r = Some data -> first_completion data = inr c ->
         truthy c = true -> exists s, c = Some (JStr s)) ->
      exists s, fst out = Ret (Some (JStr s)) /\ s <> "")
  /\ (forall e, next_answer (wire w) = Rejects e ->
        fst out = Ret (Some (JStr "Failed to generate summary. Please try again.")))
  /\ (forall r, next_answer (wire w) = Responds r -> ok r = false ->
        fst out = Ret (Some (JStr "Failed to generate summary. Please try again."))
        /\ error (snd out) = Some ("Summary generation failed: " ++ decimal (status r)))
  /\ (forall r, next_answer (wire w) = Responds r -> ok r = true -> parsed r = None ->
        fst out = Ret (Some (JStr "Failed to generate summary. Please try again.")))
  /\ (forall r fields,
        next_answer (wire w) = Responds r -> ok r = true ->
        parsed r = Some (JObj fields) -> assoc "choices" fields = None ->
        fst out = Ret (Some (JStr "Failed to generate summary. Please try again.")))
  /\ (forall r fields,
        next_answer (wire w) = Responds r -> ok r = true ->
        parsed r = Some (JObj fields) -> assoc "choices" fields = Some (JArr []) ->
        fst out = Ret (Some (JStr "No summary generated")))
  /\ (forall r data c,
        next_answer (wire w) = Responds r -> ok r = true ->
        parsed r = Some data -> first_completion data = inr c ->
        truthy c = true ->
        fst out = Ret c /\ error (snd out) = None)
  /\ (forall r data c,
        next_answer (wire w) = Responds r -> ok r = true ->
        parsed r = Some data -> first_completion data = inr c ->
        truthy c = false ->
        fst out = Ret (Some (JStr "No summary generated")) /\ error (snd out) = None)
  /\ (forall r data e,
        next_answer (wire w) = Responds r -> ok r = true ->
        parsed r = Some data -> first_completion data = inl e ->
        fst out = Ret (Some (JStr "Failed to generate summary. Please try again."))
        /\ error (snd out) = Some (message_or "Summary generation failed" e)).
Proof.
  intros out. subst out.
  pose proof (generateSummary_cases api_key text w) as Hc. cbv zeta in Hc.
  assert (Hlit : forall s : string, s <> "" -> truthy (Some (JStr s)) = true).
  { intros s Hs. simpl. destruct (s =? "") eqn:E; [|reflexivity].
    apply String.eqb_eq in E. contradiction. }
  assert (Hfail : failed_summary <> "") by discriminate.
  assert (Hnone : no_summary <> "") by discriminate.
  assert (Hstr : forall c : value, truthy c = true ->
            (exists s, c = Some (JStr s)) -> exists s, c = Some (JStr s) /\ s <> "").
  { intros c Ht [s ->]. exists s. split; [reflexivity|].
    intros ->. discriminate Ht. }
  split; [|split; [|split; [|split; [|split; [|split; [|split; [|split;
    [|split; [|split]]]]]]]]].
  - rewrite Hc. destruct (next_answer (wire w)) as [r|e]; [|reflexivity].
    destruct (ok r); [|reflexivity].
    destruct (json_of r) as [e|d]; [reflexivity|].
    destruct (first_completion d); reflexivity.
  - rewrite Hc. destruct (next_answer (wire w)) as [r|e] eqn:Hr.
    + destruct (ok r) eqn:Hok.
      * unfold json_of. destruct (parsed r) as [d|] eqn:Hp.
        -- destruct (first_completion d) as [e|c] eqn:Hfc.
           ++ eexists; split; [reflexivity|split; [apply Hlit, Hfail|]].
              left. eexists; split; [reflexivity|exact Hfail].
           ++ unfold or_else. destruct (truthy c) eqn:Ht.
              ** exists c. split; [reflexivity|split; [exact Ht|]].
                 right. exists r, d. repeat split; assumption.
              ** eexists; split; [reflexivity|split; [apply Hlit, Hnone|]].
                 left. eexists; split; [reflexivity|exact Hnone].
        -- eexists; split; [reflexivity|split; [apply Hlit, Hfail|]].
           left. eexists; split; [reflexivity|exact Hfail].
      * eexists; split; [reflexivity|split; [apply Hlit, Hfail|]].
        left. eexists; split; [reflexivity|exact Hfail].
    + eexists; split; [reflexivity|split; [apply Hlit, Hfail|]].
      left. eexists; split; [reflexivity|exact Hfail].
  - intros Htext. rewrite Hc. destruct (next_answer (wire w)) as [r|e] eqn:Hr.
    + destruct (ok r) eqn:Hok.
      * unfold json_of. destruct (parsed r) as [d|] eqn:Hp.
        -- destruct (first_completion d) as [e|c] eqn:Hfc.
           ++ eexists; split; [reflexivity|exact Hfail].
           ++ unfold or_else. destruct (truthy c) eqn:Ht.
              ** destruct (Hstr c Ht (Htext r d c eq_refl Hok Hp Hfc Ht)) as [s [-> Hs]].
                 exists s. split; [reflexivity|exact Hs].
              ** eexists; split; [reflexivity|exact Hnone].
        -- eexists; split; [reflexivity|exact Hfail].
      * eexists; split; [reflexivity|exact Hfail].
    + eexists; split; [reflexivity|exact Hfail].
  - intros e He. rewrite Hc, He. reflexivity.
  - intros r Hr Hok. rewrite Hc, Hr, Hok. split; reflexivity.
  - intros r Hr Hok Hp. rewrite Hc, Hr, Hok. unfold json_of. rewrite Hp. reflexivity.
  - intros r fields Hr Hok Hp Hch. rewrite Hc, Hr, Hok. unfold json_of. rewrite Hp.
    destruct (missing_choices_throws fields Hch) as [e ->]. reflexivity.
  - intros r fields Hr Hok Hp Hch. rewrite Hc, Hr, Hok. unfold json_of. rewrite Hp.
    rewrite (empty_choices_no_completion fields Hch). reflexivity.
  - intros r data c Hr Hok Hp Hfc Ht. rewrite Hc, Hr, Hok. unfold json_of.
    rewrite Hp, Hfc. unfold or_else. rewrite Ht. split; reflexivity.
  - intros r data c Hr Hok Hp Hfc Ht. rewrite Hc, Hr, Hok. unfold json_of.
    rewrite Hp, Hfc. unfold or_else. rewrite Ht. split; reflexivity.
  - intros r data e Hr Hok Hp Hfc. rewrite Hc, Hr, Hok. unfold json_of.
    rewrite Hp, Hfc. split; reflexivity.
Qed.

(** A non-success status (here 429) yields the failure literal; with it the
    hypothesis on the upstream content holds vacuously. *)
Lemma rate_limited_summary_fails_softly :
  let w := facing (Responds {| ok := false; status := 429; body := "slow down";
                               parsed := None |}) in
  let out := generateSummary "key" "The quick brown fox..." w in
  fst out = Ret (Some (JStr "Failed to generate summary. Please try again."))
  /\ error (snd out) = Some "Summary generation failed: 429"
  /\ exists s, fst out = Ret (Some (JStr s)) /\ s <> "".
Proof.
  intros w out.
  pose proof (generateSummary_never_rejects "key" "The quick brown fox..." w) as H.
  cbv zeta in H. fold out in H.
  destruct H as [_ [_ [Htext [_ [Hstatus _]]]]].
  destruct (Hstatus _ eq_refl eq_refl) as [H1 H2].
  split; [exact H1|]. split; [exact H2|].
  apply Htext. intros r data c Hr Hok. exfalso.
  injection Hr as <-. discriminate Hok.
Defined.

(** C10 as stated fails: a completion whose content is the number 42 makes
    [generateSummary] resolve to the number 42, which is no string. *)
Lemma numeric_content_is_no_string :
  let w := facing (success (completion (JNum 42))) in
  fst (generateSummary "key" "The quick brown fox..." w) = Ret (Some (JNum 42))
  /\ ~ (exists s : string,
          fst (generateSummary "key" "The quick brown fox..." w) = Ret (Some (JStr s))
          /\ s <> "").
Proof.
  intros w. split; [reflexivity|].
  intros [s [H _]]. discriminate H.
Qed.

End SummaryProofs.

(* ================================================================== *)
(** * Properties of the recording hook and of the begin action *)
(* ================================================================== *)

Module RecordingProofs.
Import AudioRecording.

(** Destructs the world into its fields, so that the setters compute. *)
Ltac open_world w :=
  destruct w as [rec isRec ref chunks trk loaded urls alrt ask e]; simpl in *.

(** The data events only grow the chunks. *)
Lemma deliver_frame (blobs : list string) :
  forall w, exists chunks,
    deliver blobs w =
      (Ret tt,
       {| recording := recording w; isRecording := isRecording w;
          mediaRecorderRef := mediaRecorderRef w; audioChunksRef := chunks;
          tracks := tracks w; recorderLoaded := recorderLoaded w;
          objectURLs := objectURLs w; alerts := alerts w;
       asked := asked w; env := env w |}).
Proof.
  induction blobs as [|b blobs IH]; intros w.
  - exists (audioChunksRef w). destruct w; reflexivity.
  - simpl. unfold bind at 1. unfold ondataavailable.
    destruct (0 <? String.length b)%nat.
    + unfold bind, gets, setAudioChunksRef, modify. simpl.
      match goal with |- context [deliver blobs ?w1] => destruct (IH w1) as [c Hc] end.
      exists c. rewrite Hc. reflexivity.
    + unfold ret. destruct (IH w) as [c Hc]. exists c. exact Hc.
Qed.

Lemma stop_track_stops (i : nat) (l : list bool) :
  nth_error (stop_track i l) i <> Some true.
Proof.
  revert i. induction l as [|t l IH]; intros i; simpl.
  - destruct i; discriminate.
  - destruct i; simpl; [discriminate|apply IH].
Qed.

(** The web path when the reference is extracted: the promise resolves to
    the object URL and the recorder's track is stopped. *)
Lemma stopRecording_web_releases (w : world) (mr : MediaRecorder) (u : string) :
  OS (env w) = Web ->
  mediaRecorderRef w = Some mr ->
  active mr = true ->
  createObjectURL (env w) = inr u ->
  fst (stopRecording w) = Ret (Some (JStr u))
  /\ tracks (snd (stopRecording w)) = stop_track (stream mr) (tracks w)
  /\ isRecording (snd (stopRecording w)) = false
  /\ mediaRecorderRef (snd (stopRecording w)) = None.
Proof.
  intros Hos Href Hact Hurl.
  open_world w. subst ref.
  unfold stopRecording, try_catch, stopRecording_try, bind, gets. simpl.
  rewrite Hos. simpl. unfold stop_promise. rewrite Hact. simpl.
  unfold bind, setMediaRecorderRef, modify, gets. simpl.
  match goal with |- context [deliver ?b ?w1] => destruct (deliver_frame b w1) as [c Hc] end.
  simpl in Hc. rewrite Hc. simpl.
  unfold onstop. simpl. rewrite Hurl.
  unfold bind, mintObjectURL, stop_tracks, setTracks, setIsRecording,
    setMediaRecorderRef, setAudioChunksRef, modify, gets, ret. simpl.
  repeat split.
Qed.

(** The native path: the recorder is unloaded whenever
    [stopAndUnloadAsync] unloads it; the hook itself releases nothing. *)
Lemma stopRecording_native (w : world) (r : Recording) :
  OS (env w) = Native ->
  recording w = Some r ->
  let out := stopRecording w in
  match stopAndUnloadAsync (env w) with
  | Unloads =>
      recorderLoaded (snd out) = false /\
      match setAudioModeAsync (env w) with
      | None =>
          fst out = Ret (match getURI r with Some u => Some (JStr u) | None => null end)
          /\ recording (snd out) = None
      | Some _ => fst out = Ret null /\ recording (snd out) = Some r
      end
  | RejectsUnloaded _ =>
      fst out = Ret null /\ recorderLoaded (snd out) = false
  | RejectsLoaded _ =>
      fst out = Ret null /\ recorderLoaded (snd out) = recorderLoaded w
  end
  /\ isRecording (snd out) = false.
Proof.
  intros Hos Hrec out. subst out.
  open_world w. subst rec.
  unfold stopRecording, try_catch, stopRecording_try, bind, gets. simpl.
  rewrite Hos. unfold Recording_stopAndUnloadAsync, bind, gets. simpl.
  destruct (stopAndUnloadAsync e); simpl.
  - unfold Audio_setAudioModeAsync, bind, gets. simpl.
    destruct (setAudioModeAsync e); simpl; repeat split.
  - repeat split.
  - repeat split.
Qed.

(** C3, at the inputs where the code leaves it.  On the web, when
    [URL.createObjectURL] throws in the [onstop] handler, the promise of
    [stopRecording] never settles and the track of the microphone stays
    live; a second [stopRecording] is rejected, the track still live.  On a
    phone whose recorder fails to stop before unloading, [stopRecording]
    answers [null] with the recorder still loaded. *)
Theorem stopRecording_keeps_device_on_error_paths :
  (let w := snd (startRecording (initial no_object_urls)) in
   device_held w = true
   /\ fst (stopRecording w) = Pending
   /\ device_held (snd (stopRecording w)) = true
   /\ fst (stopRecording (snd (stopRecording w)))
      = Throw (ErrorObj "InvalidStateError" "The MediaRecorder's state is 'inactive'.")
   /\ device_held (snd (stopRecording (snd (stopRecording w)))) = true)
  /\
  (let w := snd (startRecording (initial stuck_phone)) in
   device_held w = true
   /\ fst (stopRecording w) = Ret null
   /\ device_held (snd (stopRecording w)) = true).
Proof. split; cbv zeta; repeat split. Qed.

(** The paths on which the reference is extracted do release it. *)
Lemma stopRecording_releases_on_success :
  (let w := snd (startRecording (initial browser)) in
   device_held w = true
   /\ fst (stopRecording w) = Ret (Some (JStr "blob:https://app.example/1"))
   /\ device_held (snd (stopRecording w)) = false)
  /\
  (let w := snd (startRecording (initial phone)) in
   device_held w = true
   /\ fst (stopRecording w) = Ret (Some (JStr "file:///cache/rec.m4a"))
   /\ device_held (snd (stopRecording w)) = false).
Proof. split; cbv zeta; repeat split. Qed.

(** [checkPermissions] never throws, and when it answers [false] it has
    changed nothing: the platform has answered the request the probe made,
    and that is all. *)
Lemma checkPermissions_false_unchanged (w : world) :
  (exists b, fst (checkPermissions w) = Ret b)
  /\ (fst (checkPermissions w) = Ret false ->
      snd (checkPermissions w) = answered (probe_requests (env w)) w).
Proof.
  open_world w.
  unfold checkPermissions, try_catch, checkPermissions_try, bind, gets,
    probe_requests, answered. simpl.
  destruct (OS e).
  - destruct (mediaDevices e); simpl; [|split; [eexists|]; reflexivity].
    destruct (insecure_origin e); simpl; [split; [eexists|]; reflexivity|].
    unfold try_catch, navigator_getUserMedia, bind, gets, modify, answered. simpl.
    destruct (getUserMedia e ask); simpl.
    + split; [eexists|]; reflexivity.
    + split; [eexists; reflexivity|discriminate].
  - unfold Audio_requestPermissionsAsync, bind, gets, lift, modify, answered. simpl.
    destruct (requestPermissionsAsync e ask) as [err|st]; simpl.
    + split; [eexists|]; reflexivity.
    + split; [eexists|]; reflexivity.
Qed.

(** When [checkPermissions] answers [true] on the web, the stream it opened
    is closed again: the microphone is held exactly as before. *)
Lemma checkPermissions_releases (w : world) :
  device_held (snd (checkPermissions w)) = device_held w.
Proof.
  open_world w.
  unfold checkPermissions, try_catch, checkPermissions_try, bind, gets. simpl.
  destruct (OS e).
  - destruct (mediaDevices e); simpl; [|reflexivity].
    destruct (insecure_origin e); simpl; [reflexivity|].
    unfold try_catch, navigator_getUserMedia, bind, gets, modify, answered. simpl.
    destruct (getUserMedia e ask); simpl; [reflexivity|].
    unfold device_held. simpl. f_equal.
    induction trk as [|t trk IH]; simpl; [reflexivity|].
    destruct t; simpl; [reflexivity|]. exact IH.
  - unfold Audio_requestPermissionsAsync, bind, gets, lift, modify, answered. simpl.
    destruct (requestPermissionsAsync e ask); reflexivity.
Qed.

End RecordingProofs.

Module ScreenProofs.
Import Screen.

(** C8.  When the begin action runs and [checkPermissions] answers
    [false], the screen keeps every field of its state, the recording hook
    keeps its own (no recorder is created, nothing is started, the
    microphone is held as before), and the one thing that happens is an
    alert ["Permission Required"] with an OK and a Retry button, the Retry
    running the begin action again; the action itself ends normally.  The
    world it leaves is the world it found with that alert shown, the
    platform having answered the request of the probe. *)
Theorem begin_without_permission_stays_idle (w : world) :
  fst (AudioRecording.checkPermissions (adapter w)) = Ret false ->
  let out := handleStartRecording w in
  fst out = Ret tt
  /\ snd out
     = shown permission_required
         (answered (AudioRecording.probe_requests (AudioRecording.env (adapter w))) w)
  /\ isRecording (snd out) = isRecording w
  /\ recordingDuration (snd out) = recordingDuration w
  /\ transcribedText (snd out) = transcribedText w
  /\ summary (snd out) = summary w
  /\ AudioRecording.isRecording (adapter (snd out))
     = AudioRecording.isRecording (adapter w)
  /\ AudioRecording.mediaRecorderRef (adapter (snd out))
     = AudioRecording.mediaRecorderRef (adapter w)
  /\ AudioRecording.recording (adapter (snd out))
     = AudioRecording.recording (adapter w)
  /\ AudioRecording.device_held (adapter (snd out))
     = AudioRecording.device_held (adapter w)
  /\ AudioRecording.alerts (adapter (snd out))
     = permission_required :: AudioRecording.alerts (adapter w)
  /\ In retry_button (AudioRecording.buttons permission_required)
  /\ press retry_button = handleStartRecording.
Proof.
  intros Hperm out.
  assert (Hout : out =
    (Ret tt,
     shown permission_required
       (answered (AudioRecording.probe_requests (AudioRecording.env (adapter w))) w))).
  { subst out.
    pose proof (proj2 (RecordingProofs.checkPermissions_false_unchanged (adapter w)) Hperm)
      as Hsame.
    unfold handleStartRecording, try_catch, handleStartRecording_try.
    unfold bind at 1. unfold hook at 1.
    destruct (AudioRecording.checkPermissions (adapter w)) as [r a] eqn:Hcp.
    simpl in Hperm, Hsame. subst r a. cbn [negb].
    unfold hook, AudioRecording.Alert, modify. cbn [adapter].
    destruct w; reflexivity. }
  rewrite Hout. cbn [fst snd].
  split; [reflexivity|]. split; [reflexivity|].
  repeat (split; [reflexivity|]).
  split; [right; left; reflexivity|reflexivity].
Qed.

(** A phone whose user refuses the microphone: the screen stays as it was
    mounted and shows the prompt. *)
Lemma denied_phone_shows_retry :
  let w := mounted (AudioRecording.initial AudioRecording.denied_phone) in
  let out := handleStartRecording w in
  fst out = Ret tt
  /\ isRecording (snd out) = false
  /\ AudioRecording.isRecording (adapter (snd out)) = false
  /\ AudioRecording.alerts (adapter (snd out)) = [permission_required].
Proof.
  intros w out.
  pose proof (begin_without_permission_stays_idle w eq_refl) as H.
  cbv zeta in H. fold out in H.
  destruct H as [H1 [_ [H3 [_ [_ [_ [H7 [_ [_ [_ [H11 _]]]]]]]]]]].
  split; [exact H1|]. split; [rewrite H3; reflexivity|].
  split; [rewrite H7; reflexivity|rewrite H11; reflexivity].
Defined.

(** The prompt is recoverable: once the user has granted the microphone,
    pressing Retry starts the recording. *)
Lemma retry_after_grant_records :
  let w := mounted (AudioRecording.initial AudioRecording.denied_phone) in
  let denied := snd (handleStartRecording w) in
  let granted :=
    {| isRecording := isRecording denied; recordingDuration := recordingDuration denied;
       transcribedText := transcribedText denied; summary := summary denied;
       fadeAnim := fadeAnim denied;
       adapter := AudioRecording.with_env AudioRecording.phone (adapter denied) |} in
  fst (press retry_button granted) = Ret tt
  /\ isRecording (snd (press retry_button granted)) = true
  /\ AudioRecording.device_held (adapter (snd (press retry_button granted))) = true.
Proof. cbv zeta. repeat split. Qed.

End ScreenProofs.

(* ================================================================== *)
(** * Properties of the recordings server *)
(* ================================================================== *)

Module ServerProofs.
Import Server.

Lemma insert_desc_perm (d : Recording) (l : list Recording) :
  Permutation (d :: l) (insert_desc d l).
Proof.
  induction l as [|x l IH]; simpl; [apply Permutation_refl|].
  destruct (createdAt x <=? createdAt d)%Z; [apply Permutation_refl|].
  eapply perm_trans; [apply perm_swap|]. apply perm_skip. exact IH.
Qed.

Lemma sort_desc_perm (l : list Recording) : Permutation l (sort_desc l).
Proof.
  induction l as [|x l IH]; simpl; [apply perm_nil|].
  eapply perm_trans; [apply perm_skip; exact IH|]. apply insert_desc_perm.
Qed.

Lemma insert_desc_sorted (d : Recording) (l : list Recording) :
  newest_first l -> newest_first (insert_desc d l).
Proof.
  unfold newest_first.
  induction l as [|x l IH]; intros Hs; simpl.
  - constructor; constructor.
  - inversion Hs as [|? ? Hl Hx]; subst.
    destruct (createdAt x <=? createdAt d)%Z eqn:E.
    + apply Z.leb_le in E. constructor; [exact Hs|].
      constructor; [exact E|].
      eapply Forall_impl; [|exact Hx]. intros y Hy. simpl in Hy. lia.
    + apply Z.leb_gt in E. constructor; [apply IH; exact Hl|].
      eapply Permutation_Forall; [apply insert_desc_perm|].
      constructor; [lia|exact Hx].
Qed.

Lemma sort_desc_sorted (l : list Recording) : newest_first (sort_desc l).
Proof.
  induction l as [|x l IH]; simpl; [constructor|].
  apply insert_desc_sorted. exact IH.
Qed.

Lemma firstn_sorted (n : nat) (l : list Recording) :
  newest_first l -> newest_first (firstn n l).
Proof.
  unfold newest_first. revert l.
  induction n as [|n IH]; intros l Hs; simpl; [constructor|].
  destruct l as [|x l]; [constructor|].
  inversion Hs as [|? ? Hl Hx]; subst.
  constructor; [apply IH; exact Hl|].
  apply Forall_forall. intros y Hy.
  rewrite Forall_forall in Hx. apply Hx.
  revert Hy. clear. revert l. induction n as [|n IH]; intros l H; simpl in H; [contradiction|].
  destruct l as [|z l]; [contradiction|].
  destruct H as [->|H]; [left; reflexivity|right; apply IH; exact H].
Qed.

(** A document newer than all the stored ones comes first in the sort. *)
Lemma sort_desc_newest_last (d : Recording) (l : list Recording) :
  Forall (fun x => (createdAt x < createdAt d)%Z) l ->
  sort_desc (l ++ [d]) = d :: sort_desc l.
Proof.
  induction l as [|x l IH]; intros H; simpl; [reflexivity|].
  inversion H as [|? ? Hx Hl]; subst.
  rewrite (IH Hl). simpl.
  destruct (createdAt d <=? createdAt x)%Z eqn:E; [|reflexivity].
  apply Z.leb_le in E. lia.
Qed.

Lemma get_reads_all (body v : value) (k k' : string) :
  get body k = inr v -> exists v', get body k' = inr v'.
Proof.
  destruct body as [[]|]; unfold get; intros H; try discriminate; eexists; reflexivity.
Qed.

Lemma all_before_Forall (now : Z) (st : store) :
  all_before now st = true ->
  Forall (fun x => (createdAt x < now)%Z) (collection st).
Proof.
  unfold all_before. intros H. apply Forall_forall. intros x Hx.
  rewrite forallb_forall in H. apply Z.ltb_lt. apply H. exact Hx.
Qed.

(** What the listing answers on a connected store. *)
Lemma list_recordings_connected (st : store) :
  connected st = true ->
  list_recordings st =
    (Ret {| code := 200;
            sent_json := Documents (firstn limit (sort_desc (collection st))) |}, st).
Proof.
  intros H. unfold list_recordings, try_catch, list_try, bind, gets. simpl.
  rewrite H. reflexivity.
Qed.

(** C6.  Posting a recording whose two fields are non-empty texts to a
    connected store, at an instant later than those of the documents
    already stored, answers 201 with the stored document; a listing after
    it answers that document first.  Every listing of a connected store is
    ordered newest first, holds at most 100 documents, and is the front of
    the whole collection so ordered. *)
Theorem post_then_list_round_trip
    (castString : json -> option string) (now : Z) (oid t s : string) (st : store) :
  castString (JStr t) = Some t ->
  castString (JStr s) = Some s ->
  t <> "" -> s <> "" ->
  connected st = true ->
  all_before now st = true ->
  let doc := {| id := oid; transcription := t; summary := s; createdAt := now |} in
  let posted := post castString now oid (write t s) st in
  let listed := list_recordings (snd posted) in
  fst posted = Ret {| code := 201; sent_json := Document doc |}
  /\ collection (snd posted) = (collection st ++ [doc])%list
  /\ (exists older,
        fst listed = Ret {| code := 200; sent_json := Documents (doc :: older) |})
  /\ snd listed = snd posted
  /\ (forall st', connected st' = true ->
        exists l rest,
          fst (list_recordings st') = Ret {| code := 200; sent_json := Documents l |}
          /\ (List.length l <= 100)%nat
          /\ List.length l = Nat.min 100 (List.length (collection st'))
          /\ newest_first (l ++ rest)%list
          /\ Permutation (collection st') (l ++ rest)%list).
Proof.
  intros Ht Hs Htne Hsne Hconn Hold doc posted listed.
  assert (Hpost : posted =
    (Ret {| code := 201; sent_json := Document doc |},
     {| collection := (collection st ++ [doc])%list; connected := connected st |})).
  { subst posted. clear Hold listed. destruct st as [coll conn]. simpl in Hconn. subst conn.
    unfold post, try_catch, post_try, bind, lift, write, get. simpl.
    destruct (t =? "") eqn:E1; [apply String.eqb_eq in E1; contradiction|].
    destruct (s =? "") eqn:E2; [apply String.eqb_eq in E2; contradiction|].
    simpl. unfold create, bind, gets, cast_required, insert_doc, modify, ret. simpl.
    rewrite Ht, Hs. reflexivity. }
  assert (Hlist : forall st', connected st' = true ->
    fst (list_recordings st') =
      Ret {| code := 200;
             sent_json := Documents (firstn limit (sort_desc (collection st'))) |}
    /\ snd (list_recordings st') = st').
  { intros st' H. rewrite (list_recordings_connected st' H). split; reflexivity. }
  split; [rewrite Hpost; reflexivity|].
  split; [rewrite Hpost; reflexivity|].
  assert (Hc1 : connected (snd posted) = true) by (rewrite Hpost; exact Hconn).
  split.
  { subst listed. rewrite (proj1 (Hlist _ Hc1)). rewrite Hpost. simpl collection.
    rewrite (sort_desc_newest_last doc (collection st) (all_before_Forall now st Hold)).
    exists (firstn 99 (sort_desc (collection st))). reflexivity. }
  split; [subst listed; exact (proj2 (Hlist _ Hc1))|].
  intros st' Hc'.
  exists (firstn limit (sort_desc (collection st'))),
         (skipn limit (sort_desc (collection st'))).
  split; [exact (proj1 (Hlist _ Hc'))|].
  assert (Hlen : List.length (sort_desc (collection st')) = List.length (collection st')).
  { symmetry. apply Permutation_length, sort_desc_perm. }
  split; [rewrite length_firstn; unfold limit; lia|].
  split; [rewrite length_firstn, Hlen; reflexivity|].
  rewrite firstn_skipn.
  split; [apply sort_desc_sorted|apply sort_desc_perm].
Qed.

(** The round trip of the specification, on a store with two earlier memos. *)
Lemma t_s_round_trip :
  let doc := {| id := "65a3"; transcription := "t"; summary := "s";
                createdAt := 1700001200000 |} in
  let posted := post castText 1700001200000 "65a3" (write "t" "s") two_memos in
  fst posted = Ret {| code := 201; sent_json := Document doc |}
  /\ exists older,
       fst (list_recordings (snd posted))
         = Ret {| code := 200; sent_json := Documents (doc :: older) |}.
Proof.
  intros doc posted.
  assert (Ht : "t" <> "") by discriminate.
  assert (Hs : "s" <> "") by discriminate.
  pose proof (post_then_list_round_trip castText 1700001200000 "65a3" "t" "s" two_memos
                eq_refl eq_refl Ht Hs eq_refl eq_refl) as H.
  cbv zeta in H. destruct H as [H1 [_ [H3 _]]].
  split; [exact H1|exact H3].
Defined.

(** C7.  A write whose body lacks the transcription or the summary is
    answered 400, and the store is left as it was: no document is created. *)
Theorem post_missing_field_rejected
    (castString : json -> option string) (now : Z) (oid : string)
    (body : value) (st : store) :
  get body "transcription" = inr undefined \/ get body "summary" = inr undefined ->
  let out := post castString now oid body st in
  fst out = Ret {| code := 400; sent_json := ErrorBody required_error |}
  /\ snd out = st
  /\ collection (snd out) = collection st.
Proof.
  intros H out.
  assert (Hout : out =
    (Ret {| code := 400; sent_json := ErrorBody required_error |}, st)).
  { subst out. unfold post, try_catch, post_try, bind, lift.
    destruct H as [H|H].
    - destruct (get_reads_all body undefined "transcription" "summary" H) as [v Hv].
      rewrite H, Hv. reflexivity.
    - destruct (get_reads_all body undefined "summary" "transcription" H) as [v Hv].
      rewrite H, Hv. simpl. rewrite orb_true_r. reflexivity. }
  rewrite Hout. repeat split.
Qed.

(** A write without transcription. *)
Lemma summary_only_rejected :
  let out := post castText 1700001200000 "65a3"
               (Some (JObj [("summary", JStr "s")])) two_memos in
  fst out = Ret {| code := 400; sent_json := ErrorBody required_error |}
  /\ snd out = two_memos
  /\ collection (snd out) = collection two_memos.
Proof.
  exact (post_missing_field_rejected castText 1700001200000 "65a3"
           (Some (JObj [("summary", JStr "s")])) two_memos (or_introl eq_refl)).
Defined.

End ServerProofs.

(* ================================================================== *)
(** * Further properties of the transcription hook *)
(* ================================================================== *)

Module TranscribeEdges.
Import SpeechToText.
Import TranscribeProofs.
Import Scenarios.

#[local] Arguments get : simpl never.
#[local] Arguments terminal : simpl never.
#[local] Arguments show : simpl never.
#[local] Arguments decimal : simpl never.
#[local] Arguments poll_request : simpl never.

Section Client.
Variable api_key : string.

(** The loop goes through the waiting answers and throws at the first
    answer it cannot use; nothing is fetched after it. *)
Lemma poll_until_failure (pre : list response) :
  forall (bad : fetch_result) (e : thrown) (fuel : nat) (data td : json) (id : value)
         (w : world) (rest : list fetch_result),
    get (Some data) "id" = inr id ->
    waiting td = true ->
    forallb waiting_answer pre = true ->
    poll_error bad = Some e ->
    answers (wire w) = (map Responds pre ++ bad :: rest)%list ->
    (List.length pre < fuel)%nat ->
    poll api_key fuel data td w =
      (Throw e,
       on_wire w {| answers := rest; afterwards := afterwards (wire w);
                    events := (rev (cycles api_key id (S (List.length pre)))
                               ++ events (wire w))%list |}).
Proof.
  induction pre as [|r pre IH]; intros bad e fuel data td id w rest Hid Hw Hpre Hbad Hans Hfuel.
  - destruct fuel as [|fuel]; [simpl in Hfuel; lia|].
    destruct (waiting_reads td Hw) as [st [Hst Hnt]].
    destruct w as [it er [ans aft evs]]; simpl in Hans; subst ans.
    simpl. unfold bind at 1, lift at 1. rewrite Hst. simpl. rewrite Hnt.
    unfold bind, lift, sleep, modify. simpl. rewrite Hid. simpl.
    unfold fetch. simpl. unfold poll_error in Hbad.
    destruct bad as [r|e0]; simpl.
    + destruct (json_of r) as [e0|next]; simpl.
      * injection Hbad as ->. reflexivity.
      * destruct (get (Some next) "status") as [e0|s0] eqn:Hs; [|discriminate].
        injection Hbad as ->.
        destruct fuel; simpl; unfold bind, lift; rewrite Hs; reflexivity.
    + injection Hbad as ->. reflexivity.
  - destruct fuel as [|fuel]; [simpl in Hfuel; lia|].
    destruct (waiting_reads td Hw) as [st [Hst Hnt]].
    simpl in Hpre. apply andb_true_iff in Hpre. destruct Hpre as [Hr Hpre].
    unfold waiting_answer in Hr. destruct (parsed r) as [tdr|] eqn:Hpr; [|discriminate].
    destruct w as [it er [ans aft evs]]; simpl in Hans; subst ans.
    simpl. unfold bind at 1, lift at 1. rewrite Hst. simpl. rewrite Hnt.
    unfold bind, lift, sleep, modify. simpl. rewrite Hid. simpl.
    unfold fetch. simpl. unfold json_of. rewrite Hpr. simpl.
    rewrite (IH bad e fuel data tdr id _ rest Hid Hr Hpre Hbad).
    + unfold on_wire. simpl. unfold cycles. simpl.
      repeat rewrite <- app_assoc. reflexivity.
    + reflexivity.
    + simpl in Hfuel. lia.
Qed.

Lemma waits_rev_length (l : list event) :
  List.length (waits (rev l)) = List.length (waits l).
Proof.
  unfold waits. induction l as [|x l IH]; [reflexivity|].
  simpl. rewrite flat_map_app, !length_app, IH. simpl. destruct x; simpl; lia.
Qed.

Lemma made_after_polls (uri fileBlob : string) (audioUrl id : value) (n : nat)
    (rest : list fetch_result) (w : world) :
  made (after_polls api_key uri fileBlob audioUrl id n rest w) = (n + made w)%nat.
Proof.
  unfold made, after_polls. cbn [wire events].
  unfold waits at 1. rewrite flat_map_app, length_app.
  fold (waits (rev (cycles api_key id n))).
  rewrite waits_rev_length, waits_cycles, repeat_length. reflexivity.
Qed.

(** [transcribe] on a script whose polling meets an unusable answer. *)
Lemma transcribe_poll_failure (fuel : nat) (uri : string) (w : world)
    (blob upload submit : response) (audioUrl : value) (data : json)
    (pre : list response) (bad : fetch_result) (e : thrown)
    (rest : list fetch_result) :
  answers (wire w) =
    (map Responds (blob :: upload :: submit :: pre) ++ bad :: rest)%list ->
  uploaded upload = Some audioUrl ->
  submitted submit = Some data ->
  waiting data = true ->
  forallb waiting_answer pre = true ->
  poll_error bad = Some e ->
  (List.length pre < fuel)%nat ->
  transcribe api_key fuel uri w =
    (Ret null,
     failed (message_or "Transcription failed" e)
       (after_polls api_key uri (body blob) audioUrl (get_opt (Some data) "id")
          (S (List.length pre)) rest w)).
Proof.
  intros Hans Hup Hsub Hw Hpre Hbad Hfuel.
  destruct (waiting_reads data Hw) as [st [Hst Hnt]].
  pose proof (get_after_status data st "id" Hst) as Hid.
  unfold uploaded in Hup. destruct (ok upload) eqn:Hok; [|discriminate].
  destruct (parsed upload) as [ud|] eqn:Hpu; [|discriminate].
  destruct (get (Some ud) "upload_url") as [e0|u] eqn:Hu; [discriminate|].
  injection Hup as ->.
  unfold submitted in Hsub. destruct (ok submit) eqn:Hok2; [|discriminate].
  destruct w as [it er [ans aft evs]]; simpl in Hans; subst ans.
  rewrite transcribe_of_try.
  unfold transcribe_try, bind, setIsTranscribing, setError, modify, fetch. simpl.
  rewrite Hok. simpl. unfold lift, json_of. rewrite Hpu. simpl. rewrite Hu. simpl.
  rewrite Hok2. simpl. rewrite Hsub. simpl.
  erewrite (poll_until_failure pre bad e fuel data data _ _ rest Hid Hw Hpre Hbad);
    [|reflexivity|exact Hfuel].
  reflexivity.
Qed.

End Client.

(** X1.  A submission the service refuses ends the transcription before
    any poll: [transcribe] answers [null], clears the flag and records
    ["Transcription failed: "] followed by the HTTP status; the body of the
    refusal is not kept.  Three requests were made, no wait, and no answer
    beyond the refusal was read. *)
Theorem refused_submission_reports_status
    (api_key : string) (fuel : nat) (uri : string) (w : world)
    (blob upload submit : response) (audioUrl : value) (rest : list fetch_result) :
  answers (wire w) = Responds blob :: Responds upload :: Responds submit :: rest ->
  uploaded upload = Some audioUrl ->
  ok submit = false ->
  let out := transcribe api_key fuel uri w in
  fst out = Ret null
  /\ error (snd out) = Some ("Transcription failed: " ++ decimal (status submit))
  /\ isTranscribing (snd out) = false
  /\ history (wire (snd out)) =
       (history (wire w)
        ++ [Fetched (blob_request uri);
            Fetched (upload_request api_key (body blob));
            Fetched (submit_request api_key audioUrl)])%list
  /\ answers (wire (snd out)) = rest.
Proof.
  intros Hans Hup Hok out. subst out.
  rewrite transcribe_of_try.
  rewrite (submit_refused api_key fuel uri w blob upload submit audioUrl rest Hans Hup Hok).
  unfold failed, history. cbn [fst snd wire error isTranscribing events answers].
  repeat split. simpl. rewrite <- !app_assoc. reflexivity.
Qed.

(** An upload answer without [upload_url]: the job is submitted with an
    empty body, and the refusal is reported by its status alone. *)
Lemma submission_without_locator :
  let upload := answer (JObj [("message", JStr "stored")]) in
  let refusal := {| ok := false; status := 400;
                    body := "audio_url is required"; parsed := None |} in
  let w := facing [Responds (answer JNull); Responds upload; Responds refusal]
             still_processing in
  let out := transcribe "key" 3 "file:///take.m4a" w in
  sent (submit_request "key" undefined) = Json (JObj [])
  /\ fst out = Ret null
  /\ error (snd out) = Some "Transcription failed: 400"
  /\ requests (history (wire (snd out))) =
       [blob_request "file:///take.m4a"; upload_request "key" "";
        submit_request "key" undefined].
Proof.
  intros upload refusal w out.
  pose proof (refused_submission_reports_status "key" 3 "file:///take.m4a" w
                (answer JNull) upload refusal undefined [] eq_refl eq_refl eq_refl) as H.
  cbv zeta in H. fold out in H. destruct H as [H1 [H2 [_ [H4 _]]]].
  split; [reflexivity|]. split; [exact H1|]. split; [exact H2|].
  rewrite H4. reflexivity.
Defined.

(** X2.  The loop has no bound: while every poll answers a status that is
    neither [completed] nor [error], [transcribe] is still pending after any
    number of polls, [isTranscribing] stays [true], and each unit of fuel
    went into one more poll. *)
Theorem transcribe_never_gives_up
    (api_key : string) (fuel : nat) (uri : string) (w : world)
    (blob upload submit : response) (audioUrl : value) (data : json) (r : response) :
  answers (wire w) = [Responds blob; Responds upload; Responds submit] ->
  afterwards (wire w) = Responds r ->
  uploaded upload = Some audioUrl ->
  submitted submit = Some data ->
  waiting data = true ->
  waiting_answer r = true ->
  let out := transcribe api_key fuel uri w in
  fst out = Pending
  /\ isTranscribing (snd out) = true
  /\ made (snd out) = (fuel + made w)%nat.
Proof.
  intros Hans Haft Hup Hsub Hw Hr out. subst out.
  destruct (waiting_reads data Hw) as [st [Hst Hnt]].
  pose proof (get_after_status data st "id" Hst) as Hid.
  unfold uploaded in Hup. destruct (ok upload) eqn:Hok; [|discriminate].
  destruct (parsed upload) as [ud|] eqn:Hpu; [|discriminate].
  destruct (get (Some ud) "upload_url") as [e|u] eqn:Hu; [discriminate|].
  injection Hup as ->.
  unfold submitted in Hsub. destruct (ok submit) eqn:Hok2; [|discriminate].
  destruct w as [it er [ans aft evs]]; simpl in Hans, Haft; subst ans aft.
  rewrite transcribe_of_try.
  unfold transcribe_try, bind, setIsTranscribing, setError, modify, fetch. simpl.
  rewrite Hok. simpl. unfold lift, json_of. rewrite Hpu. simpl. rewrite Hu. simpl.
  rewrite Hok2. simpl. rewrite Hsub. simpl.
  match goal with |- context [poll api_key fuel data data ?w1] =>
    pose proof (poll_never_settles api_key fuel data data _ w1 r Hid Hw eq_refl eq_refl Hr)
      as Hpend;
    pose proof (poll_frame api_key fuel data data w1) as Hframe;
    destruct (poll api_key fuel data data w1) as [o w']
  end.
  simpl in Hpend. subst o. simpl in Hframe. destruct Hframe as [H1 [_ H3]].
  simpl. split; [reflexivity|]. split; [exact H1|].
  rewrite H3. unfold made. simpl. reflexivity.
Qed.

(** A job that stays [processing]: pending after 50 polls as after 1. *)
Lemma still_processing_after_fifty_polls :
  let w := facing [Responds (answer JNull);
                   Responds (answer (JObj [("upload_url", JStr "https://cdn/u1")]));
                   Responds (answer (job "j1" "queued" []))] still_processing in
  fst (transcribe "key" 50 "file:///take.m4a" w) = Pending
  /\ isTranscribing (snd (transcribe "key" 50 "file:///take.m4a" w)) = true
  /\ made (snd (transcribe "key" 50 "file:///take.m4a" w)) = 50%nat.
Proof.
  intros w.
  exact (transcribe_never_gives_up "key" 50 "file:///take.m4a" w
           (answer JNull) (answer (JObj [("upload_url", JStr "https://cdn/u1")]))
           (answer (job "j1" "queued" [])) (Some (JStr "https://cdn/u1"))
           (job "j1" "queued" []) (answer (job "j1" "processing" []))
           eq_refl eq_refl eq_refl eq_refl eq_refl eq_refl).
Defined.

(** X3.  A poll that cannot be used (the fetch is rejected, the body is not
    JSON, or the body is [null]) ends the transcription at once: after the
    waiting answers before it, [transcribe] answers [null] with the message
    of what was thrown recorded, and reads no further answer; there is no
    retry. *)
Theorem failed_poll_ends_transcription
    (api_key : string) (fuel : nat) (uri : string) (w : world)
    (blob upload submit : response) (audioUrl : value) (data : json)
    (pre : list response) (bad : fetch_result) (e : thrown)
    (rest : list fetch_result) :
  answers (wire w) =
    (map Responds (blob :: upload :: submit :: pre) ++ bad :: rest)%list ->
  uploaded upload = Some audioUrl ->
  submitted submit = Some data ->
  waiting data = true ->
  forallb waiting_answer pre = true ->
  poll_error bad = Some e ->
  (List.length pre < fuel)%nat ->
  let out := transcribe api_key fuel uri w in
  fst out = Ret null
  /\ error (snd out) = Some (message_or "Transcription failed" e)
  /\ isTranscribing (snd out) = false
  /\ made (snd out) = (S (List.length pre) + made w)%nat
  /\ answers (wire (snd out)) = rest.
Proof.
  intros Hans Hup Hsub Hw Hpre Hbad Hfuel out. subst out.
  rewrite (transcribe_poll_failure api_key fuel uri w blob upload submit audioUrl data
             pre bad e rest Hans Hup Hsub Hw Hpre Hbad Hfuel).
  cbn [fst snd]. unfold failed. cbn [error isTranscribing wire].
  split; [reflexivity|]. split; [reflexivity|]. split; [reflexivity|].
  split; [|reflexivity].
  rewrite <- (made_after_polls api_key uri (body blob) audioUrl
                (get_opt (Some data) "id") (S (List.length pre)) rest w).
  reflexivity.
Qed.

(** The network drops at the second poll. *)
Lemma dropped_connection_mid_poll :
  let w := facing [Responds (answer JNull);
                   Responds (answer (JObj [("upload_url", JStr "https://cdn/u1")]));
                   Responds (answer (job "j1" "queued" []));
                   Responds (answer (job "j1" "processing" []));
                   Rejects (ErrorObj "TypeError" "Network request failed");
                   Responds (answer (job "j1" "completed" [("text", JStr "late")]))]
             still_processing in
  let out := transcribe "key" 5 "file:///take.m4a" w in
  fst out = Ret null
  /\ error (snd out) = Some "Network request failed"
  /\ made (snd out) = 2%nat
  /\ answers (wire (snd out))
     = [Responds (answer (job "j1" "completed" [("text", JStr "late")]))].
Proof.
  intros w out.
  assert (Hfuel : (List.length [answer (job "j1" "processing" [])] < 5)%nat)
    by (simpl; lia).
  pose proof (failed_poll_ends_transcription "key" 5 "file:///take.m4a" w
                (answer JNull) (answer (JObj [("upload_url", JStr "https://cdn/u1")]))
                (answer (job "j1" "queued" [])) (Some (JStr "https://cdn/u1"))
                (job "j1" "queued" []) [answer (job "j1" "processing" [])]
                (Rejects (ErrorObj "TypeError" "Network request failed"))
                (ErrorObj "TypeError" "Network request failed")
                [Responds (answer (job "j1" "completed" [("text", JStr "late")]))]
                eq_refl eq_refl eq_refl eq_refl eq_refl eq_refl Hfuel) as H.
  cbv zeta in H. fold out in H. destruct H as [H1 [H2 [_ [H4 H5]]]].
  split; [exact H1|]. split; [exact H2|]. split; [exact H4|exact H5].
Defined.

End TranscribeEdges.

(* ================================================================== *)
(** * Further properties of the recording hook *)
(* ================================================================== *)

Module RecordingEdges.
Import AudioRecording.
Import RecordingProofs.
Import Scenarios.
#[local] Open Scope list_scope.

Lemma existsb_snoc (l : list bool) (b : bool) :
  existsb (fun live => live) (l ++ [b]) = existsb (fun live => live) l || b.
Proof. rewrite existsb_app. simpl. rewrite orb_false_r. reflexivity. Qed.

Lemma stop_track_last (l : list bool) (b : bool) :
  stop_track (List.length l) (l ++ [b]) = l ++ [false].
Proof. induction l as [|t l IH]; simpl; [reflexivity|]. rewrite IH. reflexivity. Qed.

Lemma stop_track_other (i j : nat) (l : list bool) :
  i <> j -> nth_error (stop_track j l) i = nth_error l i.
Proof.
  revert i j. induction l as [|t l IH]; intros i j H; simpl.
  - destruct j; reflexivity.
  - destruct j; destruct i; simpl; try reflexivity; [contradiction|].
    apply IH. intros ->. apply H. reflexivity.
Qed.

Lemma nth_error_live_held (l : list bool) (i : nat) :
  nth_error l i = Some true -> existsb (fun live => live) l = true.
Proof.
  intros H. apply existsb_exists. exists true. split; [|reflexivity].
  eapply nth_error_In. exact H.
Qed.

(** Unfolds a call of [startRecording] down to the answers of the
    platform. *)
Ltac start_steps :=
  unfold startRecording, try_catch, startRecording_try, startRecording_catch,
    navigator_getUserMedia, Audio_requestPermissionsAsync, Audio_setAudioModeAsync,
    Audio_Recording_createAsync, bind, gets, modify, lift, answered;
  simpl.

(** X4.  When [startRecording] returns normally, either the recording is
    on (the flag is set, the microphone is held, and the hook keeps the
    recorder: on the web an active [MediaRecorder] on a live track with no
    chunks yet, on a phone the [Recording] created) or, on a phone only, the
    permission was not granted: then an alert ["Permission denied"] is all
    that happened, the platform having answered the request. *)
Theorem startRecording_normal_return (w w' : world) :
  startRecording w = (Ret tt, w') ->
  (isRecording w' = true /\ device_held w' = true /\
   ((OS (env w) = Web /\
     mediaRecorderRef w' = Some {| stream := List.length (tracks w); active := true |}
     /\ tracks w' = tracks w ++ [true] /\ audioChunksRef w' = [])
    \/ (OS (env w) = Native /\ recorderLoaded w' = true /\
        exists r, createAsync (env w) = inr r /\ recording w' = Some r)))
  \/ (OS (env w) = Native /\ w' = shown permission_denied (answered 1 w) /\
      exists st, requestPermissionsAsync (env w) (asked w) = inr st
                 /\ st <> "granted").
Proof.
  open_world w. start_steps.
  destruct (OS e) eqn:Hos; simpl.
  - destruct (mediaDevices e); simpl; [|rewrite Hos; discriminate].
    destruct (insecure_origin e); simpl; [rewrite Hos; discriminate|].
    destruct (getUserMedia e ask); simpl; [rewrite Hos; discriminate|].
    destruct (newMediaRecorder e); simpl; [rewrite Hos; discriminate|].
    destruct (start e); simpl; [rewrite Hos; discriminate|].
    intros H. injection H as <-. left. simpl.
    split; [reflexivity|]. split.
    + unfold device_held. simpl. rewrite existsb_snoc. rewrite orb_true_r. reflexivity.
    + left. repeat split.
  - destruct (requestPermissionsAsync e ask) as [err|st] eqn:Hperm; simpl;
      [rewrite Hos; discriminate|].
    destruct (st =? "granted") eqn:Hst; simpl.
    + destruct (setAudioModeAsync e); simpl; [rewrite Hos; discriminate|].
      destruct (createAsync e) as [err|r]; simpl; [rewrite Hos; discriminate|].
      intros H. injection H as <-. left. simpl.
      split; [reflexivity|]. split.
      * unfold device_held. simpl. apply orb_true_r.
      * right. repeat split. exists r. split; reflexivity.
    + intros H. injection H as <-. right.
      split; [reflexivity|]. split; [reflexivity|].
      exists st. split; [reflexivity|].
      intros ->. discriminate Hst.
Qed.

(** A phone without the permission: [startRecording] returns normally,
    nothing records. *)
Lemma denied_start_returns_quietly :
  let w := initial denied_phone in
  OS (env w) = Native
  /\ snd (startRecording w) = shown permission_denied (answered 1 w)
  /\ isRecording (snd (startRecording w)) = false
  /\ device_held (snd (startRecording w)) = false.
Proof.
  intros w.
  destruct (startRecording_normal_return w (snd (startRecording w)) eq_refl)
    as [[H _]|[H1 [H2 _]]].
  - discriminate H.
  - split; [exact H1|]. split; [exact H2|]. rewrite H2. split; reflexivity.
Defined.

(** X5.  [startRecording] never stays pending, and it throws exactly when
    one of its steps does: a guard of the browser, the request for the
    stream, the construction of the recorder, its [start], or on a phone
    the request for the permission, the audio mode, the creation of the
    recording.  What it throws is a fresh [Error] whose message is read off
    what that step threw (a fixed sentence for [NotFoundError],
    [NotAllowedError], [NotSupportedError] and [NotReadableError], the
    original message of another [Error], ["Failed to start recording"]
    otherwise).  The flag and the recording of the hook are as before; the
    recorder the hook keeps is as before too, unless it was [start] that
    threw: then the new recorder, inactive, is kept over a live track.  On
    the web one alert ["Recording Error"] with that message was shown, on a
    phone none. *)
Theorem startRecording_failure_report (w : world) :
  fst (startRecording w) <> Pending
  /\ (forall cause,
        start_failure w cause ->
        fst (startRecording w) = Throw (Error (start_error_message cause)))
  /\ (forall e w',
        startRecording w = (Throw e, w') ->
        exists cause,
          start_failure w cause
          /\ e = Error (start_error_message cause)
          /\ isRecording w' = isRecording w
          /\ recording w' = recording w
          /\ (web_ready w -> newMediaRecorder (env w) = None ->
              start (env w) = Some cause
              /\ mediaRecorderRef w'
                 = Some {| stream := List.length (tracks w); active := false |}
              /\ audioChunksRef w' = []
              /\ tracks w' = tracks w ++ [true])
          /\ (~ (web_ready w /\ newMediaRecorder (env w) = None) ->
              mediaRecorderRef w' = mediaRecorderRef w
              /\ audioChunksRef w' = audioChunksRef w)
          /\ alerts w' =
               match OS (env w) with
               | Web => Screen.recording_error (start_error_message cause) :: alerts w
               | Native => alerts w
               end).
Proof.
  split; [|split].
  - open_world w. start_steps.
    destruct (OS e) eqn:Hos; simpl.
    + destruct (mediaDevices e); simpl; [|rewrite Hos; discriminate].
      destruct (insecure_origin e); simpl; [rewrite Hos; discriminate|].
      destruct (getUserMedia e ask); simpl; [rewrite Hos; discriminate|].
      destruct (newMediaRecorder e); simpl; [rewrite Hos; discriminate|].
      destruct (start e); simpl; [rewrite Hos; discriminate|discriminate].
    + destruct (requestPermissionsAsync e ask) as [err|st]; simpl;
        [rewrite Hos; discriminate|].
      destruct (st =? "granted"); simpl; [|discriminate].
      destruct (setAudioModeAsync e); simpl; [rewrite Hos; discriminate|].
      destruct (createAsync e); simpl; [rewrite Hos; discriminate|discriminate].
  - intros cause Hfail.
    destruct Hfail as [Hos Hmd|Hos Hmd Hsec|cause Hos Hmd Hsec Hgum
                      |cause [Hos [Hmd [Hsec Hgum]]] Hctor
                      |cause [Hos [Hmd [Hsec Hgum]]] Hctor Hstart
                      |cause Hos Hperm|cause Hos Hperm Hmode
                      |cause Hos Hperm Hmode Hcreate];
      open_world w; start_steps; rewrite Hos; simpl.
    + rewrite Hmd. simpl. rewrite Hos. reflexivity.
    + rewrite Hmd, Hsec. simpl. rewrite Hos. reflexivity.
    + rewrite Hmd, Hsec. simpl. rewrite Hgum. simpl. rewrite Hos. reflexivity.
    + rewrite Hmd, Hsec. simpl. rewrite Hgum. simpl. rewrite Hctor. simpl.
      rewrite Hos. reflexivity.
    + rewrite Hmd, Hsec. simpl. rewrite Hgum. simpl. rewrite Hctor. simpl.
      rewrite Hstart. simpl. rewrite Hos. reflexivity.
    + rewrite Hperm. simpl. rewrite Hos. reflexivity.
    + rewrite Hperm. simpl. rewrite Hmode. simpl. rewrite Hos. reflexivity.
    + rewrite Hperm. simpl. rewrite Hmode. simpl. rewrite Hcreate. simpl.
      rewrite Hos. reflexivity.
  - intros e0 w'. open_world w. unfold web_ready. simpl. start_steps.
    destruct (OS e) eqn:Hos; simpl.
    + destruct (mediaDevices e) eqn:Hmd; simpl.
      2:{ rewrite Hos. simpl. intros H. injection H as <- <-.
          exists (Error "Media devices not supported in this browser").
          split; [apply NoMediaDevices; assumption|].
          simpl. repeat (split; [reflexivity|]).
          split; [intros [_ [Hx _]]; discriminate Hx|].
          split; [intros _; split; reflexivity|reflexivity]. }
      destruct (insecure_origin e) eqn:Hsec; simpl.
      { rewrite Hos. simpl. intros H. injection H as <- <-.
        exists (Error "Microphone access requires HTTPS or localhost").
        split; [apply InsecureOrigin; assumption|].
        simpl. repeat (split; [reflexivity|]).
        split; [intros [_ [_ [Hx _]]]; discriminate Hx|].
        split; [intros _; split; reflexivity|reflexivity]. }
      destruct (getUserMedia e ask) as [cause|] eqn:Hgum; simpl.
      { rewrite Hos. simpl. intros H. injection H as <- <-.
        exists cause.
        split; [apply StreamRefused; assumption|].
        simpl. repeat (split; [reflexivity|]).
        split; [intros [_ [_ [_ Hx]]]; discriminate Hx|].
        split; [intros _; split; reflexivity|reflexivity]. }
      destruct (newMediaRecorder e) as [cause|] eqn:Hctor; simpl.
      { rewrite Hos. simpl. intros H. injection H as <- <-.
        exists cause.
        split; [apply RecorderNotMade; [repeat split; assumption|assumption]|].
        simpl. repeat (split; [reflexivity|]).
        split; [intros _ Hx; discriminate Hx|].
        split; [intros _; split; reflexivity|reflexivity]. }
      destruct (start e) as [cause|] eqn:Hstart; simpl; [|discriminate].
      rewrite Hos. simpl. intros H. injection H as <- <-.
      exists cause.
      split; [apply RecorderNotStarted; [repeat split; assumption|assumption..]|].
      simpl. repeat (split; [reflexivity|]).
      split; [intros _ _; repeat split|].
      split; [|reflexivity].
      intros Hnot. exfalso. apply Hnot. repeat split; assumption.
    + destruct (requestPermissionsAsync e ask) as [cause|st] eqn:Hperm; simpl.
      { rewrite Hos. simpl. intros H. injection H as <- <-.
        exists cause.
        split; [apply PermissionRequestFailed; assumption|].
        simpl. repeat (split; [reflexivity|]).
        split; [intros [Hx _]; discriminate Hx|].
        split; [intros _; split; reflexivity|reflexivity]. }
      destruct (st =? "granted") eqn:Hst; simpl; [|discriminate].
      apply String.eqb_eq in Hst. subst st.
      destruct (setAudioModeAsync e) as [cause|] eqn:Hmode; simpl.
      { rewrite Hos. simpl. intros H. injection H as <- <-.
        exists cause.
        split; [apply AudioModeNotSet; assumption|].
        simpl. repeat (split; [reflexivity|]).
        split; [intros [Hx _]; discriminate Hx|].
        split; [intros _; split; reflexivity|reflexivity]. }
      destruct (createAsync e) as [cause|r] eqn:Hcreate; simpl; [|discriminate].
      rewrite Hos. simpl. intros H. injection H as <- <-.
      exists cause.
      split; [apply RecordingNotCreated; assumption|].
      simpl. repeat (split; [reflexivity|]).
      split; [intros [Hx _]; discriminate Hx|].
      split; [intros _; split; reflexivity|reflexivity].
Qed.

(** A refused microphone in the browser, and a recorder that refuses to
    start. *)
Lemma refused_microphone_message :
  (let w := initial refusing_browser in
   fst (startRecording w)
     = Throw (Error "Microphone access denied. Please allow microphone access and try again.")
   /\ alerts (snd (startRecording w))
      = [Screen.recording_error
           "Microphone access denied. Please allow microphone access and try again."]
   /\ mediaRecorderRef (snd (startRecording w)) = None)
  /\
  (let w := initial no_start in
   fst (startRecording w)
     = Throw (Error "Audio recording not supported in this browser.")
   /\ mediaRecorderRef (snd (startRecording w)) = Some {| stream := 0; active := false |}
   /\ device_held (snd (startRecording w)) = true
   /\ fst (stopRecording (snd (startRecording w)))
      = Throw (ErrorObj "InvalidStateError" "The MediaRecorder's state is 'inactive'.")).
Proof.
  split.
  - intros w.
    destruct (startRecording_failure_report w) as [_ [Hthrow _]].
    assert (Hfail : start_failure w (ErrorObj "NotAllowedError" "Permission denied")).
    { apply StreamRefused; reflexivity. }
    split; [exact (Hthrow _ Hfail)|]. split; reflexivity.
  - intros w.
    destruct (startRecording_failure_report w) as [_ [Hthrow _]].
    assert (Hfail : start_failure w
                      (ErrorObj "NotSupportedError" "The stream cannot be recorded")).
    { apply RecorderNotStarted; [repeat split|reflexivity|reflexivity]. }
    split; [exact (Hthrow _ Hfail)|]. repeat split.
Defined.

(** X6.  On the web, when the stream is granted and the construction of
    the [MediaRecorder] throws, [startRecording] fails with the track of the
    stream still live and no recorder kept: the microphone stays held, and
    [stopRecording], finding no recorder, answers [null] and leaves it
    held. *)
Theorem failed_recorder_leaves_stream_live (w : world) (cause : thrown) :
  web_ready w ->
  newMediaRecorder (env w) = Some cause ->
  mediaRecorderRef w = None ->
  let w' := snd (startRecording w) in
  fst (startRecording w) = Throw (Error (start_error_message cause))
  /\ tracks w' = tracks w ++ [true]
  /\ device_held w' = true
  /\ isRecording w' = isRecording w
  /\ mediaRecorderRef w' = None
  /\ fst (stopRecording w') = Ret null
  /\ device_held (snd (stopRecording w')) = true.
Proof.
  intros [Hos [Hmd [Hsec Hgum]]] Hctor Href w'. subst w'.
  open_world w. subst ref. start_steps.
  rewrite Hos, Hmd, Hsec. simpl. rewrite Hgum. simpl.
  rewrite Hctor. simpl. rewrite Hos. simpl.
  assert (Hheld : existsb (fun live => live) (trk ++ [true]) || loaded = true).
  { rewrite existsb_snoc, orb_true_r. reflexivity. }
  split; [reflexivity|]. split; [reflexivity|].
  split; [exact Hheld|]. split; [reflexivity|]. split; [reflexivity|].
  unfold stopRecording, try_catch, stopRecording_try, bind, gets. simpl.
  rewrite Hos. simpl. split; [reflexivity|exact Hheld].
Qed.

(** A browser that cannot construct the recorder. *)
Lemma unsupported_recorder_holds_microphone :
  let w := initial no_recorder in
  let w' := snd (startRecording w) in
  fst (startRecording w) = Throw (Error "Audio recording not supported in this browser.")
  /\ device_held w = false
  /\ device_held w' = true
  /\ device_held (snd (stopRecording w')) = true.
Proof.
  intros w w'.
  assert (Hready : web_ready w) by (repeat split).
  pose proof (failed_recorder_leaves_stream_live w
                (ErrorObj "NotSupportedError" "mimeType is not supported")
                Hready eq_refl eq_refl) as H.
  cbv zeta in H. destruct H as [H1 [_ [H3 [_ [_ [_ H7]]]]]].
  split; [exact H1|]. split; [reflexivity|]. split; [exact H3|exact H7].
Defined.

(** [stopRecording] leaves the platform as it is. *)
Lemma stopRecording_env (x : world) : env (snd (stopRecording x)) = env x.
Proof.
  open_world x.
  unfold stopRecording, try_catch, stopRecording_try, bind, gets. simpl.
  destruct (OS e).
  - destruct ref as [mr|]; simpl; [|reflexivity].
    unfold stop_promise. destruct (active mr); simpl; [|reflexivity].
    unfold bind, setMediaRecorderRef, modify, gets. simpl.
    match goal with |- context [deliver ?b ?w1] =>
      destruct (deliver_frame b w1) as [c Hc] end.
    simpl in Hc. rewrite Hc. simpl. unfold onstop. simpl.
    destruct (createObjectURL e); reflexivity.
  - destruct rec as [r|]; simpl; [|reflexivity].
    unfold Recording_stopAndUnloadAsync, bind, gets. simpl.
    destruct (stopAndUnloadAsync e); simpl; try reflexivity.
    unfold Audio_setAudioModeAsync, bind, gets. simpl.
    destruct (setAudioModeAsync e); reflexivity.
Qed.

(** [startRecording] in a browser in which every step goes well. *)
Lemma startRecording_web_world (w : world) :
  web_ready w ->
  newMediaRecorder (env w) = None ->
  start (env w) = None ->
  startRecording w =
    (Ret tt,
     {| recording := recording w; isRecording := true;
        mediaRecorderRef := Some {| stream := List.length (tracks w); active := true |};
        audioChunksRef := []; tracks := tracks w ++ [true];
        recorderLoaded := recorderLoaded w; objectURLs := objectURLs w;
        alerts := alerts w; asked := S (asked w); env := env w |}).
Proof.
  intros [Hos [Hmd [Hsec Hgum]]] Hctor Hstart.
  open_world w. start_steps.
  rewrite Hos, Hmd, Hsec. simpl. rewrite Hgum. simpl.
  rewrite Hctor. simpl. rewrite Hstart. reflexivity.
Qed.

(** X7.  [startRecording] does not look at a recording already under way.
    On the web a second start replaces the recorder the hook keeps; the
    track of the first stream is then out of reach: [stopRecording] stops
    the new track only, and the microphone stays held with no recorder left
    to stop. *)
Theorem second_start_orphans_first_stream
    (w : world) (first : MediaRecorder) (u : string) :
  web_ready w ->
  newMediaRecorder (env w) = None ->
  start (env w) = None ->
  createObjectURL (env w) = inr u ->
  mediaRecorderRef w = Some first ->
  nth_error (tracks w) (stream first) = Some true ->
  let w1 := snd (startRecording w) in
  let w2 := snd (stopRecording w1) in
  fst (startRecording w) = Ret tt
  /\ mediaRecorderRef w1 = Some {| stream := List.length (tracks w); active := true |}
  /\ fst (stopRecording w1) = Ret (Some (JStr u))
  /\ nth_error (tracks w2) (stream first) = Some true
  /\ device_held w2 = true
  /\ mediaRecorderRef w2 = None
  /\ stopRecording w2 = (Ret null, w2).
Proof.
  intros Hready Hctor Hgo Hurl Href Hlive w1 w2.
  assert (Hos : OS (env w) = Web) by (destruct Hready as [H _]; exact H).
  assert (Hlt : (stream first < List.length (tracks w))%nat).
  { apply nth_error_Some. rewrite Hlive. discriminate. }
  pose proof (startRecording_web_world w Hready Hctor Hgo) as Hstart.
  assert (Hw1 : w1 = snd (startRecording w)) by reflexivity.
  rewrite Hstart in Hw1. simpl in Hw1.
  assert (Hos1 : OS (env w1) = Web) by (rewrite Hw1; exact Hos).
  assert (Href1 : mediaRecorderRef w1
                  = Some {| stream := List.length (tracks w); active := true |})
    by (rewrite Hw1; reflexivity).
  assert (Hurl1 : createObjectURL (env w1) = inr u) by (rewrite Hw1; exact Hurl).
  destruct (stopRecording_web_releases w1
              {| stream := List.length (tracks w); active := true |} u
              Hos1 Href1 eq_refl Hurl1)
    as [Hs1 [Hs2 [Hs3 Hs4]]].
  fold w2 in Hs2, Hs3, Hs4.
  assert (Htr : tracks w2 = tracks w ++ [false]).
  { rewrite Hs2, Hw1. simpl. apply stop_track_last. }
  assert (Hnth : nth_error (tracks w2) (stream first) = Some true).
  { rewrite Htr. rewrite nth_error_app1 by exact Hlt. exact Hlive. }
  split; [rewrite Hstart; reflexivity|].
  split; [rewrite Hw1; reflexivity|].
  split; [exact Hs1|]. split; [exact Hnth|].
  split; [unfold device_held; rewrite (nth_error_live_held _ _ Hnth); reflexivity|].
  split; [exact Hs4|].
  assert (Henv : OS (env w2) = Web).
  { subst w2. rewrite stopRecording_env, Hw1. exact Hos. }
  clear - Henv Hs4. destruct w2 as [rec isRec ref chunks trk loaded urls alrt ask e].
  simpl in *. subst ref.
  unfold stopRecording, try_catch, stopRecording_try, bind, gets. simpl.
  rewrite Henv. reflexivity.
Qed.

(** Two starts in a row in a browser, then a stop. *)
Lemma double_start_keeps_microphone :
  let w := snd (startRecording (initial browser)) in
  let w2 := snd (stopRecording (snd (startRecording w))) in
  fst (stopRecording (snd (startRecording w)))
    = Ret (Some (JStr "blob:https://app.example/1"))
  /\ tracks w2 = [true; false]
  /\ device_held w2 = true
  /\ stopRecording w2 = (Ret null, w2).
Proof.
  intros w w2.
  assert (Hready : web_ready w) by (repeat split).
  pose proof (second_start_orphans_first_stream w {| stream := 0; active := true |}
                "blob:https://app.example/1" Hready eq_refl eq_refl eq_refl eq_refl
                eq_refl) as H.
  cbv zeta in H. destruct H as [_ [_ [H3 [_ [H5 [_ H7]]]]]].
  split; [exact H3|]. split; [reflexivity|]. split; [exact H5|exact H7].
Defined.

End RecordingEdges.

Module RecordingTrips.
Import AudioRecording.
Import RecordingProofs.
Import RecordingEdges.
Import Scenarios.
#[local] Open Scope list_scope.

Lemma deliver_kept (blobs : list string) :
  forall w,
    deliver blobs w =
      (Ret tt,
       {| recording := recording w; isRecording := isRecording w;
          mediaRecorderRef := mediaRecorderRef w;
          audioChunksRef := audioChunksRef w ++ kept blobs;
          tracks := tracks w; recorderLoaded := recorderLoaded w;
          objectURLs := objectURLs w; alerts := alerts w;
          asked := asked w; env := env w |}).
Proof.
  induction blobs as [|b blobs IH]; intros w.
  - simpl. rewrite app_nil_r. destruct w; reflexivity.
  - simpl. unfold bind at 1. unfold ondataavailable.
    destruct (0 <? String.length b)%nat.
    + unfold bind, gets, setAudioChunksRef, modify. simpl.
      rewrite IH. simpl. rewrite <- app_assoc. reflexivity.
    + unfold ret. rewrite IH. reflexivity.
Qed.

(** The web path of [stopRecording] when the reference is extracted. *)
Lemma stopRecording_web_world (w : world) (mr : MediaRecorder) (u : string) :
  OS (env w) = Web ->
  mediaRecorderRef w = Some mr ->
  active mr = true ->
  createObjectURL (env w) = inr u ->
  stopRecording w =
    (Ret (Some (JStr u)),
     {| recording := recording w; isRecording := false;
        mediaRecorderRef := None; audioChunksRef := [];
        tracks := stop_track (stream mr) (tracks w);
        recorderLoaded := recorderLoaded w;
        objectURLs :=
          (u, audioChunksRef w ++ kept (dataavailable (env w))) :: objectURLs w;
        alerts := alerts w; asked := asked w; env := env w |}).
Proof.
  intros Hos Href Hact Hurl.
  open_world w. subst ref.
  unfold stopRecording, try_catch, stopRecording_try, bind, gets. simpl.
  rewrite Hos. simpl. unfold stop_promise. rewrite Hact. simpl.
  unfold bind, setMediaRecorderRef, modify, gets. simpl.
  rewrite deliver_kept. simpl.
  unfold onstop. simpl. rewrite Hurl.
  reflexivity.
Qed.

(** X8.  A recording in a working browser, from start to stop: [stop]
    answers the object URL, which names the blob of the data chunks of
    positive size in the order they came; afterwards the flag is off, the
    hook keeps no recorder and no chunks, the microphone is held as before
    the start, and a further [stopRecording] answers [null] and changes
    nothing. *)
Theorem web_start_stop_round_trip (w : world) (u : string) :
  web_ready w ->
  newMediaRecorder (env w) = None ->
  start (env w) = None ->
  createObjectURL (env w) = inr u ->
  let w1 := snd (startRecording w) in
  let w2 := snd (stopRecording w1) in
  fst (startRecording w) = Ret tt
  /\ fst (stopRecording w1) = Ret (Some (JStr u))
  /\ objectURLs w2 = (u, kept (dataavailable (env w))) :: objectURLs w
  /\ isRecording w2 = false
  /\ mediaRecorderRef w2 = None
  /\ audioChunksRef w2 = []
  /\ tracks w2 = tracks w ++ [false]
  /\ device_held w2 = device_held w
  /\ stopRecording w2 = (Ret null, w2).
Proof.
  intros Hready Hctor Hgo Hurl w1 w2. subst w2 w1.
  rewrite (startRecording_web_world w Hready Hctor Hgo). cbn [fst snd].
  destruct Hready as [Hos _].
  erewrite stopRecording_web_world;
    [|exact Hos|reflexivity|reflexivity|exact Hurl].
  cbn [fst snd stream recording isRecording mediaRecorderRef audioChunksRef tracks
       recorderLoaded objectURLs alerts asked env app].
  rewrite stop_track_last.
  split; [reflexivity|]. split; [reflexivity|]. split; [reflexivity|].
  split; [reflexivity|]. split; [reflexivity|]. split; [reflexivity|].
  split; [reflexivity|].
  split.
  { unfold device_held. cbn [tracks recorderLoaded].
    rewrite existsb_snoc, orb_false_r. reflexivity. }
  unfold stopRecording, try_catch, stopRecording_try, bind, gets. simpl.
  rewrite Hos. reflexivity.
Qed.

(** The browser of the scripts: the empty data event is dropped. *)
Lemma browser_take_round_trip :
  let w1 := snd (startRecording (initial browser)) in
  let w2 := snd (stopRecording w1) in
  fst (stopRecording w1) = Ret (Some (JStr "blob:https://app.example/1"))
  /\ objectURLs w2 = [("blob:https://app.example/1", ["OggS1"; "OggS2"])]
  /\ device_held w2 = false
  /\ stopRecording w2 = (Ret null, w2).
Proof.
  intros w1 w2.
  assert (Hready : web_ready (initial browser)) by (repeat split).
  pose proof (web_start_stop_round_trip (initial browser) "blob:https://app.example/1"
                Hready eq_refl eq_refl eq_refl) as H.
  cbv zeta in H. destruct H as [_ [H2 [H3 [_ [_ [_ [_ [H8 H9]]]]]]]].
  split; [exact H2|]. split; [exact H3|]. split; [exact H8|exact H9].
Defined.

Lemma startRecording_native_world (w : world) (r : Recording) :
  phone_ready w r ->
  startRecording w =
    (Ret tt,
     {| recording := Some r; isRecording := true;
        mediaRecorderRef := mediaRecorderRef w; audioChunksRef := audioChunksRef w;
        tracks := tracks w; recorderLoaded := true; objectURLs := objectURLs w;
        alerts := alerts w; asked := S (asked w); env := env w |}).
Proof.
  intros [Hos [Hperm [Hmode [Hcreate Hunload]]]].
  open_world w. start_steps.
  rewrite Hos. simpl. rewrite Hperm. simpl. rewrite Hmode. simpl.
  rewrite Hcreate. reflexivity.
Qed.

Lemma stopRecording_native_world (w : world) (r : Recording) :
  OS (env w) = Native ->
  recording w = Some r ->
  stopAndUnloadAsync (env w) = Unloads ->
  setAudioModeAsync (env w) = None ->
  stopRecording w =
    (Ret (match getURI r with Some uri => Some (JStr uri) | None => null end),
     {| recording := None; isRecording := false;
        mediaRecorderRef := mediaRecorderRef w; audioChunksRef := audioChunksRef w;
        tracks := tracks w; recorderLoaded := false; objectURLs := objectURLs w;
        alerts := alerts w; asked := asked w; env := env w |}).
Proof.
  intros Hos Hrec Hun Hmode.
  open_world w. subst rec.
  unfold stopRecording, try_catch, stopRecording_try, bind, gets. simpl.
  rewrite Hos. simpl.
  unfold Recording_stopAndUnloadAsync, bind, gets. simpl. rewrite Hun. simpl.
  unfold Audio_setAudioModeAsync, bind, gets. simpl. rewrite Hmode. reflexivity.
Qed.

(** X9.  A recording on a working phone, from start to stop: [stop]
    answers the URI of the take ([null] when the recorder has none);
    afterwards the flag is off, the hook keeps no recording, the platform
    recorder is unloaded, and a further [stopRecording] answers [null] and
    changes nothing. *)
Theorem native_start_stop_round_trip (w : world) (r : Recording) :
  phone_ready w r ->
  let w1 := snd (startRecording w) in
  let w2 := snd (stopRecording w1) in
  fst (startRecording w) = Ret tt
  /\ recording w1 = Some r /\ device_held w1 = true
  /\ fst (stopRecording w1)
     = Ret (match getURI r with Some uri => Some (JStr uri) | None => null end)
  /\ isRecording w2 = false
  /\ recording w2 = None
  /\ recorderLoaded w2 = false
  /\ tracks w2 = tracks w
  /\ stopRecording w2 = (Ret null, w2).
Proof.
  intros Hready w1 w2. subst w2 w1.
  rewrite (startRecording_native_world w r Hready). cbn [fst snd].
  destruct Hready as [Hos [_ [Hmode [_ Hunload]]]].
  erewrite stopRecording_native_world;
    [|exact Hos|reflexivity|exact Hunload|exact Hmode].
  cbn [fst snd recording isRecording mediaRecorderRef audioChunksRef tracks
       recorderLoaded objectURLs alerts asked env].
  split; [reflexivity|]. split; [reflexivity|].
  split; [unfold device_held; cbn [recorderLoaded]; apply orb_true_r|].
  split; [reflexivity|]. split; [reflexivity|]. split; [reflexivity|].
  split; [reflexivity|]. split; [reflexivity|].
  unfold stopRecording, try_catch, stopRecording_try, bind, gets. simpl.
  rewrite Hos. reflexivity.
Qed.

(** The phone of the scripts. *)
Lemma phone_take_round_trip :
  let w1 := snd (startRecording (initial phone)) in
  let w2 := snd (stopRecording w1) in
  fst (stopRecording w1) = Ret (Some (JStr "file:///cache/rec.m4a"))
  /\ device_held w2 = false
  /\ stopRecording w2 = (Ret null, w2).
Proof.
  intros w1 w2.
  assert (Hready : phone_ready (initial phone)
                     {| getURI := Some "file:///cache/rec.m4a" |}) by (repeat split).
  pose proof (native_start_stop_round_trip (initial phone) _ Hready) as H.
  cbv zeta in H. destruct H as [_ [_ [_ [H4 [_ [_ [_ [_ H9]]]]]]]].
  split; [exact H4|]. split; [reflexivity|exact H9].
Defined.

(** X10.  On a phone, when the recorder stops and unloads but the audio
    mode cannot be set back, [stopRecording] answers [null] although the
    take was stored: its URI is never read.  The flag is cleared, the
    platform recorder is unloaded, and the hook still keeps the
    [Recording]. *)
Theorem native_stop_loses_take_when_mode_reset_fails
    (w : world) (r : Recording) (e : thrown) :
  OS (env w) = Native ->
  recording w = Some r ->
  stopAndUnloadAsync (env w) = Unloads ->
  setAudioModeAsync (env w) = Some e ->
  let out := stopRecording w in
  fst out = Ret null
  /\ recording (snd out) = Some r
  /\ isRecording (snd out) = false
  /\ recorderLoaded (snd out) = false.
Proof.
  intros Hos Hrec Hun Hmode out. subst out.
  pose proof (stopRecording_native w r Hos Hrec) as H. cbv zeta in H.
  rewrite Hun, Hmode in H. destruct H as [[H1 [H2 H3]] H4].
  split; [exact H2|]. split; [exact H3|]. split; [exact H4|exact H1].
Qed.

(** A take that is stored and lost. *)
Lemma stored_take_is_lost :
  let w := with_env mode_stuck_phone
             (snd (startRecording (initial phone))) in
  recording w = Some {| getURI := Some "file:///cache/rec.m4a" |}
  /\ fst (stopRecording w) = Ret null
  /\ recording (snd (stopRecording w))
     = Some {| getURI := Some "file:///cache/rec.m4a" |}.
Proof.
  intros w.
  pose proof (native_stop_loses_take_when_mode_reset_fails w
                {| getURI := Some "file:///cache/rec.m4a" |}
                (ErrorObj "Error" "audio session is busy")
                eq_refl eq_refl eq_refl eq_refl) as H.
  cbv zeta in H. destruct H as [H1 [H2 _]].
  split; [reflexivity|]. split; [exact H1|exact H2].
Defined.

(** Unfolds a call of [checkPermissions] down to the answers of the
    platform. *)
Ltac probe_steps :=
  unfold checkPermissions, checkPermissions_try, try_catch,
    navigator_getUserMedia, Audio_requestPermissionsAsync, stop_tracks, setTracks,
    bind, gets, modify, lift, answered;
  simpl.

(** A stream opened and closed again leaves the microphone as it was. *)
Lemma probe_stream_closed (l : list bool) (loaded : bool) :
  existsb (fun live => live) (stop_track (List.length l) (l ++ [true])) || loaded
  = existsb (fun live => live) l || loaded.
Proof. rewrite stop_track_last, existsb_snoc, orb_false_r. reflexivity. Qed.

(** X11.  [checkPermissions] is a probe: it never throws and never stays
    pending; it leaves the flag, the recording, the recorder, the chunks and
    the alerts of the hook as they were and the microphone held exactly as
    before (a stream it opened is closed again); and when it answers [true]
    the platform does grant the microphone. *)
Theorem checkPermissions_is_a_probe (w : world) :
  let out := checkPermissions w in
  (exists granted, fst out = Ret granted
     /\ (granted = true ->
         match OS (env w) with
         | Web => web_ready w
         | Native => requestPermissionsAsync (env w) (asked w) = inr "granted"
         end))
  /\ isRecording (snd out) = isRecording w
  /\ recording (snd out) = recording w
  /\ mediaRecorderRef (snd out) = mediaRecorderRef w
  /\ audioChunksRef (snd out) = audioChunksRef w
  /\ alerts (snd out) = alerts w
  /\ env (snd out) = env w
  /\ device_held (snd out) = device_held w.
Proof.
  intros out. subst out.
  open_world w. unfold web_ready. simpl. probe_steps.
  destruct (OS e) eqn:Hos; simpl.
  - destruct (mediaDevices e) eqn:Hmd; simpl.
    2:{ split; [exists false; split; [reflexivity|discriminate]|].
        repeat split. }
    destruct (insecure_origin e) eqn:Hsec; simpl.
    { split; [exists false; split; [reflexivity|discriminate]|].
      repeat split. }
    destruct (getUserMedia e ask) eqn:Hgum; simpl.
    { split; [exists false; split; [reflexivity|discriminate]|].
      repeat split. }
    split; [exists true; split; [reflexivity|intros _; repeat split; assumption]|].
    repeat (split; [reflexivity|]).
    unfold device_held. simpl. apply probe_stream_closed.
  - destruct (requestPermissionsAsync e ask) as [err|st] eqn:Hperm; simpl.
    { split; [exists false; split; [reflexivity|discriminate]|].
      repeat split. }
    split; [|repeat split].
    exists (st =? "granted"). split; [reflexivity|].
    intros Hst. apply String.eqb_eq in Hst. subst st. reflexivity.
Qed.

(** X12.  A probe that answered [true] does not bind the start:
    [startRecording] asks the platform again, and what it does is decided
    by the answer to that second request.  When it is a refusal, the start
    fails (on the web, and on a phone whose request is rejected) or returns
    quietly with the alert ["Permission denied"] (on a phone that answers a
    status other than ["granted"]), nothing recording.  When it is a grant,
    the start gets past its permission steps: it starts the recording, or
    fails only in what comes after them (the construction of the recorder
    or its [start] on the web; the audio mode or the creation of the
    recording on a phone). *)
Theorem start_asks_again_after_probe (w : world) :
  fst (checkPermissions w) = Ret true ->
  let w1 := snd (checkPermissions w) in
  let out := startRecording w1 in
  asked w1 = S (asked w)
  /\ asked (snd out) = S (S (asked w))
  /\ match OS (env w) with
     | Web =>
         match getUserMedia (env w) (S (asked w)) with
         | Some cause =>
             fst out = Throw (Error (start_error_message cause))
             /\ isRecording (snd out) = isRecording w
             /\ device_held (snd out) = device_held w
         | None =>
             device_held (snd out) = true
             /\ match fst out with
                | Ret _ => isRecording (snd out) = true
                | Throw e =>
                    exists cause,
                      e = Error (start_error_message cause)
                      /\ (newMediaRecorder (env w) = Some cause
                          \/ start (env w) = Some cause)
                | Pending => False
                end
         end
     | Native =>
         match requestPermissionsAsync (env w) (S (asked w)) with
         | inl cause =>
             fst out = Throw (Error (start_error_message cause))
             /\ isRecording (snd out) = isRecording w
             /\ device_held (snd out) = device_held w
         | inr st =>
             if st =? "granted" then
               match fst out with
               | Ret _ => isRecording (snd out) = true /\ device_held (snd out) = true
               | Throw e =>
                   exists cause,
                     e = Error (start_error_message cause)
                     /\ (setAudioModeAsync (env w) = Some cause
                         \/ createAsync (env w) = inl cause)
               | Pending => False
               end
             else
               fst out = Ret tt
               /\ isRecording (snd out) = isRecording w
               /\ device_held (snd out) = device_held w
               /\ alerts (snd out) = permission_denied :: alerts w
         end
     end.
Proof.
  intros Hgranted w1 out. subst out w1. revert Hgranted.
  open_world w. probe_steps.
  destruct (OS e) eqn:Hos; simpl.
  - destruct (mediaDevices e) eqn:Hmd; simpl; [|discriminate].
    destruct (insecure_origin e) eqn:Hsec; simpl; [discriminate|].
    destruct (getUserMedia e ask) eqn:Hgum; simpl; [discriminate|].
    intros _. start_steps.
    rewrite Hos, Hmd, Hsec. simpl.
    destruct (getUserMedia e (S ask)) as [cause|] eqn:Hgum2; simpl.
    + rewrite Hos. simpl. repeat (split; [reflexivity|]).
      unfold device_held. simpl. apply probe_stream_closed.
    + destruct (newMediaRecorder e) as [cause|]; simpl.
      * rewrite Hos. simpl. repeat (split; [reflexivity|]).
        split.
        { unfold device_held. simpl. rewrite existsb_snoc, orb_true_r. reflexivity. }
        exists cause. split; [reflexivity|left; reflexivity].
      * destruct (start e) as [cause|]; simpl.
        -- rewrite Hos. simpl. repeat (split; [reflexivity|]).
           split.
           { unfold device_held. simpl. rewrite existsb_snoc, orb_true_r. reflexivity. }
           exists cause. split; [reflexivity|right; reflexivity].
        -- repeat (split; [reflexivity|]).
           split; [|reflexivity].
           unfold device_held. simpl. rewrite existsb_snoc, orb_true_r. reflexivity.
  - destruct (requestPermissionsAsync e ask) as [err|st] eqn:Hperm; simpl; [discriminate|].
    intros Hst. start_steps. rewrite Hos. simpl.
    destruct (requestPermissionsAsync e (S ask)) as [cause|st2] eqn:Hperm2; simpl.
    + rewrite Hos. simpl. repeat split.
    + destruct (st2 =? "granted"); simpl.
      * destruct (setAudioModeAsync e) as [cause|]; simpl.
        -- rewrite Hos. simpl. repeat (split; [reflexivity|]).
           exists cause. split; [reflexivity|left; reflexivity].
        -- destruct (createAsync e) as [cause|r]; simpl.
           ++ rewrite Hos. simpl. repeat (split; [reflexivity|]).
              exists cause. split; [reflexivity|right; reflexivity].
           ++ repeat (split; [reflexivity|]).
              unfold device_held. simpl. apply orb_true_r.
      * repeat split.
Qed.

(** The phone whose user withdraws the permission between the probe and
    the start, and the browser whose microphone is taken in between. *)
Lemma revoked_between_probe_and_start :
  (let w1 := snd (checkPermissions (initial revoking_phone)) in
   fst (checkPermissions (initial revoking_phone)) = Ret true
   /\ fst (startRecording w1) = Ret tt
   /\ isRecording (snd (startRecording w1)) = false
   /\ alerts (snd (startRecording w1)) = [permission_denied])
  /\
  (let w1 := snd (checkPermissions (initial revoking_browser)) in
   fst (checkPermissions (initial revoking_browser)) = Ret true
   /\ fst (startRecording w1)
      = Throw (Error "Microphone is already in use by another application.")
   /\ isRecording (snd (startRecording w1)) = false
   /\ device_held (snd (startRecording w1)) = false).
Proof.
  split.
  - intros w1.
    pose proof (start_asks_again_after_probe (initial revoking_phone) eq_refl) as H.
    cbv zeta in H. fold w1 in H.
    destruct H as [_ [_ [H1 [H2 [_ H4]]]]].
    split; [reflexivity|]. split; [exact H1|]. split; [exact H2|exact H4].
  - intros w1.
    pose proof (start_asks_again_after_probe (initial revoking_browser) eq_refl) as H.
    cbv zeta in H. fold w1 in H.
    destruct H as [_ [_ [H1 [H2 H3]]]].
    split; [reflexivity|]. split; [exact H1|]. split; [exact H2|exact H3].
Defined.

End RecordingTrips.

(* ================================================================== *)
(** * Further properties of the begin action *)
(* ================================================================== *)

Module BeginProofs.
Import Screen.
#[local] Open Scope list_scope.

Import AudioRecording.

Ltac begin_steps :=
  cbv beta iota zeta delta
    [Screen.handleStartRecording Screen.handleStartRecording_try
     Screen.handleStartRecording_catch Screen.hook Screen.setIsRecording
     Screen.setRecordingDuration Screen.setTranscribedText Screen.setSummary
     Screen.fadeAnim_setValue Screen.adapter Screen.isRecording
     Screen.recordingDuration Screen.transcribedText Screen.summary Screen.fadeAnim
     try_catch bind ret throw modify gets lift fst snd negb
     checkPermissions checkPermissions_try startRecording startRecording_try
     startRecording_catch navigator_getUserMedia stop_tracks answered
     Audio_requestPermissionsAsync Audio_setAudioModeAsync
     Audio_Recording_createAsync Alert setTracks setMediaRecorderRef
     setAudioChunksRef setIsRecording setRecording setRecorderLoaded
     recording isRecording mediaRecorderRef audioChunksRef tracks recorderLoaded
     objectURLs alerts asked env].

(** X13.  The begin action never throws and never stays pending, and it
    ends in one of three ways.  The recording started: the screen shows it,
    with the counter at 0 and both texts cleared, and the hook records with
    the microphone held, no alert shown.  Or nothing started and the screen
    says so: it keeps every field of its own state, the hook's flag is as
    before, and the newest alert is the permission prompt or a
    ["Recording Error"].  Or, on a phone that granted the request of the
    probe and not the request of the start, the screen shows a recording
    that does not exist: [startRecording] returned quietly after its alert
    ["Permission denied"], and the begin action went on to set
    [isRecording], with the hook not recording and the microphone as it
    was. *)
Theorem begin_starts_or_alerts (w : Screen.world) :
  let out := Screen.handleStartRecording w in
  let a := Screen.adapter w in
  fst out = Ret tt
  /\ ((Screen.isRecording (snd out) = true
       /\ Screen.recordingDuration (snd out) = 0%Z
       /\ Screen.transcribedText (snd out) = ""
       /\ Screen.summary (snd out) = ""
       /\ isRecording (Screen.adapter (snd out)) = true
       /\ device_held (Screen.adapter (snd out)) = true
       /\ alerts (Screen.adapter (snd out)) = alerts a)
      \/ (Screen.isRecording (snd out) = Screen.isRecording w
          /\ Screen.recordingDuration (snd out) = Screen.recordingDuration w
          /\ Screen.transcribedText (snd out) = Screen.transcribedText w
          /\ Screen.summary (snd out) = Screen.summary w
          /\ isRecording (Screen.adapter (snd out)) = isRecording a
          /\ exists shown rest,
               alerts (Screen.adapter (snd out)) = shown :: rest
               /\ (shown = Screen.permission_required
                   \/ exists msg, shown = Screen.recording_error msg))
      \/ (OS (env a) = Native
          /\ requestPermissionsAsync (env a) (asked a) = inr "granted"
          /\ (exists st, requestPermissionsAsync (env a) (S (asked a)) = inr st
                         /\ st <> "granted")
          /\ Screen.isRecording (snd out) = true
          /\ Screen.recordingDuration (snd out) = 0%Z
          /\ Screen.transcribedText (snd out) = ""
          /\ Screen.summary (snd out) = ""
          /\ isRecording (Screen.adapter (snd out)) = isRecording a
          /\ device_held (Screen.adapter (snd out)) = device_held a
          /\ alerts (Screen.adapter (snd out))
             = Scenarios.permission_denied :: alerts a))
  /\ (OS (env a) = Native ->
      requestPermissionsAsync (env a) (asked a) = inr "granted" ->
      forall st, requestPermissionsAsync (env a) (S (asked a)) = inr st ->
                 st <> "granted" ->
      Screen.isRecording (snd out) = true
      /\ isRecording (Screen.adapter (snd out)) = isRecording a
      /\ device_held (Screen.adapter (snd out)) = device_held a
      /\ alerts (Screen.adapter (snd out)) = Scenarios.permission_denied :: alerts a).
Proof.
  intros out a. subst out a.
  destruct w as [isR dur txt sm fade a].
  destruct a as [rec isRec ref chunks trk loaded urls alrt ask e].
  begin_steps.
  destruct (OS e) eqn:Hos; simpl.
  - destruct (mediaDevices e) eqn:Hmd; simpl.
    2:{ split; [reflexivity|]. split; [|discriminate].
        right. left. repeat (split; [reflexivity|]).
        eexists _, _. split; [reflexivity|left; reflexivity]. }
    destruct (insecure_origin e) eqn:Hsec; simpl.
    { split; [reflexivity|]. split; [|discriminate].
      right. left. repeat (split; [reflexivity|]).
      eexists _, _. split; [reflexivity|left; reflexivity]. }
    destruct (getUserMedia e ask) eqn:Hgum; simpl.
    { split; [reflexivity|]. split; [|discriminate].
      right. left. repeat (split; [reflexivity|]).
      eexists _, _. split; [reflexivity|left; reflexivity]. }
    rewrite Hos, Hmd, Hsec. simpl.
    destruct (getUserMedia e (S ask)) eqn:Hgum2; simpl.
    { rewrite Hos. simpl. split; [reflexivity|]. split; [|discriminate].
      right. left. repeat (split; [reflexivity|]).
      eexists _, _. split; [reflexivity|right; eexists; reflexivity]. }
    destruct (newMediaRecorder e) eqn:Hctor; simpl.
    { rewrite Hos. simpl. split; [reflexivity|]. split; [|discriminate].
      right. left. repeat (split; [reflexivity|]).
      eexists _, _. split; [reflexivity|right; eexists; reflexivity]. }
    destruct (start e) eqn:Hstart; simpl.
    { rewrite Hos. simpl. split; [reflexivity|]. split; [|discriminate].
      right. left. repeat (split; [reflexivity|]).
      eexists _, _. split; [reflexivity|right; eexists; reflexivity]. }
    split; [reflexivity|]. split; [|discriminate].
    left. repeat (split; [reflexivity|]).
    split; [|reflexivity].
    unfold device_held. simpl. rewrite !existsb_app. simpl.
    rewrite !orb_true_r. reflexivity.
  - destruct (requestPermissionsAsync e ask) as [err|st] eqn:Hperm; simpl.
    { split; [reflexivity|]. split; [|intros _ Hx; discriminate Hx].
      right. left. repeat (split; [reflexivity|]).
      eexists _, _. split; [reflexivity|left; reflexivity]. }
    destruct (st =? "granted") eqn:Hst; simpl.
    2:{ split; [reflexivity|]. split.
        - right. left. repeat (split; [reflexivity|]).
          eexists _, _. split; [reflexivity|left; reflexivity].
        - intros _ Hx. injection Hx as ->. discriminate Hst. }
    apply String.eqb_eq in Hst. subst st.
    rewrite Hos. simpl.
    destruct (requestPermissionsAsync e (S ask)) as [err|st2] eqn:Hperm2; simpl.
    { rewrite Hos. simpl. split; [reflexivity|]. split.
      - right. left. repeat (split; [reflexivity|]).
        eexists _, _. split; [reflexivity|right; eexists; reflexivity].
      - intros _ _ st Hx. discriminate Hx. }
    destruct (st2 =? "granted") eqn:Hst2; simpl.
    2:{ assert (Hne : st2 <> "granted").
        { intros ->. discriminate Hst2. }
        split; [reflexivity|]. split.
        - right. right. split; [reflexivity|]. split; [reflexivity|].
          split; [exists st2; split; [reflexivity|exact Hne]|].
          repeat split.
        - intros _ _ st Hx Hy. repeat split. }
    apply String.eqb_eq in Hst2. subst st2.
    destruct (setAudioModeAsync e) eqn:Hmode; simpl.
    { rewrite Hos. simpl. split; [reflexivity|]. split.
      - right. left. repeat (split; [reflexivity|]).
        eexists _, _. split; [reflexivity|right; eexists; reflexivity].
      - intros _ _ st Hx Hy. injection Hx as <-. contradiction. }
    destruct (createAsync e) as [err|r] eqn:Hcreate; simpl.
    { rewrite Hos. simpl. split; [reflexivity|]. split.
      - right. left. repeat (split; [reflexivity|]).
        eexists _, _. split; [reflexivity|right; eexists; reflexivity].
      - intros _ _ st Hx Hy. injection Hx as <-. contradiction. }
    split; [reflexivity|]. split.
    + left. repeat (split; [reflexivity|]).
      split; [|reflexivity]. unfold device_held. simpl. apply orb_true_r.
    + intros _ _ st Hx Hy. injection Hx as <-. contradiction.
Qed.

(** The phone whose user withdraws the permission between the probe and
    the start: the screen shows a recording, nothing records. *)
Lemma revoked_phone_shows_a_recording :
  let w := Screen.mounted (initial Scenarios.revoking_phone) in
  let out := Screen.handleStartRecording w in
  fst out = Ret tt
  /\ Screen.isRecording (snd out) = true
  /\ isRecording (Screen.adapter (snd out)) = false
  /\ device_held (Screen.adapter (snd out)) = false
  /\ alerts (Screen.adapter (snd out)) = [Scenarios.permission_denied].
Proof.
  intros w out.
  pose proof (begin_starts_or_alerts w) as H.
  cbv zeta in H. fold out in H. destruct H as [H1 [_ H2]].
  assert (Hne : "denied" <> "granted") by discriminate.
  destruct (H2 eq_refl eq_refl "denied" eq_refl Hne) as [Ha [Hb [Hc Hd]]].
  split; [exact H1|]. split; [exact Ha|]. split; [exact Hb|].
  split; [exact Hc|exact Hd].
Defined.

(** X14.  A start that fails after the probe has passed and its own
    request was granted is reported twice on the web and once on a phone:
    the hook shows a ["Recording Error"] alert on the web and rethrows, and
    the begin action shows its own for what it caught, with the same
    message.  The screen does not show a recording; on the web the stream
    that was opened stays live. *)
Theorem failed_start_alerts (w : Screen.world) (cause : thrown) :
  let a := Screen.adapter w in
  fst (checkPermissions a) = Ret true ->
  match OS (env a) with
  | Web => getUserMedia (env a) (S (asked a)) = None
           /\ (newMediaRecorder (env a) = Some cause
               \/ (newMediaRecorder (env a) = None /\ start (env a) = Some cause))
  | Native => requestPermissionsAsync (env a) (S (asked a)) = inr "granted"
              /\ setAudioModeAsync (env a) = Some cause
  end ->
  let out := Screen.handleStartRecording w in
  let report := Screen.recording_error (start_error_message cause) in
  fst out = Ret tt
  /\ Screen.isRecording (snd out) = Screen.isRecording w
  /\ isRecording (Screen.adapter (snd out)) = isRecording a
  /\ alerts (Screen.adapter (snd out)) =
       match OS (env a) with
       | Web => report :: report :: alerts a
       | Native => report :: alerts a
       end
  /\ match OS (env a) with
     | Web => device_held (Screen.adapter (snd out)) = true
     | Native => device_held (Screen.adapter (snd out)) = device_held a
     end.
Proof.
  intros a Hprobe Hcause out report. subst out report a. revert Hprobe Hcause.
  destruct w as [isR dur txt sm fade a].
  destruct a as [rec isRec ref chunks trk loaded urls alrt ask e].
  begin_steps.
  destruct (OS e) eqn:Hos; simpl.
  - destruct (mediaDevices e) eqn:Hmd; simpl; [|discriminate].
    destruct (insecure_origin e) eqn:Hsec; simpl; [discriminate|].
    destruct (getUserMedia e ask) eqn:Hgum; simpl; [discriminate|].
    intros _ [Hgum2 Hfail].
    rewrite Hos, Hmd, Hsec. simpl. rewrite Hgum2. simpl.
    destruct Hfail as [Hctor|[Hctor Hstart]].
    + rewrite Hctor. simpl. rewrite Hos. simpl.
      repeat (split; [reflexivity|]).
      unfold device_held. simpl. rewrite !existsb_app. simpl.
      rewrite !orb_true_r. reflexivity.
    + rewrite Hctor. simpl. rewrite Hstart. simpl. rewrite Hos. simpl.
      repeat (split; [reflexivity|]).
      unfold device_held. simpl. rewrite !existsb_app. simpl.
      rewrite !orb_true_r. reflexivity.
  - destruct (requestPermissionsAsync e ask) as [err|st] eqn:Hperm; simpl; [discriminate|].
    destruct (st =? "granted") eqn:Hst; simpl; [|discriminate].
    intros _ [Hperm2 Hmode].
    rewrite Hos. simpl. rewrite Hperm2. simpl.
    rewrite Hmode. simpl. rewrite Hos. simpl.
    repeat split.
Qed.

(** The browser that cannot construct its recorder: two alerts. *)
Lemma unsupported_recorder_alerts_twice :
  let w := Screen.mounted (initial Scenarios.no_recorder) in
  let out := Screen.handleStartRecording w in
  fst out = Ret tt
  /\ Screen.isRecording (snd out) = false
  /\ alerts (Screen.adapter (snd out)) =
       [Screen.recording_error "Audio recording not supported in this browser.";
        Screen.recording_error "Audio recording not supported in this browser."]
  /\ device_held (Screen.adapter (snd out)) = true.
Proof.
  intros w out.
  pose proof (failed_start_alerts w
                (ErrorObj "NotSupportedError" "mimeType is not supported")
                eq_refl (conj eq_refl (or_introl eq_refl))) as H.
  cbv zeta in H. fold out in H.
  destruct H as [H1 [H2 [_ [H4 H5]]]].
  split; [exact H1|]. split; [rewrite H2; reflexivity|].
  split; [rewrite H4; reflexivity|exact H5].
Defined.

End BeginProofs.

(* ================================================================== *)
(** * Properties of the stop action *)
(* ================================================================== *)

Module SessionProofs.
Import Session.
#[local] Open Scope list_scope.

Section Keys.
Variable speech_key : string.
Variable summary_key : string.

(** The stop action, stage by stage. *)
Lemma handleStopRecording_cases (fuel : nat) (w : world) :
  handleStopRecording speech_key summary_key fuel w =
    match AudioRecording.stopRecording (adapter w) with
    | (Throw _, a) => (Ret tt, alerted "Failed to process recording" (stopped a w))
    | (Pending, a) => (Pending, stopped a w)
    | (Ret audioUri, a) =>
        if truthy audioUri then
          match SpeechToText.transcribe speech_key fuel (show audioUri) (speech_of w) with
          | (Throw _, s) =>
              (Ret tt,
               alerted "Failed to process recording" (transcribed s (stopped a w)))
          | (Pending, s) => (Pending, transcribed s (stopped a w))
          | (Ret text, s) =>
              if truthy text then
                match Summary.generateSummary summary_key (show text)
                        (summarizer_of (transcribed s (stopped a w))) with
                | (Throw _, g) =>
                    (Ret tt,
                     alerted "Failed to process recording"
                       (summarized g
                          (showing text (summary w) (transcribed s (stopped a w)))))
                | (Pending, g) =>
                    (Pending,
                     summarized g
                       (showing text (summary w) (transcribed s (stopped a w))))
                | (Ret summaryText, g) =>
                    (Ret tt,
                     showing text summaryText
                       (summarized g (transcribed s (stopped a w))))
                end
              else
                (Ret tt, alerted "Failed to transcribe audio" (transcribed s (stopped a w)))
          end
        else (Ret tt, alerted "No audio recorded" (stopped a w))
    end.
Proof.
  unfold handleStopRecording, try_catch, handleStopRecording_try,
    handleStopRecording_catch.
  unfold bind at 1. unfold setIsRecording at 1, modify at 1.
  unfold bind at 1. unfold hook at 1. cbn [adapter].
  destruct (AudioRecording.stopRecording (adapter w)) as [[audioUri|e|] a];
    [|reflexivity|reflexivity].
  destruct (truthy audioUri); cbn [negb]; [|reflexivity].
  unfold bind at 1. unfold speech at 1.
  change (speech_of _) with (speech_of w).
  destruct (SpeechToText.transcribe speech_key fuel (show audioUri) (speech_of w))
    as [[text|e|] s]; [|reflexivity|reflexivity].
  destruct (truthy text); cbn [negb]; [|reflexivity].
  unfold bind at 1. unfold setTranscribedText at 1, modify at 1.
  unfold bind at 1. unfold summarizer at 1.
  match goal with |- context [Summary.generateSummary summary_key (show text) ?x] =>
    change x with (summarizer_of (transcribed s (stopped a w))) end.
  destruct (Summary.generateSummary summary_key (show text)
              (summarizer_of (transcribed s (stopped a w)))) as [[sm|e|] g];
    reflexivity.
Qed.


Lemma transcribe_never_throws (key : string) (fuel : nat) (uri : string)
    (s : SpeechToText.world) (e : thrown) (s' : SpeechToText.world) :
  SpeechToText.transcribe key fuel uri s <> (Throw e, s').
Proof.
  rewrite TranscribeProofs.transcribe_of_try.
  destruct (SpeechToText.transcribe_try key fuel uri s) as [[v|e0|] s0]; discriminate.
Qed.

(** [generateSummary] always resolves, to a truthy value, after exactly one
    request. *)
Lemma generateSummary_resolves (key text : string) (g : Summary.world) :
  exists v e,
    Summary.generateSummary key text g =
      (Ret v,
       Summary.settled (snd (fetch_net (Summary.summary_request key text) (Summary.wire g))) e)
    /\ truthy v = true.
Proof.
  pose proof (SummaryProofs.generateSummary_cases key text g) as H. cbv zeta in H.
  rewrite H.
  destruct (next_answer (Summary.wire g)) as [r|e].
  - destruct (ok r).
    + destruct (json_of r) as [e|d].
      * eexists _, _. split; reflexivity.
      * destruct (Summary.first_completion d) as [e|c].
        -- eexists _, _. split; reflexivity.
        -- eexists _, _. split; [reflexivity|].
           apply SummaryProofs.or_else_truthy. reflexivity.
    + eexists _, _. split; reflexivity.
  - eexists _, _. split; reflexivity.
Qed.

End Keys.

(** The begin action on the phone of the scripts. *)
Lemma begin_on_the_phone :
  Screen.handleStartRecording
    (Screen.mounted (AudioRecording.initial AudioRecording.phone))
  = (Ret tt, Scenarios.recording_phone).
Proof. reflexivity. Qed.

(** X15.  The stop action never throws, whatever the three hooks do: it
    ends normally or is still waiting for the recorder or for the
    transcription.  The screen stops showing a recording at once, and the
    counter is left where it was. *)
Theorem stop_never_throws (speech_key summary_key : string) (fuel : nat) (w : world) :
  let out := handleStopRecording speech_key summary_key fuel w in
  (fst out = Ret tt
   \/ (fst out = Pending
       /\ (fst (AudioRecording.stopRecording (adapter w)) = Pending
           \/ exists audioUri,
                fst (AudioRecording.stopRecording (adapter w)) = Ret audioUri
                /\ fst (SpeechToText.transcribe speech_key fuel (show audioUri)
                          (speech_of w)) = Pending)))
  /\ isRecording (snd out) = false
  /\ recordingDuration (snd out) = recordingDuration w.
Proof.
  intros out. subst out. rewrite handleStopRecording_cases.
  destruct (AudioRecording.stopRecording (adapter w)) as [[audioUri|e|] a].
  - destruct (truthy audioUri).
    + pose proof (transcribe_never_throws speech_key fuel (show audioUri) (speech_of w))
        as Hnt.
      destruct (SpeechToText.transcribe speech_key fuel (show audioUri) (speech_of w))
        as [[text|e|] s] eqn:Ht.
      * destruct (truthy text).
        -- destruct (generateSummary_resolves summary_key (show text)
                       (summarizer_of (transcribed s (stopped a w)))) as [v [e [-> _]]].
           split; [left; reflexivity|split; reflexivity].
        -- split; [left; reflexivity|split; reflexivity].
      * exfalso. exact (Hnt e s eq_refl).
      * split; [|split; reflexivity].
        right. split; [reflexivity|]. right. exists audioUri.
        split; [reflexivity|]. rewrite Ht. reflexivity.
    + split; [left; reflexivity|split; reflexivity].
  - split; [left; reflexivity|split; reflexivity].
  - split; [|split; reflexivity].
    right. split; [reflexivity|left; reflexivity].
Qed.

(** X16.  When the recorder yields no usable reference ([null], an empty
    text, or a rejected promise), the stop action fetches nothing and
    touches neither text nor the two other hooks; it shows one alert,
    ["No audio recorded"] for a value, ["Failed to process recording"] for a
    rejection. *)
Theorem stop_without_audio_fetches_nothing
    (speech_key summary_key : string) (fuel : nat) (w : world) :
  (forall v, fst (AudioRecording.stopRecording (adapter w)) = Ret v -> truthy v = false) ->
  fst (AudioRecording.stopRecording (adapter w)) <> Pending ->
  let out := handleStopRecording speech_key summary_key fuel w in
  let a := snd (AudioRecording.stopRecording (adapter w)) in
  fst out = Ret tt
  /\ wire (snd out) = wire w
  /\ transcribedText (snd out) = transcribedText w
  /\ summary (snd out) = summary w
  /\ isTranscribing (snd out) = isTranscribing w
  /\ isGeneratingSummary (snd out) = isGeneratingSummary w
  /\ alerts (snd out) =
       error_alert
         (match fst (AudioRecording.stopRecording (adapter w)) with
          | Throw _ => "Failed to process recording"
          | _ => "No audio recorded"
          end) :: AudioRecording.alerts a.
Proof.
  intros Hnone Hsettled out a. subst out a. rewrite handleStopRecording_cases.
  destruct (AudioRecording.stopRecording (adapter w)) as [[audioUri|e|] a]; simpl in *.
  - rewrite (Hnone audioUri eq_refl). repeat split.
  - repeat split.
  - contradiction.
Qed.

(** A stop with nothing started. *)
Lemma stop_before_any_start :
  let w := of_screen (Screen.mounted (AudioRecording.initial AudioRecording.phone))
             (Scenarios.network Scenarios.memo_script SpeechToText.still_processing) in
  let out := handleStopRecording "k1" "k2" 5 w in
  fst out = Ret tt
  /\ wire (snd out) = wire w
  /\ alerts (snd out) = [error_alert "No audio recorded"].
Proof.
  intros w out.
  assert (H1 : forall v, fst (AudioRecording.stopRecording (adapter w)) = Ret v ->
                         truthy v = false).
  { intros v Hv. injection Hv as <-. reflexivity. }
  assert (H2 : fst (AudioRecording.stopRecording (adapter w)) <> Pending) by discriminate.
  pose proof (stop_without_audio_fetches_nothing "k1" "k2" 5 w H1 H2) as H.
  cbv zeta in H. fold out in H. destruct H as [Ha [Hb [_ [_ [_ [_ Hc]]]]]].
  split; [exact Ha|]. split; [exact Hb|]. rewrite Hc. reflexivity.
Defined.


(** X17.  When the job ends in [error], or ends [completed] with a text
    that is absent or empty, the stop action shows
    ["Failed to transcribe audio"] and stops there: no answer beyond the
    terminal poll is read (the summary service is not contacted), and the
    texts on show and the summary hook are as before. *)
Theorem failed_transcription_skips_summary
    (speech_key summary_key : string) (fuel : nat) (w : world)
    (uri : string) (a : AudioRecording.world)
    (blob upload submit : response) (audioUrl : value) (data : json)
    (pre : list response) (fin : response) (tdf : json)
    (rest : list fetch_result) :
  AudioRecording.stopRecording (adapter w) = (Ret (Some (JStr uri)), a) ->
  uri <> "" ->
  answers (wire w) =
    (map Responds (blob :: upload :: submit :: pre ++ [fin]) ++ rest) ->
  SpeechToText.uploaded upload = Some audioUrl ->
  SpeechToText.submitted submit = Some data ->
  SpeechToText.waiting data = true ->
  forallb SpeechToText.waiting_answer pre = true ->
  parsed fin = Some tdf ->
  SpeechToText.terminal (SpeechToText.status_of tdf) = true ->
  is_string "error" (SpeechToText.status_of tdf) = true
    \/ truthy (get_opt (Some tdf) "text") = false ->
  (List.length pre < fuel)%nat ->
  let out := handleStopRecording speech_key summary_key fuel w in
  fst out = Ret tt
  /\ alerts (snd out) = error_alert "Failed to transcribe audio" :: AudioRecording.alerts a
  /\ answers (wire (snd out)) = rest
  /\ SpeechToText.made (speech_of (snd out))
     = (S (List.length pre) + SpeechToText.made (speech_of w))%nat
  /\ transcribedText (snd out) = transcribedText w
  /\ summary (snd out) = summary w
  /\ isTranscribing (snd out) = false
  /\ isGeneratingSummary (snd out) = isGeneratingSummary w
  /\ summaryError (snd out) = summaryError w.
Proof.
  intros Hstop Huri Hans Hup Hsub Hw Hpre Hfin Hterm Hbad Hfuel out. subst out.
  rewrite handleStopRecording_cases, Hstop.
  assert (Htru : truthy (Some (JStr uri)) = true).
  { simpl. destruct (uri =? "") eqn:E; [|reflexivity].
    apply String.eqb_eq in E. contradiction. }
  rewrite Htru. cbn [show to_string].
  rewrite (TranscribeProofs.transcribe_reaches_terminal speech_key fuel uri (speech_of w)
             blob upload submit audioUrl data pre fin tdf rest
             Hans Hup Hsub Hw Hpre Hfin Hterm Hfuel).
  cbv zeta.
  destruct (is_string "error" (SpeechToText.status_of tdf)) eqn:Herr.
  - cbn [truthy null negb]. cbn iota.
    split; [reflexivity|]. split; [reflexivity|]. split; [reflexivity|].
    split.
    { exact (TranscribeEdges.made_after_polls speech_key uri (body blob) audioUrl
               (get_opt (Some data) "id") (S (List.length pre)) rest (speech_of w)). }
    repeat split.
  - destruct Hbad as [Hbad|Hbad]; [discriminate|]. rewrite Hbad.
    split; [reflexivity|]. split; [reflexivity|]. split; [reflexivity|].
    split.
    { exact (TranscribeEdges.made_after_polls speech_key uri (body blob) audioUrl
               (get_opt (Some data) "id") (S (List.length pre)) rest (speech_of w)). }
    repeat split.
Qed.


(** A job that completes without text, after a take on the phone: the
    answer of the summary service stays unread. *)
Lemma silent_take_is_not_summarised :
  let w := of_screen Scenarios.recording_phone
             (Scenarios.network Scenarios.silent_script SpeechToText.still_processing) in
  let out := handleStopRecording "k1" "k2" 5 w in
  fst out = Ret tt
  /\ alerts (snd out) = [error_alert "Failed to transcribe audio"]
  /\ answers (wire (snd out))
     = [Summary.success (Summary.completion (JStr "A greeting."))]
  /\ transcribeError (snd out) = None.
Proof.
  intros w out.
  assert (Huri : "file:///cache/rec.m4a" <> "") by discriminate.
  assert (Hfuel : (List.length (@nil response) < 5)%nat) by (simpl; lia).
  pose proof (failed_transcription_skips_summary "k1" "k2" 5 w
                "file:///cache/rec.m4a"
                (snd (AudioRecording.stopRecording (adapter w)))
                {| ok := true; status := 200; body := "RIFF"; parsed := None |}
                (SpeechToText.answer (JObj [("upload_url", JStr "https://cdn/u1")]))
                (SpeechToText.answer (SpeechToText.job "j1" "queued" []))
                (Some (JStr "https://cdn/u1"))
                (SpeechToText.job "j1" "queued" [])
                []
                (SpeechToText.answer (SpeechToText.job "j1" "completed" []))
                (SpeechToText.job "j1" "completed" [])
                [Summary.success (Summary.completion (JStr "A greeting."))]
                eq_refl Huri eq_refl eq_refl eq_refl eq_refl eq_refl eq_refl eq_refl
                (or_intror eq_refl) Hfuel) as H.
  cbv zeta in H. fold out in H. destruct H as [H1 [H2 [H3 _]]].
  split; [exact H1|]. split; [rewrite H2; reflexivity|]. split; [exact H3|reflexivity].
Defined.

(** X18.  The whole pipeline on a script that goes well: the take is
    transcribed, then summarised.  The request to the summary service is
    the last one, made after the terminal poll, and its prompt wraps the
    transcript; the screen ends up showing the transcript and what
    [generateSummary] made of the answer, with no alert and both flags
    off. *)
Theorem stop_runs_the_pipeline_in_order
    (speech_key summary_key : string) (fuel : nat) (w : world)
    (uri : string) (a : AudioRecording.world)
    (blob upload submit : response) (audioUrl : value) (data : json)
    (pre : list response) (fin : response) (tdf : json)
    (chat : response) (body_json : json) (c : value)
    (rest : list fetch_result) :
  AudioRecording.stopRecording (adapter w) = (Ret (Some (JStr uri)), a) ->
  uri <> "" ->
  answers (wire w) =
    (map Responds (blob :: upload :: submit :: pre ++ [fin]) ++ Responds chat :: rest) ->
  SpeechToText.uploaded upload = Some audioUrl ->
  SpeechToText.submitted submit = Some data ->
  SpeechToText.waiting data = true ->
  forallb SpeechToText.waiting_answer pre = true ->
  parsed fin = Some tdf ->
  is_string "completed" (SpeechToText.status_of tdf) = true ->
  truthy (get_opt (Some tdf) "text") = true ->
  ok chat = true ->
  parsed chat = Some body_json ->
  Summary.first_completion body_json = inr c ->
  (List.length pre < fuel)%nat ->
  let out := handleStopRecording speech_key summary_key fuel w in
  let text := get_opt (Some tdf) "text" in
  fst out = Ret tt
  /\ transcribedText (snd out) = text
  /\ summary (snd out) = or_else c (Some (JStr Summary.no_summary))
  /\ history (wire (snd out)) =
       history (wire w)
       ++ [Fetched (SpeechToText.blob_request uri);
           Fetched (SpeechToText.upload_request speech_key (body blob));
           Fetched (SpeechToText.submit_request speech_key audioUrl)]
       ++ SpeechToText.cycles speech_key (get_opt (Some data) "id") (S (List.length pre))
       ++ [Fetched (Summary.summary_request summary_key (show text))]
  /\ answers (wire (snd out)) = rest
  /\ alerts (snd out) = AudioRecording.alerts a
  /\ isRecording (snd out) = false
  /\ isProcessing (snd out) = false
  /\ transcribeError (snd out) = None
  /\ summaryError (snd out) = None.
Proof.
  intros Hstop Huri Hans Hup Hsub Hw Hpre Hfin Hdone Htext Hok Hparsed Hfc Hfuel out text.
  subst out text.
  assert (Hterm : SpeechToText.terminal (SpeechToText.status_of tdf) = true).
  { unfold SpeechToText.terminal. rewrite Hdone. reflexivity. }
  assert (Herr : is_string "error" (SpeechToText.status_of tdf) = false).
  { unfold is_string in *. destruct (SpeechToText.status_of tdf) as [[]|];
      try reflexivity. apply String.eqb_eq in Hdone. subst s. reflexivity. }
  rewrite handleStopRecording_cases, Hstop.
  assert (Htru : truthy (Some (JStr uri)) = true).
  { simpl. destruct (uri =? "") eqn:E; [|reflexivity].
    apply String.eqb_eq in E. contradiction. }
  rewrite Htru. cbn [show to_string].
  rewrite (TranscribeProofs.transcribe_reaches_terminal speech_key fuel uri (speech_of w)
             blob upload submit audioUrl data pre fin tdf (Responds chat :: rest)
             Hans Hup Hsub Hw Hpre Hfin Hterm Hfuel).
  cbv zeta. rewrite Herr, Htext.
  rewrite SummaryProofs.generateSummary_cases. cbv zeta.
  match goal with |- context [next_answer ?n] =>
    change (next_answer n) with (Responds chat) end.
  cbn iota. rewrite Hok. unfold json_of. rewrite Hparsed, Hfc.
  cbn [fst snd]. unfold showing, summarized, transcribed, stopped, Summary.settled,
    SpeechToText.done, SpeechToText.after_polls, summarizer_of, isProcessing, alerts.
  cbn [transcribedText summary wire isRecording isTranscribing isGeneratingSummary
       transcribeError summaryError adapter
       Summary.wire Summary.isGeneratingSummary Summary.error
       SpeechToText.wire SpeechToText.isTranscribing SpeechToText.error
       fetch_net snd answers events tl orb speech_of].
  split; [reflexivity|]. split; [reflexivity|]. split; [reflexivity|].
  split.
  { unfold history. cbn [events rev].
    rewrite rev_app_distr. cbn [rev app]. rewrite rev_involutive.
    rewrite <- !app_assoc. reflexivity. }
  repeat split.
Qed.

(** The memo of the scripts, from the begin action to the summary. *)
Lemma memo_is_transcribed_then_summarised :
  let w := of_screen Scenarios.recording_phone
             (Scenarios.network Scenarios.memo_script SpeechToText.still_processing) in
  let out := handleStopRecording "k1" "k2" 5 w in
  fst out = Ret tt
  /\ transcribedText (snd out) = Some (JStr "hello world")
  /\ summary (snd out) = Some (JStr "A greeting.")
  /\ List.length (requests (history (wire (snd out)))) = 6%nat
  /\ last (requests (history (wire (snd out)))) (SpeechToText.blob_request "")
     = Summary.summary_request "k2" "hello world".
Proof.
  intros w out.
  assert (Huri : "file:///cache/rec.m4a" <> "") by discriminate.
  assert (Hfuel : (List.length [SpeechToText.answer (SpeechToText.job "j1" "processing" [])]
                   < 5)%nat) by (simpl; lia).
  pose proof (stop_runs_the_pipeline_in_order "k1" "k2" 5 w
                "file:///cache/rec.m4a"
                (snd (AudioRecording.stopRecording (adapter w)))
                {| ok := true; status := 200; body := "RIFF"; parsed := None |}
                (SpeechToText.answer (JObj [("upload_url", JStr "https://cdn/u1")]))
                (SpeechToText.answer (SpeechToText.job "j1" "queued" []))
                (Some (JStr "https://cdn/u1"))
                (SpeechToText.job "j1" "queued" [])
                [SpeechToText.answer (SpeechToText.job "j1" "processing" [])]
                (SpeechToText.answer
                   (SpeechToText.job "j1" "completed" [("text", JStr "hello world")]))
                (SpeechToText.job "j1" "completed" [("text", JStr "hello world")])
                {| ok := true; status := 200; body := "";
                   parsed := Some (Summary.completion (JStr "A greeting.")) |}
                (Summary.completion (JStr "A greeting."))
                (Some (JStr "A greeting."))
                []
                eq_refl Huri eq_refl eq_refl eq_refl eq_refl eq_refl eq_refl eq_refl
                eq_refl eq_refl eq_refl eq_refl Hfuel) as H.
  cbv zeta in H. fold out in H. destruct H as [H1 [H2 [H3 [H4 _]]]].
  split; [exact H1|]. split; [exact H2|]. split; [exact H3|].
  rewrite H4. split; reflexivity.
Defined.

(** X19.  Once the transcript is there, the stop action ends normally
    whatever the summary service does: it shows the transcript and, as the
    summary, the very value [generateSummary] resolved to when called with
    the transcript on the network the transcription left, a truthy value,
    and raises no alert; the error of the summary hook and the network are
    those that call left.  When the request is rejected or answered with a
    non-success status, the text on show as the summary is the sentence
    ["Failed to generate summary. Please try again."]. *)
Theorem summary_stage_never_alerts
    (speech_key summary_key : string) (fuel : nat) (w : world)
    (audioUri text : value) (a : AudioRecording.world) (s : SpeechToText.world) :
  AudioRecording.stopRecording (adapter w) = (Ret audioUri, a) ->
  truthy audioUri = true ->
  SpeechToText.transcribe speech_key fuel (show audioUri) (speech_of w) = (Ret text, s) ->
  truthy text = true ->
  let out := handleStopRecording speech_key summary_key fuel w in
  fst out = Ret tt
  /\ transcribedText (snd out) = text
  /\ (exists g,
        Summary.generateSummary summary_key (show text)
          {| Summary.isGeneratingSummary := isGeneratingSummary w;
             Summary.error := summaryError w;
             Summary.wire := SpeechToText.wire s |}
        = (Ret (summary (snd out)), g)
        /\ summaryError (snd out) = Summary.error g
        /\ wire (snd out) = Summary.wire g)
  /\ truthy (summary (snd out)) = true
  /\ alerts (snd out) = AudioRecording.alerts a
  /\ isGeneratingSummary (snd out) = false
  /\ history (wire (snd out)) =
       history (SpeechToText.wire s)
       ++ [Fetched (Summary.summary_request summary_key (show text))]
  /\ ((match next_answer (SpeechToText.wire s) with
       | Rejects _ => True
       | Responds r => ok r = false
       end) ->
      summary (snd out) = Some (JStr Summary.failed_summary)
      /\ summaryError (snd out) <> None).
Proof.
  intros Hstop Huri Htr Htext out. subst out.
  rewrite handleStopRecording_cases, Hstop, Huri, Htr, Htext.
  pose proof (SummaryProofs.generateSummary_cases summary_key (show text)
                (summarizer_of (transcribed s (stopped a w)))) as Hc.
  cbv zeta in Hc.
  destruct (generateSummary_resolves summary_key (show text)
              (summarizer_of (transcribed s (stopped a w)))) as [v [e [Hg Hv]]].
  rewrite Hg in Hc |- *. cbn [fst snd].
  split; [reflexivity|]. split; [reflexivity|].
  split.
  { eexists. split; [exact Hg|split; reflexivity]. }
  split; [exact Hv|].
  split; [reflexivity|]. split; [reflexivity|].
  split; [reflexivity|].
  intros Hfail.
  change (Summary.wire (summarizer_of (transcribed s (stopped a w))))
    with (SpeechToText.wire s) in Hc.
  destruct (next_answer (SpeechToText.wire s)) as [r|e0].
  - rewrite Hfail in Hc. injection Hc as -> ->.
    split; [reflexivity|discriminate].
  - injection Hc as -> ->. split; [reflexivity|discriminate].
Qed.

(** The memo of the scripts with the summary service down: the failure
    sentence is shown as the summary, without an alert. *)
Lemma summary_outage_is_shown_as_summary :
  let w := of_screen Scenarios.recording_phone
             (Scenarios.network Scenarios.memo_script_no_summary
                SpeechToText.still_processing) in
  let out := handleStopRecording "k1" "k2" 5 w in
  fst out = Ret tt
  /\ transcribedText (snd out) = Some (JStr "hello world")
  /\ summary (snd out) = Some (JStr "Failed to generate summary. Please try again.")
  /\ alerts (snd out) = []
  /\ summaryError (snd out) <> None.
Proof.
  intros w out.
  pose proof (summary_stage_never_alerts "k1" "k2" 5 w
                (Some (JStr "file:///cache/rec.m4a")) (Some (JStr "hello world"))
                (snd (AudioRecording.stopRecording (adapter w)))
                (snd (SpeechToText.transcribe "k1" 5 "file:///cache/rec.m4a" (speech_of w)))
                eq_refl eq_refl eq_refl eq_refl) as H.
  cbv zeta in H. fold out in H. destruct H as [H1 [H2 [_ [_ [H4 [_ [_ H7]]]]]]].
  destruct (H7 eq_refl) as [H8 H9].
  split; [exact H1|]. split; [exact H2|]. split; [exact H8|].
  split; [rewrite H4; reflexivity|exact H9].
Defined.

(** X20.  The stop action keeps the screen from showing a summary without
    a transcript: if a truthy summary came with a truthy transcript before,
    it does so afterwards. *)
Theorem stop_keeps_summary_with_transcript
    (speech_key summary_key : string) (fuel : nat) (w : world) :
  summary_has_transcript w ->
  summary_has_transcript (snd (handleStopRecording speech_key summary_key fuel w)).
Proof.
  unfold summary_has_transcript. intros Hinv.
  rewrite handleStopRecording_cases.
  destruct (AudioRecording.stopRecording (adapter w)) as [[audioUri|e|] a];
    [|exact Hinv|exact Hinv].
  destruct (truthy audioUri); [|exact Hinv].
  destruct (SpeechToText.transcribe speech_key fuel (show audioUri) (speech_of w))
    as [[text|e|] s]; [|exact Hinv|exact Hinv].
  destruct (truthy text) eqn:Ht; [|exact Hinv].
  destruct (Summary.generateSummary summary_key (show text)
              (summarizer_of (transcribed s (stopped a w)))) as [[sm|e|] g];
    intros _; exact Ht.
Qed.

(** The memo of the scripts: the stop action sets a summary, and the
    transcript is on show with it. *)
Lemma memo_summary_has_its_transcript :
  let w := of_screen Scenarios.recording_phone
             (Scenarios.network Scenarios.memo_script SpeechToText.still_processing) in
  let out := handleStopRecording "k1" "k2" 5 w in
  summary_has_transcript (snd out)
  /\ summary (snd out) = Some (JStr "A greeting.")
  /\ truthy (summary (snd out)) = true
  /\ truthy (transcribedText (snd out)) = true.
Proof.
  intros w out.
  assert (Hbefore : summary_has_transcript w) by (intros H; discriminate H).
  pose proof (stop_keeps_summary_with_transcript "k1" "k2" 5 w Hbefore) as Hafter.
  fold out in Hafter.
  assert (Hset : truthy (summary (snd out)) = true) by reflexivity.
  split; [exact Hafter|]. split; [reflexivity|].
  split; [exact Hset|exact (Hafter Hset)].
Defined.


(** X21.  On the web, when [URL.createObjectURL] throws in the handler of
    the recorder's [stop] event, the stop action never finishes and says
    nothing: no alert is shown and nothing is fetched, the screen shows no
    recording, while the hook still has its flag set and the microphone is
    held. *)
Theorem stop_hangs_silently_when_the_url_fails
    (speech_key summary_key : string) (fuel : nat) (w : world)
    (mr : AudioRecording.MediaRecorder) (e : thrown) :
  AudioRecording.OS (AudioRecording.env (adapter w)) = AudioRecording.Web ->
  AudioRecording.mediaRecorderRef (adapter w) = Some mr ->
  AudioRecording.active mr = true ->
  AudioRecording.createObjectURL (AudioRecording.env (adapter w)) = inl e ->
  AudioRecording.device_held (adapter w) = true ->
  let out := handleStopRecording speech_key summary_key fuel w in
  fst out = Pending
  /\ isRecording (snd out) = false
  /\ AudioRecording.isRecording (adapter (snd out))
     = AudioRecording.isRecording (adapter w)
  /\ AudioRecording.device_held (adapter (snd out)) = true
  /\ alerts (snd out) = alerts w
  /\ wire (snd out) = wire w.
Proof.
  intros Hos Href Hact Hurl Hheld out. subst out.
  rewrite handleStopRecording_cases.
  assert (Hstop : exists chunks,
    AudioRecording.stopRecording (adapter w) =
      (Pending,
       {| AudioRecording.recording := AudioRecording.recording (adapter w);
          AudioRecording.isRecording := AudioRecording.isRecording (adapter w);
          AudioRecording.mediaRecorderRef :=
            Some {| AudioRecording.stream := AudioRecording.stream mr;
                    AudioRecording.active := false |};
          AudioRecording.audioChunksRef := chunks;
          AudioRecording.tracks := AudioRecording.tracks (adapter w);
          AudioRecording.recorderLoaded := AudioRecording.recorderLoaded (adapter w);
          AudioRecording.objectURLs := AudioRecording.objectURLs (adapter w);
          AudioRecording.alerts := AudioRecording.alerts (adapter w);
          AudioRecording.asked := AudioRecording.asked (adapter w);
          AudioRecording.env := AudioRecording.env (adapter w) |})).
  { clear Hheld. destruct (adapter w) as [rec isRec ref chunks trk loaded urls alrt ask env0].
    simpl in *. subst ref.
    unfold AudioRecording.stopRecording, try_catch, AudioRecording.stopRecording_try,
      bind, gets. simpl.
    rewrite Hos. simpl. unfold AudioRecording.stop_promise. rewrite Hact. simpl.
    unfold bind, AudioRecording.setMediaRecorderRef, modify, gets. simpl.
    match goal with |- context [AudioRecording.deliver ?b ?w1] =>
      destruct (RecordingProofs.deliver_frame b w1) as [c Hc] end.
    simpl in Hc. rewrite Hc. simpl.
    unfold AudioRecording.onstop. simpl. rewrite Hurl.
    exists c. reflexivity. }
  destruct Hstop as [chunks ->].
  cbn [fst snd]. unfold stopped, alerts. cbn [isRecording adapter wire].
  repeat split. exact Hheld.
Qed.

(** The browser without object URLs, stopped from the screen. *)
Lemma stop_hangs_without_object_urls :
  let a := snd (AudioRecording.startRecording
                  (AudioRecording.initial AudioRecording.no_object_urls)) in
  let w := of_screen (Screen.mounted a)
             (Scenarios.network Scenarios.memo_script SpeechToText.still_processing) in
  let out := handleStopRecording "k1" "k2" 5 w in
  fst out = Pending
  /\ alerts (snd out) = []
  /\ AudioRecording.device_held (adapter (snd out)) = true
  /\ events (wire (snd out)) = [].
Proof.
  intros a w out.
  pose proof (stop_hangs_silently_when_the_url_fails "k1" "k2" 5 w
                {| AudioRecording.stream := 0; AudioRecording.active := true |}
                (ErrorObj "TypeError" "URL.createObjectURL is not a function")
                eq_refl eq_refl eq_refl eq_refl eq_refl) as H.
  cbv zeta in H. fold out in H. destruct H as [H1 [_ [_ [H4 [H5 H6]]]]].
  split; [exact H1|]. split; [rewrite H5; reflexivity|].
  split; [exact H4|rewrite H6; reflexivity].
Defined.

End SessionProofs.

(* ================================================================== *)
(** * Further properties of the recordings server *)
(* ================================================================== *)

Module ServerEdges.
Import Server.
Import Scenarios.
Import ServerProofs.
#[local] Open Scope list_scope.

Lemma truthy_reads (v : value) : truthy v = true -> exists j, v = Some j.
Proof. destruct v as [j|]; [eexists; reflexivity|discriminate]. Qed.

(** The write route, by what it finds. *)
Lemma post_cases (castString : json -> option string) (now : Z) (oid : string)
    (body : value) (st : store) :
  post castString now oid body st =
    match get body "transcription", get body "summary" with
    | inr t, inr s =>
        if truthy t && truthy s then
          match cast_required castString t, cast_required castString s with
          | Some t', Some s' =>
              if connected st then
                let doc := {| id := oid; transcription := t'; summary := s';
                              createdAt := now |} in
                (Ret {| code := 201; sent_json := Document doc |},
                 {| collection := collection st ++ [doc]; connected := connected st |})
              else (Ret {| code := 500; sent_json := ErrorBody "Failed to save recording" |},
                    st)
          | _, _ =>
              (Ret {| code := 500; sent_json := ErrorBody "Failed to save recording" |}, st)
          end
        else (Ret {| code := 400; sent_json := ErrorBody required_error |}, st)
    | _, _ => (Ret {| code := 500; sent_json := ErrorBody "Failed to save recording" |}, st)
    end.
Proof.
  destruct st as [coll conn].
  unfold post, try_catch, post_try, bind, lift.
  destruct (get body "transcription") as [e|t] eqn:Ht.
  - destruct body as [[]|]; unfold get in *; simpl in *; try discriminate; reflexivity.
  - destruct (get body "summary") as [e|s] eqn:Hs; [reflexivity|].
    unfold ret at 1 2. 
    destruct (truthy t); destruct (truthy s); simpl; try reflexivity.
    unfold create, bind, gets, insert_doc, modify, ret, throw. simpl.
    destruct (cast_required castString t); [|reflexivity].
    destruct (cast_required castString s); [|reflexivity].
    destruct conn; reflexivity.
Qed.

(** X22.  The write route always answers, with 201, 400 or 500, and the
    store changes on 201 only: then exactly one document was appended,
    stamped with the instant of the write and the identifier the database
    gave, its two texts being the casts of the two fields.  On 400 and 500
    the store is as it was. *)
Theorem post_changes_store_only_on_201
    (castString : json -> option string) (now : Z) (oid : string)
    (body : value) (st : store) :
  let out := post castString now oid body st in
  exists r,
    fst out = Ret r
    /\ connected (snd out) = connected st
    /\ ((code r = 201%Z /\ connected st = true /\
         exists t s doc,
           get body "transcription" = inr (Some t)
           /\ get body "summary" = inr (Some s)
           /\ castString t = Some (transcription doc)
           /\ castString s = Some (summary doc)
           /\ id doc = oid /\ createdAt doc = now
           /\ sent_json r = Document doc
           /\ collection (snd out) = collection st ++ [doc])
        \/ ((code r = 400%Z \/ code r = 500%Z) /\ snd out = st)).
Proof.
  intros out. subst out. rewrite post_cases.
  destruct (get body "transcription") as [e|t] eqn:Ht;
    [eexists; split; [reflexivity|split; [reflexivity|right; split; [right|]; reflexivity]]|].
  destruct (get body "summary") as [e|s] eqn:Hs;
    [eexists; split; [reflexivity|split; [reflexivity|right; split; [right|]; reflexivity]]|].
  destruct (truthy t) eqn:Htt; simpl;
    [|eexists; split; [reflexivity|split; [reflexivity|right; split; [left|]; reflexivity]]].
  destruct (truthy s) eqn:Hts; simpl;
    [|eexists; split; [reflexivity|split; [reflexivity|right; split; [left|]; reflexivity]]].
  destruct (truthy_reads t Htt) as [tj ->]. destruct (truthy_reads s Hts) as [sj ->].
  simpl.
  destruct (castString tj) as [t'|] eqn:Hct;
    [|eexists; split; [reflexivity|split; [reflexivity|right; split; [right|]; reflexivity]]].
  destruct (castString sj) as [s'|] eqn:Hcs;
    [|eexists; split; [reflexivity|split; [reflexivity|right; split; [right|]; reflexivity]]].
  destruct (connected st) eqn:Hconn;
    [|eexists; split; [reflexivity|split; [exact Hconn|right; split; [right|]; reflexivity]]].
  eexists. split; [reflexivity|]. split; [reflexivity|]. left.
  split; [reflexivity|]. split; [reflexivity|].
  exists tj, sj, {| id := oid; transcription := t'; summary := s'; createdAt := now |}.
  simpl. repeat split; assumption.
Qed.

(** X23.  The write route answers 400 exactly when the body can be read
    and one of the two fields is falsy: missing, [null], [false], [0] or
    the empty text. *)
Theorem post_answers_400_iff_a_field_is_falsy
    (castString : json -> option string) (now : Z) (oid : string)
    (body : value) (st : store) :
  (exists r, fst (post castString now oid body st) = Ret r /\ code r = 400%Z)
  <->
  (exists t s,
     get body "transcription" = inr t /\ get body "summary" = inr s
     /\ (truthy t = false \/ truthy s = false)).
Proof.
  rewrite post_cases. split.
  - intros [r [Hr Hcode]].
    destruct (get body "transcription") as [e|t]; simpl in Hr.
    { injection Hr as <-. discriminate Hcode. }
    destruct (get body "summary") as [e|s]; simpl in Hr.
    { injection Hr as <-. discriminate Hcode. }
    exists t, s. split; [reflexivity|]. split; [reflexivity|].
    destruct (truthy t); [|left; reflexivity].
    destruct (truthy s); [|right; reflexivity].
    simpl in Hr.
    destruct (cast_required castString t); simpl in Hr;
      [|injection Hr as <-; discriminate Hcode].
    destruct (cast_required castString s); simpl in Hr;
      [|injection Hr as <-; discriminate Hcode].
    destruct (connected st); simpl in Hr; injection Hr as <-; discriminate Hcode.
  - intros [t [s [-> [-> H]]]].
    assert (Hf : truthy t && truthy s = false).
    { destruct H as [-> | ->]; [reflexivity|apply andb_false_r]. }
    rewrite Hf. eexists. split; reflexivity.
Qed.

(** X24.  A write that cannot be stored answers 500 with
    ["Failed to save recording"] and stores nothing: when the body is [null]
    or absent, when the schema cannot cast one of the two fields, or when
    the database does not answer. *)
Theorem post_answers_500_when_it_cannot_store
    (castString : json -> option string) (now : Z) (oid : string)
    (body : value) (st : store) :
  (body = None \/ body = Some JNull
   \/ (exists t s, get body "transcription" = inr (Some t)
                   /\ get body "summary" = inr (Some s)
                   /\ truthy (Some t) = true /\ truthy (Some s) = true
                   /\ (castString t = None \/ castString s = None
                       \/ connected st = false))) ->
  post castString now oid body st =
    (Ret {| code := 500; sent_json := ErrorBody "Failed to save recording" |}, st).
Proof.
  rewrite post_cases.
  intros [-> | [-> | [t [s [-> [-> [Ht [Hs H]]]]]]]]; [reflexivity|reflexivity|].
  rewrite Ht, Hs. simpl.
  destruct (castString t) as [t'|]; [|reflexivity].
  destruct (castString s) as [s'|]; [|reflexivity].
  destruct H as [H|[H|H]]; try discriminate.
  rewrite H. reflexivity.
Qed.

Lemma In_firstn {A} (n : nat) (l : list A) (x : A) : In x (firstn n l) -> In x l.
Proof.
  revert l. induction n as [|n IH]; intros l H; simpl in H; [contradiction|].
  destruct l as [|z l]; [contradiction|].
  destruct H as [->|H]; [left; reflexivity|right; apply IH; exact H].
Qed.

(** X25.  The listing route never changes the store.  On a connected
    database it answers 200 with stored documents only; on one that does
    not answer, 500 with ["Failed to fetch recordings"]. *)
Theorem list_recordings_is_read_only (st : store) :
  snd (list_recordings st) = st
  /\ (connected st = true ->
      exists l, fst (list_recordings st) = Ret {| code := 200; sent_json := Documents l |}
                /\ incl l (collection st))
  /\ (connected st = false ->
      fst (list_recordings st)
        = Ret {| code := 500; sent_json := ErrorBody "Failed to fetch recordings" |}).
Proof.
  destruct (connected st) eqn:Hconn.
  - rewrite (list_recordings_connected st Hconn).
    split; [reflexivity|]. split; [|discriminate].
    intros _. eexists. split; [reflexivity|].
    intros d Hd. apply In_firstn in Hd.
    eapply Permutation_in; [apply Permutation_sym, sort_desc_perm|exact Hd].
  - unfold list_recordings, try_catch, list_try, bind, gets. rewrite Hconn.
    split; [reflexivity|]. split; [discriminate|reflexivity].
Qed.

Lemma insert_desc_oldest (d : Recording) (l : list Recording) :
  Forall (fun y => (createdAt d < createdAt y)%Z) l ->
  insert_desc d l = l ++ [d].
Proof.
  induction l as [|x l IH]; intros H; simpl; [reflexivity|].
  inversion H as [|? ? Hx Hl]; subst.
  destruct (createdAt x <=? createdAt d)%Z eqn:E.
  - apply Z.leb_le in E. lia.
  - rewrite (IH Hl). reflexivity.
Qed.

Lemma sort_desc_chronological (l : list Recording) :
  StronglySorted (fun a b => (createdAt a < createdAt b)%Z) l ->
  sort_desc l = rev l.
Proof.
  induction l as [|x l IH]; intros H; simpl; [reflexivity|].
  inversion H as [|? ? Hl Hx]; subst.
  rewrite (IH Hl). apply insert_desc_oldest.
  apply Forall_forall. intros y Hy. rewrite Forall_forall in Hx.
  apply Hx. apply in_rev. exact Hy.
Qed.

(** X26.  On a store whose documents were written at ever later
    instants, the listing is the collection read backwards and cut after
    100: the latest writes, the latest first; whatever was written before
    the last 100 is not listed. *)
Theorem listing_is_the_latest_hundred (st : store) :
  chronological st ->
  connected st = true ->
  fst (list_recordings st)
    = Ret {| code := 200; sent_json := Documents (firstn 100 (rev (collection st))) |}
  /\ (forall older latest,
        collection st = older ++ latest ->
        List.length latest = 100%nat ->
        firstn 100 (rev (collection st)) = rev latest).
Proof.
  intros Hchrono Hconn.
  rewrite (list_recordings_connected st Hconn).
  rewrite (sort_desc_chronological _ Hchrono).
  split; [reflexivity|].
  intros older latest Hsplit Hlen.
  rewrite <- Hlen, Hsplit, rev_app_distr, firstn_app, length_rev.
  rewrite Nat.sub_diag, firstn_O, app_nil_r.
  rewrite <- (length_rev latest). apply firstn_all.
Qed.

(** X27.  Writes at ever later instants keep the collection in the
    order of its instants: whatever the write route answers to a request
    made at an instant later than every stored one, the store it leaves is
    chronological again. *)
Theorem post_keeps_the_store_chronological
    (castString : json -> option string) (now : Z) (oid : string)
    (body : value) (st : store) :
  chronological st ->
  all_before now st = true ->
  chronological (snd (post castString now oid body st)).
Proof.
  unfold chronological. intros Hchrono Hbefore.
  rewrite post_cases.
  destruct (get body "transcription") as [e|t]; [exact Hchrono|].
  destruct (get body "summary") as [e|s]; [exact Hchrono|].
  destruct (truthy t && truthy s); [|exact Hchrono].
  destruct (cast_required castString t); [|exact Hchrono].
  destruct (cast_required castString s); [|exact Hchrono].
  destruct (connected st); [|exact Hchrono].
  cbn [snd collection].
  pose proof (all_before_Forall now st Hbefore) as Hold.
  clear Hbefore. revert Hchrono Hold.
  induction (collection st) as [|x l IH]; intros Hs Hold; simpl.
  - constructor; constructor.
  - inversion Hs as [|? ? Hl Hx]; subst. inversion Hold as [|? ? Hxn Hln]; subst.
    constructor; [apply IH; assumption|].
    apply Forall_app. split; [exact Hx|]. constructor; [exact Hxn|constructor].
Qed.


(** An empty transcription is refused like a missing one. *)
Lemma empty_transcription_is_refused :
  exists r,
    fst (post castText 1700001200000 "65a3"
           (Some (JObj [("transcription", JStr ""); ("summary", JStr "s")])) two_memos)
      = Ret r
    /\ code r = 400%Z.
Proof.
  apply (proj2 (post_answers_400_iff_a_field_is_falsy castText 1700001200000 "65a3"
                  (Some (JObj [("transcription", JStr ""); ("summary", JStr "s")]))
                  two_memos)).
  exists (Some (JStr "")), (Some (JStr "s")).
  split; [reflexivity|]. split; [reflexivity|left; reflexivity].
Defined.

(** A good write to a database that does not answer, and a write whose
    summary is a list. *)
Lemma unstorable_writes_answer_500 :
  post castText 1700001200000 "65a3" (write "t" "s") unplugged
    = (Ret {| code := 500; sent_json := ErrorBody "Failed to save recording" |}, unplugged)
  /\ post castText 1700001200000 "65a3"
       (Some (JObj [("transcription", JStr "t"); ("summary", JArr [JStr "s"])])) two_memos
     = (Ret {| code := 500; sent_json := ErrorBody "Failed to save recording" |}, two_memos).
Proof.
  split.
  - apply post_answers_500_when_it_cannot_store. right. right.
    exists (JStr "t"), (JStr "s"). repeat split. right. right. reflexivity.
  - apply post_answers_500_when_it_cannot_store. right. right.
    exists (JStr "t"), (JArr [JStr "s"]). repeat split. right. left. reflexivity.
Defined.

Lemma two_memos_chronological : chronological two_memos.
Proof.
  unfold chronological. simpl.
  repeat (constructor; [|repeat constructor; simpl; lia]). constructor.
Qed.

(** The two memos are listed latest first. *)
Lemma two_memos_listed_backwards :
  fst (list_recordings two_memos)
    = Ret {| code := 200; sent_json := Documents (rev (collection two_memos)) |}.
Proof.
  exact (proj1 (listing_is_the_latest_hundred two_memos two_memos_chronological eq_refl)).
Defined.

(** A third memo written after the two. *)
Lemma third_memo_keeps_the_order :
  chronological (snd (post castText 1700001200000 "65a3" (write "t" "s") two_memos)).
Proof.
  exact (post_keeps_the_store_chronological castText 1700001200000 "65a3" (write "t" "s")
           two_memos two_memos_chronological eq_refl).
Defined.

End ServerEdges.

(* ================================================================== *)
(** * Properties of the elapsed-time display *)
(* ================================================================== *)

Module DisplayProofs.
Import Display.

Lemma split_colon_app (a b : string) :
  no_colon a = true -> split_colon (a ++ ":" ++ b) = (a, b).
Proof.
  induction a as [|c a IH]; intros H; simpl in *.
  - reflexivity.
  - apply andb_true_iff in H. destruct H as [Hc Ha].
    apply negb_true_iff in Hc. rewrite Hc. rewrite (IH Ha). reflexivity.
Qed.

Lemma no_colon_app (a b : string) :
  no_colon (a ++ b) = no_colon a && no_colon b.
Proof.
  induction a as [|c a IH]; simpl; [reflexivity|].
  rewrite IH. apply andb_assoc.
Qed.

Lemma no_colon_zeros (n : nat) : no_colon (zeros n) = true.
Proof. induction n as [|n IH]; simpl; [reflexivity|exact IH]. Qed.

Lemma no_colon_digits (d : Decimal.uint) : no_colon (NilEmpty.string_of_uint d) = true.
Proof. induction d; simpl; try reflexivity; assumption. Qed.

(** The decimal text of a number that is not negative. *)
Lemma decimal_nonneg (n : Z) :
  (0 <= n)%Z ->
  exists d, decimal n = NilEmpty.string_of_uint d /\ Z.of_uint d = n.
Proof.
  intros Hn. unfold decimal.
  pose proof (DecimalZ.of_to n) as Hround.
  destruct n as [|p|p]; [| |lia].
  - exists (Decimal.D0 Decimal.Nil). split; reflexivity.
  - simpl in *. exists (Pos.to_uint p). split; [|exact Hround].
    unfold NilZero.string_of_uint.
    destruct (Pos.to_uint p) eqn:E; try reflexivity.
    exfalso. revert E. apply DecimalPos.Unsigned.to_uint_nonnil.
Qed.

Lemma field_value_zeros (k : nat) (d : Decimal.uint) :
  field_value (zeros k ++ NilEmpty.string_of_uint d) = Some (Z.of_uint d).
Proof.
  unfold field_value.
  induction k as [|k IH]; simpl.
  - rewrite NilEmpty.usu. reflexivity.
  - destruct (NilEmpty.uint_of_string (zeros k ++ NilEmpty.string_of_uint d)) as [u|];
      simpl in *; [|discriminate].
    injection IH as IH. unfold Z.of_uint in *. simpl. rewrite IH. reflexivity.
Qed.

(** What the display stands for is the duration it was made from. *)
Lemma seconds_shown_formatDuration (s : Z) :
  (0 <= s)%Z -> seconds_shown (formatDuration s) = Some s.
Proof.
  intros Hs. unfold seconds_shown, formatDuration. cbv zeta.
  assert (Hm : (0 <= s / 60)%Z) by (apply Z.div_pos; lia).
  assert (Hr : (0 <= Z.rem s 60)%Z) by (apply Z.rem_nonneg; lia).
  destruct (decimal_nonneg _ Hm) as [dm [Hdm Hvm]].
  destruct (decimal_nonneg _ Hr) as [dr [Hdr Hvr]].
  unfold padStart. rewrite Hdm, Hdr.
  rewrite split_colon_app.
  - rewrite !field_value_zeros, Hvm, Hvr.
    f_equal. rewrite Z.rem_mod_nonneg by lia.
    pose proof (Z.div_mod s 60). lia.
  - rewrite no_colon_app, no_colon_zeros, no_colon_digits. reflexivity.
Qed.

(** X28.  Two durations never look the same: on the durations the
    counter takes (0, 1, 2, ...) the display is injective. *)
Theorem formatDuration_injective (a b : Z) :
  (0 <= a)%Z -> (0 <= b)%Z ->
  formatDuration a = formatDuration b -> a = b.
Proof.
  intros Ha Hb H.
  pose proof (seconds_shown_formatDuration a Ha) as Ea.
  pose proof (seconds_shown_formatDuration b Hb) as Eb.
  rewrite H in Ea. rewrite Ea in Eb. injection Eb as ->. reflexivity.
Qed.

(** 59 and 60 seconds. *)
Lemma one_minute_differs :
  formatDuration 59 = "00:59" /\ formatDuration 60 = "01:00"
  /\ (formatDuration 59 = formatDuration 60 -> 59 = 60)%Z.
Proof.
  split; [reflexivity|]. split; [reflexivity|].
  apply formatDuration_injective; lia.
Defined.

Lemma two_digits (n : Z) :
  (0 <= n < 100)%Z -> String.length (padStart 2 (decimal n)) = 2%nat.
Proof.
  intros Hn.
  assert (Hall : forallb
            (fun k => Nat.eqb (String.length (padStart 2 (decimal (Z.of_nat k)))) 2)
            (seq 0 100) = true) by (vm_compute; reflexivity).
  rewrite forallb_forall in Hall.
  specialize (Hall (Z.to_nat n)).
  rewrite Z2Nat.id in Hall by lia.
  apply Nat.eqb_eq. apply Hall. apply in_seq. lia.
Qed.

Lemma length_append (a b : string) :
  String.length (a ++ b) = (String.length a + String.length b)%nat.
Proof. induction a as [|c a IH]; simpl; [reflexivity|]. rewrite IH. reflexivity. Qed.

(** X29.  Below 100 minutes the display is five characters long, two for
    the minutes, a colon, two for the seconds; the seconds take two
    characters at any duration, and from 100 minutes on the display is
    longer than five. *)
Theorem formatDuration_shape (s : Z) :
  (0 <= s)%Z ->
  (exists mins secs,
     formatDuration s = mins ++ ":" ++ secs
     /\ String.length secs = 2%nat
     /\ ((s < 6000)%Z -> String.length mins = 2%nat)
     /\ ((6000 <= s)%Z -> (2 < String.length mins)%nat))
  /\ ((s < 6000)%Z -> String.length (formatDuration s) = 5%nat).
Proof.
  intros Hs.
  assert (Hr : (0 <= Z.rem s 60 < 100)%Z).
  { rewrite Z.rem_mod_nonneg by lia. pose proof (Z.mod_pos_bound s 60). lia. }
  assert (Hm : (s < 6000 -> 0 <= s / 60 < 100)%Z).
  { intros Hlt. split; [apply Z.div_pos; lia|].
    apply Z.div_lt_upper_bound; lia. }
  assert (Hlong : (6000 <= s)%Z ->
                  (2 < String.length (padStart 2 (decimal (s / 60))))%nat).
  { intros Hge.
    assert (H100 : (100 <= s / 60)%Z) by (apply Z.div_le_lower_bound; lia).
    remember (s / 60)%Z as q eqn:Hq. clear Hq.
    destruct (decimal_nonneg q) as [d [Hd Hv]]; [lia|].
    unfold padStart. rewrite length_append.
    assert (Hlen : (2 < String.length (decimal q))%nat).
    { rewrite Hd. clear Hd.
      destruct d as [|d|d|d|d|d|d|d|d|d|d]; [vm_compute in Hv; lia|..].
      all: destruct d as [|d|d|d|d|d|d|d|d|d|d]; [vm_compute in Hv; lia|..].
      all: destruct d as [|d|d|d|d|d|d|d|d|d|d]; [vm_compute in Hv; lia|..].
      all: simpl; lia. }
    lia. }
  split.
  - exists (padStart 2 (decimal (s / 60))), (padStart 2 (decimal (Z.rem s 60))).
    split; [reflexivity|]. split; [apply two_digits; exact Hr|].
    split; [intros Hlt; apply two_digits; apply Hm; exact Hlt|exact Hlong].
  - intros Hlt. unfold formatDuration. cbv zeta.
    rewrite !length_append. rewrite (two_digits _ (Hm Hlt)), (two_digits _ Hr).
    reflexivity.
Qed.

(** An hour less a second, and a hundred minutes. *)
Lemma longest_five_character_display :
  formatDuration 5999 = "99:59" /\ formatDuration 6000 = "100:00"
  /\ String.length (formatDuration 5999) = 5%nat.
Proof.
  split; [reflexivity|]. split; [reflexivity|].
  assert (H : (0 <= 5999)%Z) by lia.
  destruct (formatDuration_shape 5999 H) as [_ Hlen].
  apply Hlen. lia.
Defined.

End DisplayProofs.
